(** * pmca.usb.driver.libusb: the MSC and PTP/MTP drivers over a bulk transport

    A shallow embedding of [src/pmca/usb/driver/libusb.py].  The file follows
    the Python module top-down: the three wire structures, the bulk transport
    wrapper [UsbDriver], the mass-storage driver [MscDriver] and the PTP/MTP
    driver [MtpDriver].  Python exceptions are values of [exn]; methods are
    computations in a small state-and-error monad over the driver object. *)

From Stdlib Require Import ZArith List String Bool Lia HexString.
From Stdlib.Strings Require Import Byte.
Import ListNotations.
Local Open Scope Z_scope.

(** ** Byte strings and exceptions *)

Definition bytes := list byte.

(** Python's [len]. *)
Definition len {A} (l : list A) : Z := Z.of_nat (List.length l).

(** Python's slice [data[a:b]] for [0 <= a]. *)
Definition slice (data : bytes) (a b : Z) : bytes :=
  firstn (Z.to_nat (b - a)) (skipn (Z.to_nat a) data).

(** Python's [s.ljust(n, b'\0')]. *)
Definition ljust0 (s : bytes) (n : nat) : bytes :=
  s ++ repeat x00 (n - List.length s).

Definition bytes_eqb (a b : bytes) : bool :=
  if list_eq_dec Byte.byte_eq_dec a b then true else false.

Definition byte_of_Z (z : Z) : byte :=
  match Byte.of_N (Z.to_N (z mod 256)) with
  | Some b => b
  | None => x00
  end.

Definition Z_of_byte (b : byte) : Z := Z.of_N (Byte.to_N b).

(** The exceptions the module can raise or let through. *)
Inductive exn : Type :=
| Exception (msg : string)   (* raise Exception('...') *)
| USBError                   (* usb.core.USBError, raised by the device handle *)
| FormatError                (* raised by the struct codec *)
| AttributeError             (* reading an attribute the object does not have *)
| TypeError.                 (* subscripting None *)

Inductive result (A : Type) : Type :=
| Ok (a : A)
| Raise (e : exn).
Arguments Ok {A} a.
Arguments Raise {A} e.

(** ** util.Struct, dump8, dump32le *)

Module Struct.

(** Modelled from the spec: the field formats of util.Struct, which is not
    under src/: unsigned integers of 8, 16 and 32 bits and "fixed-length byte
    strings" ([Struct.STR % n] in the source's declarations). *)
Inductive fmt : Type := INT8 | INT16 | INT32 | STR (n : nat).

(** A field's value: a Python int or a byte string. *)
Inductive value : Type := VInt (z : Z) | VStr (s : bytes).

(** The second argument of [Struct(name, fields)]: names and formats, in
    wire order. *)
Definition layout := list (string * fmt).

(** Modelled from the spec: the integer widths of the external interfaces'
    table (u8, u16, u32) and the length of a byte buffer. *)
Definition width (f : fmt) : nat :=
  match f with
  | INT8 => 1
  | INT16 => 2
  | INT32 => 4
  | STR n => n
  end.

Fixpoint calcsize (fs : list fmt) : nat :=
  match fs with
  | [] => 0
  | f :: fs' => width f + calcsize fs'
  end.

(** Modelled from the spec: the [size] attribute of util.Struct, "the
    structure's fixed size" in bytes (the codec itself is not under src/). *)
Definition size (l : layout) : Z := Z.of_nat (calcsize (map snd l)).

(** Modelled from the spec: "little-endian multi-byte integers".  [n] bytes
    of [z], least significant first. *)
Fixpoint dumple (n : nat) (z : Z) : bytes :=
  match n with
  | O => []
  | S k => byte_of_Z (z mod 256) :: dumple k (z / 256)
  end.

(** The integer that the bytes [bs] hold, least significant first. *)
Fixpoint parsele (bs : bytes) : Z :=
  match bs with
  | [] => 0
  | b :: r => Z_of_byte b + 256 * parsele r
  end.

Definition in_range (w : nat) (z : Z) : bool :=
  (0 <=? z) && (z <? 256 ^ Z.of_nat w).

Definition pack_field (f : fmt) (v : value) : result bytes :=
  match f, v with
  | STR n, VStr s => Ok (firstn n s ++ repeat x00 (n - List.length s))
  | STR _, VInt _ => Raise FormatError
  | _, VInt z =>
      if in_range (width f) z then Ok (dumple (width f) z)
      else Raise FormatError
  | _, VStr _ => Raise FormatError
  end.

Fixpoint pack_fields (fs : list fmt) (vs : list value) : result bytes :=
  match fs, vs with
  | [], [] => Ok []
  | f :: fs', v :: vs' =>
      match pack_field f v with
      | Ok b =>
          match pack_fields fs' vs' with
          | Ok r => Ok (b ++ r)
          | Raise e => Raise e
          end
      | Raise e => Raise e
      end
  | _, _ => Raise FormatError
  end.

Definition unpack_field (f : fmt) (bs : bytes) : value :=
  match f with
  | STR _ => VStr bs
  | _ => VInt (parsele bs)
  end.

Fixpoint unpack_fields (fs : list fmt) (data : bytes) : list value :=
  match fs with
  | [] => []
  | f :: fs' =>
      unpack_field f (firstn (width f) data)
        :: unpack_fields fs' (skipn (width f) data)
  end.

(** Modelled from the spec: util.Struct.pack, which is not under src/.
    "Encode ... to their fixed byte layouts (little-endian multi-byte
    integers; signature/command fields are raw byte buffers)".  The spec is
    silent on values that do not fit a field; here an integer outside its
    width is a [FormatError] and a byte buffer is cut or zero-filled to the
    field's length. *)
Definition pack (l : layout) (vs : list value) : result bytes :=
  pack_fields (map snd l) vs.

(** Modelled from the spec: util.Struct.unpack, which is not under src/.
    "Decode validates only length"; it "fails with FormatError if the
    supplied byte buffer is shorter than the structure's fixed size". *)
Definition unpack (l : layout) (data : bytes) : result (list value) :=
  if len data <? size l then Raise FormatError
  else Ok (unpack_fields (map snd l) data).

(** A value that fits its field exactly. *)
Definition fits (f : fmt) (v : value) : Prop :=
  match f, v with
  | STR n, VStr s => List.length s = n
  | STR _, VInt _ => False
  | _, VInt z => 0 <= z < 256 ^ Z.of_nat (width f)
  | _, VStr _ => False
  end.

End Struct.

(** Modelled from the spec: util.dump8 and util.dump32le, which are not under
    src/: one unsigned byte, and an unsigned 32-bit little-endian integer
    ("up to N 32-bit little-endian arguments"). *)
Definition dump8 (x : Z) : result bytes :=
  Struct.pack_field Struct.INT8 (Struct.VInt x).

Definition dump32le (x : Z) : result bytes :=
  Struct.pack_field Struct.INT32 (Struct.VInt x).

(** ** The wire structures (libusb.py, lines 9-31) *)

Module PtpHeader.
Import Struct.

Definition layout : Struct.layout :=
  [ ("size", INT32); ("type", INT16); ("code", INT16);
    ("transaction", INT32) ]%string.

Record tuple : Type :=
  mk { size : Z; type : Z; code : Z; transaction : Z }.

Definition pack (h : tuple) : result bytes :=
  Struct.pack layout
    [VInt (size h); VInt (type h); VInt (code h); VInt (transaction h)].

Definition unpack (data : bytes) : result tuple :=
  match Struct.unpack layout data with
  | Ok [VInt a; VInt b; VInt c; VInt d] => Ok (mk a b c d)
  | Ok _ => Raise FormatError
  | Raise e => Raise e
  end.

Definition valid (h : tuple) : Prop :=
  0 <= size h < 2 ^ 32 /\ 0 <= type h < 2 ^ 16 /\
  0 <= code h < 2 ^ 16 /\ 0 <= transaction h < 2 ^ 32.
End PtpHeader.

Module MscCommandBlockWrapper.
Import Struct.

Definition layout : Struct.layout :=
  [ ("signature", STR 4); ("tag", INT32); ("dataTransferLength", INT32);
    ("flags", INT8); ("lun", INT8); ("commandLength", INT8);
    ("command", STR 16) ]%string.

Record tuple : Type :=
  mk { signature : bytes; tag : Z; dataTransferLength : Z; flags : Z;
       lun : Z; commandLength : Z; command : bytes }.

Definition pack (c : tuple) : result bytes :=
  Struct.pack layout
    [VStr (signature c); VInt (tag c); VInt (dataTransferLength c);
     VInt (flags c); VInt (lun c); VInt (commandLength c);
     VStr (command c)].

Definition unpack (data : bytes) : result tuple :=
  match Struct.unpack layout data with
  | Ok [VStr s; VInt t; VInt d; VInt f; VInt l; VInt n; VStr c] =>
      Ok (mk s t d f l n c)
  | Ok _ => Raise FormatError
  | Raise e => Raise e
  end.

Definition valid (c : tuple) : Prop :=
  List.length (signature c) = 4%nat /\ 0 <= tag c < 2 ^ 32 /\
  0 <= dataTransferLength c < 2 ^ 32 /\ 0 <= flags c < 2 ^ 8 /\
  0 <= lun c < 2 ^ 8 /\ 0 <= commandLength c < 2 ^ 8 /\
  List.length (command c) = 16%nat.
End MscCommandBlockWrapper.

Module MscCommandStatusWrapper.
Import Struct.

Definition layout : Struct.layout :=
  [ ("signature", STR 4); ("tag", INT32); ("dataResidue", INT32);
    ("status", INT8) ]%string.

Record tuple : Type :=
  mk { signature : bytes; tag : Z; dataResidue : Z; status : Z }.

Definition pack (c : tuple) : result bytes :=
  Struct.pack layout
    [VStr (signature c); VInt (tag c); VInt (dataResidue c);
     VInt (status c)].

Definition unpack (data : bytes) : result tuple :=
  match Struct.unpack layout data with
  | Ok [VStr s; VInt t; VInt r; VInt st] => Ok (mk s t r st)
  | Ok _ => Raise FormatError
  | Raise e => Raise e
  end.

Definition valid (c : tuple) : Prop :=
  List.length (signature c) = 4%nat /\ 0 <= tag c < 2 ^ 32 /\
  0 <= dataResidue c < 2 ^ 32 /\ 0 <= status c < 2 ^ 8.
End MscCommandStatusWrapper.

(** ** The device handle and the driver object *)

(** What one call of [dev.read] or [dev.write] comes back with:
    [usb.core.USBError], or the transfer's value. *)
Inductive reply (A : Type) : Type :=
| USBErr
| Transfer (a : A).
Arguments USBErr {A}.
Arguments Transfer {A} a.

(** The device is scripted: the replies its successive [read] and [write]
    calls will get.  A call past the end of the script times out, which pyusb
    reports as [USBError]. *)
Record device : Type :=
  { bulk_in : list (reply bytes); bulk_out : list (reply Z) }.

(** The calls made on the device handle, in order. *)
Inductive event : Type :=
| Write (ep : Z) (data : bytes)
| Read (ep : Z) (length : Z)
| ClearHalt (ep : Z).

(** The driver object's attributes.  [transaction] is [None] until the
    attribute has been assigned. *)
Record driver : Type :=
  { dev : device; epIn : Z; epOut : Z; transaction : option Z }.

Definition with_dev (s : driver) (d : device) : driver :=
  {| dev := d; epIn := epIn s; epOut := epOut s;
     transaction := transaction s |}.

Definition with_transaction (s : driver) (t : Z) : driver :=
  {| dev := dev s; epIn := epIn s; epOut := epOut s; transaction := Some t |}.

(** A method call: from the object's state to an outcome, the new state and
    the calls made on the device.  The outcome [None] means that the fuel of a
    loop or recursion ran out. *)
Definition M (A : Type) : Type :=
  driver -> option (result A) * driver * list event.

Definition ret {A} (a : A) : M A := fun s => (Some (Ok a), s, []).

Definition raise {A} (e : exn) : M A := fun s => (Some (Raise e), s, []).

Definition diverge {A} : M A := fun s => (None, s, []).

Definition lift {A} (r : result A) : M A := fun s => (Some r, s, []).

Definition bind {A B} (m : M A) (k : A -> M B) : M B :=
  fun s =>
    match m s with
    | (Some (Ok a), s1, t1) =>
        let '(r, s2, t2) := k a s1 in (r, s2, t1 ++ t2)
    | (Some (Raise e), s1, t1) => (Some (Raise e), s1, t1)
    | (None, s1, t1) => (None, s1, t1)
    end.

(** [try: m  except usb.core.USBError: h] *)
Definition try_USBError {A} (m h : M A) : M A :=
  fun s =>
    match m s with
    | (Some (Raise USBError), s1, t1) =>
        let '(r, s2, t2) := h s1 in (r, s2, t1 ++ t2)
    | other => other
    end.

Declare Scope py_scope.
Delimit Scope py_scope with py.
Notation "x <- m ;; k" := (bind m (fun x => k))
  (at level 61, m at next level, right associativity) : py_scope.
Notation "' p <- m ;; k" := (bind m (fun x => let 'p := x in k))
  (at level 61, p pattern, m at next level, right associativity) : py_scope.
Notation "m ;; k" := (bind m (fun _ => k))
  (at level 61, right associativity) : py_scope.
Local Open Scope py_scope.

(** The outcome, final state and trace of a call. *)
Definition outcome {A} (x : option (result A) * driver * list event) :=
  fst (fst x).
Definition final {A} (x : option (result A) * driver * list event) :=
  snd (fst x).
Definition trace {A} (x : option (result A) * driver * list event) :=
  snd x.

(** The byte strings written on the device, in order. *)
Fixpoint writes (t : list event) : list bytes :=
  match t with
  | [] => []
  | Write _ data :: t' => data :: writes t'
  | _ :: t' => writes t'
  end.

(** ** class UsbDriver (libusb.py, lines 50-85) *)

Module UsbDriver.

Definition read (length : Z) : M bytes :=
  fun s =>
    let d := dev s in
    match bulk_in d with
    | Transfer data :: rest =>
        (Some (Ok data),
         with_dev s {| bulk_in := rest; bulk_out := bulk_out d |},
         [Read (epIn s) length])
    | USBErr :: rest =>
        (Some (Raise USBError),
         with_dev s {| bulk_in := rest; bulk_out := bulk_out d |},
         [Read (epIn s) length])
    | [] => (Some (Raise USBError), s, [Read (epIn s) length])
    end.

Definition write (data : bytes) : M Z :=
  fun s =>
    let d := dev s in
    match bulk_out d with
    | Transfer n :: rest =>
        (Some (Ok n),
         with_dev s {| bulk_in := bulk_in d; bulk_out := rest |},
         [Write (epOut s) data])
    | USBErr :: rest =>
        (Some (Raise USBError),
         with_dev s {| bulk_in := bulk_in d; bulk_out := rest |},
         [Write (epOut s) data])
    | [] => (Some (Raise USBError), s, [Write (epOut s) data])
    end.

(** [self.dev.clear_halt(ep)] *)
Definition clear_halt (ep : driver -> Z) : M unit :=
  fun s => (Some (Ok tt), s, [ClearHalt (ep s)]).

End UsbDriver.

(** ** pmca.usb.driver: the sense data *)

(** [MSC_SENSE_OK] and [parseMscSense] are imported from the package
    (libusb.py, line 6) and are not under src/: they are parameters here.
    Python compares sense values with [==], so their equality is decidable.
    [parseMscSense] receives what [sendReadCommand] returned as data, which
    may be [None]. *)
Class SenseData : Type :=
  { Sense : Type;
    MSC_SENSE_OK : Sense;
    Sense_eq_dec : forall a b : Sense, {a = b} + {a <> b};
    parseMscSense : option bytes -> result Sense }.

(** [a == b] on sense values. *)
Definition Sense_eqb {SD : SenseData} (a b : Sense) : bool :=
  if Sense_eq_dec a b then true else false.

(** ** class MscDriver (libusb.py, lines 88-157) *)

Module MscDriver.
Import UsbDriver.

Definition MSC_OC_REQUEST_SENSE : Z := 0x03.
Definition DIRECTION_WRITE : Z := 0.
Definition DIRECTION_READ : Z := 0x80.

Definition USBC : bytes := Eval cbv in list_byte_of_string "USBC".
Definition USBS : bytes := Eval cbv in list_byte_of_string "USBS".

(** [tag] and [lun] default to 0 in Python; a caller that leaves them out
    passes 0 here. *)
Definition _writeCommand (direction : Z) (command : bytes) (dataSize : Z)
    (tag lun : Z) : M unit :=
  cbw <- lift (MscCommandBlockWrapper.pack
           {| MscCommandBlockWrapper.signature := USBC;
              MscCommandBlockWrapper.tag := tag;
              MscCommandBlockWrapper.dataTransferLength := dataSize;
              MscCommandBlockWrapper.flags := direction;
              MscCommandBlockWrapper.lun := lun;
              MscCommandBlockWrapper.commandLength := len command;
              MscCommandBlockWrapper.command := ljust0 command 16 |}) ;;
  _ <- write cbw ;;
  ret tt.

Section WithSense.
Context {SD : SenseData}.

(** [sendReadCommand], [requestSense] and [_readResponse] call each other.
    The first two are written over the status reader they call; the knot
    is tied in [_readResponse], whose [depth] bounds the nesting of
    status reads. *)
Definition sendReadCommand_ (readResponse : bool -> M Sense)
    (command : bytes) (size : Z) (failOnError : bool)
    : M (Sense * option bytes) :=
  _writeCommand DIRECTION_READ command size 0 0 ;;
  '(stalled, data) <-
    try_USBError
      (data <- read size ;; ret (false, Some data))
      ((* Read stall *)
       clear_halt epIn ;; ret (true, None)) ;;
  sense <- readResponse failOnError ;;
  if stalled && Sense_eqb sense MSC_SENSE_OK
  then raise (Exception "Mass storage read error")
  else ret (sense, data).

Definition REQUEST_SENSE_COMMAND (size : Z) : result bytes :=
  match dump8 MSC_OC_REQUEST_SENSE, dump8 size with
  | Ok op, Ok sz => Ok (op ++ repeat x00 3 ++ sz ++ [x00])
  | Raise e, _ => Raise e
  | _, Raise e => Raise e
  end.

Definition requestSense_ (readResponse : bool -> M Sense) : M Sense :=
  let size := 18 in
  command <- lift (REQUEST_SENSE_COMMAND size) ;;
  '(response, data) <- sendReadCommand_ readResponse command size true ;;
  lift (parseMscSense data).

Fixpoint _readResponse (depth : nat) (failOnError : bool) : M Sense :=
  match depth with
  | O => diverge
  | S depth' =>
      data <- read (Struct.size MscCommandStatusWrapper.layout) ;;
      response <- lift (MscCommandStatusWrapper.unpack data) ;;
      if negb (bytes_eqb (MscCommandStatusWrapper.signature response) USBS)
      then raise (Exception "Wrong status signature")
      else if negb (MscCommandStatusWrapper.status response =? 0)
      then
        if failOnError then raise (Exception "Mass storage error")
        else requestSense_ (_readResponse depth')
      else ret MSC_SENSE_OK
  end.

Definition requestSense (depth : nat) : M Sense :=
  requestSense_ (_readResponse depth).

Definition sendCommand (depth : nat) (command : bytes)
    (failOnError : bool) : M Sense :=
  _writeCommand DIRECTION_WRITE command 0 0 0 ;;
  _readResponse depth failOnError.

Definition sendWriteCommand (depth : nat) (command data : bytes)
    (failOnError : bool) : M Sense :=
  _writeCommand DIRECTION_WRITE command (len data) 0 0 ;;
  stalled <-
    try_USBError
      (_ <- write data ;; ret false)
      ((* Write stall *)
       clear_halt epOut ;; ret true) ;;
  sense <- _readResponse depth failOnError ;;
  if stalled && Sense_eqb sense MSC_SENSE_OK
  then raise (Exception "Mass storage write error")
  else ret sense.

Definition sendReadCommand (depth : nat) (command : bytes) (size : Z)
    (failOnError : bool) : M (Sense * option bytes) :=
  sendReadCommand_ (_readResponse depth) command size failOnError.

End WithSense.
End MscDriver.

(** ** class MtpDriver (libusb.py, lines 160-218) *)

Module MtpDriver.
Import UsbDriver.

Definition MAX_PKG_LEN : Z := 512.
Definition TYPE_COMMAND : Z := 1.
Definition TYPE_DATA : Z := 2.
Definition TYPE_RESPONSE : Z := 3.

Definition _writePtp (type code transaction : Z) (data : bytes) : M unit :=
  header <- lift (PtpHeader.pack
              {| PtpHeader.size := Struct.size PtpHeader.layout + len data;
                 PtpHeader.type := type;
                 PtpHeader.code := code;
                 PtpHeader.transaction := transaction |}) ;;
  _ <- write (header ++ data) ;;
  ret tt.

(** [while data == b'': data = self.read(self.MAX_PKG_LEN)]; every turn of
    the loop uses one unit of [fuel]. *)
Fixpoint while_empty (fuel : nat) (data : bytes) {struct fuel} : M bytes :=
  match data with
  | [] =>
      match fuel with
      | O => diverge
      | S fuel' => data' <- read MAX_PKG_LEN ;; while_empty fuel' data'
      end
  | _ :: _ => ret data
  end.

Definition _readPtp (fuel : nat) : M (Z * Z * Z * bytes) :=
  data <- while_empty fuel [] ;;
  header <- lift (PtpHeader.unpack data) ;;
  data <- (if PtpHeader.size header >? MAX_PKG_LEN
           then more <- read (PtpHeader.size header - MAX_PKG_LEN) ;;
                ret (data ++ more)
           else ret data) ;;
  ret (PtpHeader.type header, PtpHeader.code header,
       PtpHeader.transaction header,
       slice data (Struct.size PtpHeader.layout)
         (Struct.size PtpHeader.layout + PtpHeader.size header)).

(** ['Wrong response type: 0x%x' % type] *)
Definition wrong_response_type (type : Z) : exn :=
  Exception ("Wrong response type: " ++ HexString.of_Z type).

Definition _readData (fuel : nat) : M bytes :=
  '(type, code, transaction, data) <- _readPtp fuel ;;
  if negb (type =? TYPE_DATA) then raise (wrong_response_type type)
  else ret data.

Definition _readResponse (fuel : nat) : M Z :=
  '(type, code, transaction, data) <- _readPtp fuel ;;
  if negb (type =? TYPE_RESPONSE) then raise (wrong_response_type type)
  else ret code.

(** [self.transaction] *)
Definition self_transaction : M Z :=
  fun s =>
    match transaction s with
    | Some t => (Some (Ok t), s, [])
    | None => (Some (Raise AttributeError), s, [])
    end.

(** [b''.join([dump32le(arg) for arg in args])] *)
Fixpoint join_dump32le (args : list Z) : result bytes :=
  match args with
  | [] => Ok []
  | arg :: args' =>
      match dump32le arg with
      | Ok b =>
          match join_dump32le args' with
          | Ok r => Ok (b ++ r)
          | Raise e => Raise e
          end
      | Raise e => Raise e
      end
  end.

(** [try: self.transaction += 1] / [except AttributeError:
    self.transaction = 0] *)
Definition next_transaction : M unit :=
  fun s =>
    match transaction s with
    | Some t => (Some (Ok tt), with_transaction s (t + 1), [])
    | None => (Some (Ok tt), with_transaction s 0, [])
    end.

Definition _writeInitialCommand (code : Z) (args : list Z) : M unit :=
  next_transaction ;;
  transaction <- self_transaction ;;
  payload <- lift (join_dump32le args) ;;
  _writePtp TYPE_COMMAND code transaction payload.

Definition sendCommand (fuel : nat) (code : Z) (args : list Z) : M Z :=
  _writeInitialCommand code args ;;
  _readResponse fuel.

Definition sendWriteCommand (fuel : nat) (code : Z) (args : list Z)
    (data : bytes) : M Z :=
  _writeInitialCommand code args ;;
  transaction <- self_transaction ;;
  _writePtp TYPE_DATA code transaction data ;;
  _readResponse fuel.

Definition sendReadCommand (fuel : nat) (code : Z) (args : list Z)
    : M (Z * bytes) :=
  _writeInitialCommand code args ;;
  data <- _readData fuel ;;
  response <- _readResponse fuel ;;
  ret (response, data).

End MtpDriver.

(** ** UsbDriver: finding the endpoints (libusb.py, lines 52-70) *)

Module UsbDriverSetup.

Definition USB_ENDPOINT_TYPE_BULK : Z := 2.
Definition USB_ENDPOINT_MASK : Z := 1.
Definition USB_ENDPOINT_OUT : Z := 0.
Definition USB_ENDPOINT_IN : Z := 1.

(** An endpoint descriptor, with the two fields the driver looks at. *)
Record Endpoint : Type :=
  { bmAttributes : Z; bEndpointAddress : Z }.

(** [ep.bmAttributes == type and
     ep.bEndpointAddress & self.USB_ENDPOINT_MASK == direction]; in Python
    [&] binds tighter than [==]. *)
Definition matches (type direction : Z) (ep : Endpoint) : bool :=
  (bmAttributes ep =? type) &&
  (Z.land (bEndpointAddress ep) USB_ENDPOINT_MASK =? direction).

(** [interface] is [self.dev.get_active_configuration()[(0, 0)]], the
    endpoints of the device's first interface, in descriptor order. *)
Fixpoint _findEndpoint (interface : list Endpoint) (type direction : Z)
    : result Z :=
  match interface with
  | [] => Raise (Exception "No endpoint found")
  | ep :: interface' =>
      if matches type direction ep then Ok (bEndpointAddress ep)
      else _findEndpoint interface' type direction
  end.

(** The new object has [dev], [epIn] and [epOut], and no [transaction]. *)
Definition __init__ (interface : list Endpoint) (handle : device)
    : result driver :=
  match _findEndpoint interface USB_ENDPOINT_TYPE_BULK USB_ENDPOINT_IN with
  | Ok found_in =>
      match _findEndpoint interface USB_ENDPOINT_TYPE_BULK
              USB_ENDPOINT_OUT with
      | Ok found_out =>
          Ok {| dev := handle; epIn := found_in; epOut := found_out;
                transaction := None |}
      | Raise e => Raise e
      end
  | Raise e => Raise e
  end.

End UsbDriverSetup.

(** ** listDevices (libusb.py, lines 42-47) *)

Module Listing.

Record Interface : Type := { bInterfaceClass : Z }.

(** A device as [usb.core.find] gives it: its ids and its configurations,
    each one the list of its interfaces. *)
Record Device : Type :=
  { idVendor : Z; idProduct : Z; configurations : list (list Interface) }.

(** The four arguments of [UsbDevice(...)]; the constructor comes from the
    package (libusb.py, line 6) and is not under src/. *)
Record UsbDevice : Type :=
  { handle : Device; vendor : Z; product : Z; type : Z }.

(** [next((interface for config in dev for interface in config), None)] *)
Definition first_interface (dev : Device) : option Interface :=
  hd_error (List.concat (configurations dev)).

(** The generator, as the list of what it yields; [found] is what
    [usb.core.find(find_all=True, idVendor=vendor)] returned. *)
Fixpoint listDevices (found : list Device) : list UsbDevice :=
  match found with
  | [] => []
  | dev :: found' =>
      match first_interface dev with
      | Some interface =>
          {| handle := dev; vendor := idVendor dev; product := idProduct dev;
             type := bInterfaceClass interface |} :: listDevices found'
      | None => listDevices found'
      end
  end.

End Listing.

(** * Vocabulary of the properties *)

(** The value a field holds once packed: a byte buffer is cut or zero-filled
    to the field's length, an integer is kept. *)
Definition stored (f : Struct.fmt) (v : Struct.value) : Struct.value :=
  match f, v with
  | Struct.STR n, Struct.VStr s =>
      Struct.VStr (firstn n s ++ repeat x00 (n - List.length s))
  | _, _ => v
  end.

Fixpoint stored_all (fs : list Struct.fmt) (vs : list Struct.value)
    : list Struct.value :=
  match fs, vs with
  | f :: fs', v :: vs' => stored f v :: stored_all fs' vs'
  | _, _ => []
  end.

(** [w] decodes as a CBW with the "USBC" signature, tag 0 and lun 0. *)
Definition cbw_tag0_lun0 (w : bytes) : Prop :=
  exists c,
    MscCommandBlockWrapper.unpack w = Ok c /\
    MscCommandBlockWrapper.signature c = MscDriver.USBC /\
    MscCommandBlockWrapper.tag c = 0 /\
    MscCommandBlockWrapper.lun c = 0.

(** [w] is a PTP packet of the given type and transaction id. *)
Definition ptp_packet (type transaction : Z) (w : bytes) : Prop :=
  exists h,
    PtpHeader.unpack w = Ok h /\
    PtpHeader.type h = type /\
    PtpHeader.transaction h = transaction.

(** The state of the driver once its device has been left as [d]. *)
Definition read_done (s : driver) (rest : list (reply bytes)) : driver :=
  with_dev s {| bulk_in := rest; bulk_out := bulk_out (dev s) |}.

Definition write_done (s : driver) (rest : list (reply Z)) : driver :=
  with_dev s {| bulk_in := bulk_in (dev s); bulk_out := rest |}.

(** Every byte string that the method writes on the device satisfies [P],
    from whatever state it is called in. *)
Definition emits {A} (P : bytes -> Prop) (m : M A) : Prop :=
  forall s, Forall P (writes (trace (m s))).

(** The writes of a command with a data-out phase, without the data payload,
    which is the second write. *)
Definition without_payload (ws : list bytes) : list bytes :=
  match ws with
  | c :: _ :: rest => c :: rest
  | _ => ws
  end.

(** What a data-phase command returns, from the outcome of its status phase:
    [with_data] when the transfer went through, [after_stall] when it
    stalled. *)
Definition with_data {SD : SenseData} {A} (f : Sense -> A)
    (o : option (result Sense)) : option (result A) :=
  match o with
  | Some (Ok sense) => Some (Ok (f sense))
  | Some (Raise e) => Some (Raise e)
  | None => None
  end.

Definition after_stall {SD : SenseData} {A} (msg : string) (f : Sense -> A)
    (o : option (result Sense)) : option (result A) :=
  match o with
  | Some (Ok sense) =>
      if Sense_eqb sense MSC_SENSE_OK then Some (Raise (Exception msg))
      else Some (Ok (f sense))
  | Some (Raise e) => Some (Raise e)
  | None => None
  end.

(** A call of one of the three public PTP operations. *)
Inductive ptp_call : Type :=
| Command (code : Z) (args : list Z)
| WriteCommand (code : Z) (args : list Z) (data : bytes)
| ReadCommand (code : Z) (args : list Z).

(** The call, with its return value dropped. *)
Definition perform (fuel : nat) (c : ptp_call) : M unit :=
  match c with
  | Command code args =>
      _ <- MtpDriver.sendCommand fuel code args ;; ret tt
  | WriteCommand code args data =>
      _ <- MtpDriver.sendWriteCommand fuel code args data ;; ret tt
  | ReadCommand code args =>
      _ <- MtpDriver.sendReadCommand fuel code args ;; ret tt
  end.

(** A caller making the calls [cs] one after the other on the same driver,
    going on after an exception; [None] if one of the calls never comes
    back. *)
Fixpoint session (fuel : nat) (cs : list ptp_call) (s : driver)
    : option driver :=
  match cs with
  | [] => Some s
  | c :: cs' =>
      match perform fuel c s with
      | (Some _, s', _) => session fuel cs' s'
      | (None, _, _) => None
      end
  end.

(** The transaction id that the next command will use. *)
Definition next_id (s : driver) : Z :=
  match transaction s with
  | Some t => t + 1
  | None => 0
  end.

(** The types of the packets that a call sends, in order. *)
Definition packets_of (c : ptp_call) : list Z :=
  match c with
  | Command _ _ => [MtpDriver.TYPE_COMMAND]
  | WriteCommand _ _ _ => [MtpDriver.TYPE_COMMAND; MtpDriver.TYPE_DATA]
  | ReadCommand _ _ => [MtpDriver.TYPE_COMMAND]
  end.

(** The writes [ws] are, in order, packets of the first types of [types],
    all of them with transaction id [t]. *)
Fixpoint carries (t : Z) (types : list Z) (ws : list bytes) : Prop :=
  match ws, types with
  | [], _ => True
  | w :: ws', type :: types' => ptp_packet type t w /\ carries t types' ws'
  | _ :: _, [] => False
  end.

(** Arguments that fit the fields of the Command packet. *)
Definition call_fits (c : ptp_call) : Prop :=
  match c with
  | Command code args | WriteCommand code args _ | ReadCommand code args =>
      0 <= code < 2 ^ 16 /\
      Forall (fun arg => 0 <= arg < 2 ^ 32) args /\
      12 + 4 * len args < 2 ^ 32
  end.

(** Data that fits the size field of the Data packet. *)
Definition data_fits (c : ptp_call) : Prop :=
  match c with
  | WriteCommand _ _ data => 12 + len data < 2 ^ 32
  | Command _ _ | ReadCommand _ _ => True
  end.

(** The writes [ws] are exactly one packet of each of the [types], in this
    order, all of them with transaction id [t]. *)
Definition sends (t : Z) (types : list Z) (ws : list bytes) : Prop :=
  Forall2 (fun type w => ptp_packet type t w) types ws.

(** The method leaves the [transaction] attribute as it found it. *)
Definition keeps_transaction {A} (m : M A) : Prop :=
  forall s, transaction (final (m s)) = transaction s.

(** ** Worked examples: a sense decoder and some devices *)

(** A sense value made of the sense key, ASC and ASCQ of a fixed-format
    sense buffer, to run the mass-storage driver on concrete devices. *)
Definition triple_eq_dec (a b : Z * Z * Z) : {a = b} + {a <> b}.
Proof. repeat decide equality. Defined.

Definition parse_triple (data : option bytes) : result (Z * Z * Z) :=
  match data with
  | None => Raise TypeError
  | Some b =>
      if len b <? 14 then Raise FormatError
      else Ok (Z.land (Z_of_byte (nth 2 b x00)) 0xf,
               Z_of_byte (nth 12 b x00), Z_of_byte (nth 13 b x00))
  end.

Definition TripleSense : SenseData :=
  {| Sense := Z * Z * Z;
     MSC_SENSE_OK := (0, 0, 0);
     Sense_eq_dec := triple_eq_dec;
     parseMscSense := parse_triple |}.

(** A driver that has sent no command yet. *)
Definition fresh (d : device) : driver :=
  {| dev := d; epIn := 0x81; epOut := 0x02; transaction := None |}.

Definition packed (r : result bytes) : bytes :=
  match r with
  | Ok b => b
  | Raise _ => []
  end.

Definition csw (status : Z) : bytes :=
  packed (MscCommandStatusWrapper.pack
            {| MscCommandStatusWrapper.signature := MscDriver.USBS;
               MscCommandStatusWrapper.tag := 0;
               MscCommandStatusWrapper.dataResidue := 0;
               MscCommandStatusWrapper.status := status |}).

(** A status block whose signature is not "USBS". *)
Definition bad_csw : bytes :=
  packed (MscCommandStatusWrapper.pack
            {| MscCommandStatusWrapper.signature := MscDriver.USBC;
               MscCommandStatusWrapper.tag := 0;
               MscCommandStatusWrapper.dataResidue := 0;
               MscCommandStatusWrapper.status := 0 |}).

(** A device given by its replies to reads and to writes, behind a driver
    that has sent no command yet. *)
Definition device_of (ins : list (reply bytes)) (outs : list (reply Z))
    : driver :=
  fresh {| bulk_in := ins; bulk_out := outs |}.

(** Sense data: ILLEGAL REQUEST, invalid field in CDB. *)
Definition sense_buffer : bytes :=
  [x70; x00; x05; x00; x00; x00; x00; x0a; x00; x00; x00; x00; x24; x00;
   x00; x00; x00; x00].

Definition ptp_packet_bytes (type code transaction : Z) (payload : bytes)
    : bytes :=
  packed (PtpHeader.pack
            {| PtpHeader.size := 12 + len payload;
               PtpHeader.type := type;
               PtpHeader.code := code;
               PtpHeader.transaction := transaction |}) ++ payload.

(** A Data packet of 514 bytes, which takes two reads. *)
Definition long_packet : bytes :=
  ptp_packet_bytes 2 0x1001 4 (repeat x00 500 ++ [x01; x02]).

(** The scenario of the first command: a new driver, a device that takes
    the Command packet and answers with a Response packet. *)
Definition first_command_device : driver :=
  device_of [Transfer (ptp_packet_bytes 3 0x2001 0 [])] [Transfer 16].

(** The Command packet of [sendCommand(0x1001, [5])] with transaction id 0. *)
Definition first_command_packet : bytes :=
  Eval cbv in ptp_packet_bytes 1 0x1001 0 [x05; x00; x00; x00].

(** A session of three commands of different kinds, and the devices before
    and after its first two. *)
Definition two_calls : list ptp_call :=
  [Command 0x1001 [5]; ReadCommand 0x1002 []].

Definition third_call : ptp_call := WriteCommand 0x100d [1] [xaa].

Definition session_start : driver :=
  device_of [Transfer (ptp_packet_bytes 3 0x2001 0 []);
             Transfer (ptp_packet_bytes 2 0x1002 1 [x07]);
             Transfer (ptp_packet_bytes 3 0x2001 1 []);
             Transfer (ptp_packet_bytes 3 0x2001 2 [])]
    [Transfer 16; Transfer 12; Transfer 16; Transfer 13].

Definition session_after_two : driver :=
  {| dev := {| bulk_in := [Transfer (ptp_packet_bytes 3 0x2001 2 [])];
               bulk_out := [Transfer 16; Transfer 13] |};
     epIn := 0x81; epOut := 0x02; transaction := Some 1 |}.

(** The REQUEST SENSE command block, as [requestSense] builds it. *)
Definition request_sense_bytes : bytes := [x03; x00; x00; x00; x12; x00].

Definition a_header : PtpHeader.tuple := PtpHeader.mk 16 1 0x1001 7.

Definition a_cbw : MscCommandBlockWrapper.tuple :=
  MscCommandBlockWrapper.mk MscDriver.USBC 0 18 0x80 0 6
    (ljust0 request_sense_bytes 16).

Definition a_csw : MscCommandStatusWrapper.tuple :=
  MscCommandStatusWrapper.mk MscDriver.USBS 0 0 1.

(** The CBW of REQUEST SENSE for 18 bytes, as it goes on the wire. *)
Definition request_sense_cbw : bytes :=
  Eval cbv in packed (MscCommandBlockWrapper.pack a_cbw).

(** ** More worked examples *)

(** The bulk endpoints of a camera: IN at 0x81, OUT at 0x02, and an
    interrupt endpoint at 0x83. *)
Definition camera_interface : list UsbDriverSetup.Endpoint :=
  [ {| UsbDriverSetup.bmAttributes := 3;
       UsbDriverSetup.bEndpointAddress := 0x83 |};
    {| UsbDriverSetup.bmAttributes := 2;
       UsbDriverSetup.bEndpointAddress := 0x81 |};
    {| UsbDriverSetup.bmAttributes := 2;
       UsbDriverSetup.bEndpointAddress := 0x02 |} ].

(** TEST UNIT READY, and a 10-byte command block. *)
Definition test_unit_ready : bytes := [x00; x00; x00; x00; x00; x00].

Definition ten_byte_command : bytes :=
  [x2a; x00; x00; x00; x00; x00; x00; x00; x01; x00].

(** Two good status blocks that differ in their tag and residue. *)
Definition csw_tagged (tag residue status : Z) : bytes :=
  packed (MscCommandStatusWrapper.pack
            {| MscCommandStatusWrapper.signature := MscDriver.USBS;
               MscCommandStatusWrapper.tag := tag;
               MscCommandStatusWrapper.dataResidue := residue;
               MscCommandStatusWrapper.status := status |}).

(** The call [e] is made on the driver's own endpoints: a read on [i], a
    write on [o], a halt cleared on one of the two. *)
Definition on_endpoints (i o : Z) (e : event) : Prop :=
  match e with
  | Write ep _ => ep = o
  | Read ep _ => ep = i
  | ClearHalt ep => ep = i \/ ep = o
  end.

(** The method leaves [epIn] and [epOut] as they are and makes all its calls
    on them. *)
Definition stays_on_endpoints {A} (m : M A) : Prop :=
  forall s,
    epIn (final (m s)) = epIn s /\
    epOut (final (m s)) = epOut s /\
    Forall (on_endpoints (epIn s) (epOut s)) (trace (m s)).

(** * Properties *)

(** ** Bytes and little-endian integers *)

Lemma Z_of_byte_range (b : byte) : 0 <= Z_of_byte b < 256.
Proof.
  unfold Z_of_byte. pose proof (Byte.to_N_bounded b). lia.
Qed.

Lemma Z_of_byte_of_Z (z : Z) : Z_of_byte (byte_of_Z z) = z mod 256.
Proof.
  unfold Z_of_byte, byte_of_Z.
  assert (Hm : 0 <= z mod 256 < 256) by (apply Z.mod_pos_bound; lia).
  destruct (Byte.of_N (Z.to_N (z mod 256))) as [b|] eqn:E.
  - apply Byte.to_of_N in E. rewrite E. lia.
  - apply Byte.of_N_None_iff in E. lia.
Qed.

Lemma length_dumple (n : nat) (z : Z) : List.length (Struct.dumple n z) = n.
Proof.
  revert z. induction n as [|n IH]; intro z; simpl; [reflexivity|].
  now rewrite IH.
Qed.

Lemma parsele_dumple (n : nat) (z : Z) :
  0 <= z < 256 ^ Z.of_nat n -> Struct.parsele (Struct.dumple n z) = z.
Proof.
  revert z. induction n as [|n IH]; intros z Hz.
  - simpl in *. lia.
  - cbn [Struct.dumple Struct.parsele]. rewrite Z_of_byte_of_Z.
    rewrite IH.
    + rewrite Z.mod_mod by lia. pose proof (Z.div_mod z 256 ltac:(lia)). lia.
    + rewrite Nat2Z.inj_succ, Z.pow_succ_r in Hz by lia.
      split; [apply Z.div_pos; lia|].
      apply Z.div_lt_upper_bound; lia.
Qed.

Lemma in_range_true (w : nat) (z : Z) :
  Struct.in_range w z = true <-> 0 <= z < 256 ^ Z.of_nat w.
Proof.
  unfold Struct.in_range. rewrite andb_true_iff, Z.leb_le, Z.ltb_lt. tauto.
Qed.

Lemma firstn_length_app {A} (a b : list A) :
  firstn (List.length a) (a ++ b) = a.
Proof. induction a as [|x a IH]; simpl; [now destruct b | now rewrite IH]. Qed.

Lemma skipn_length_app {A} (a b : list A) :
  skipn (List.length a) (a ++ b) = b.
Proof. induction a as [|x a IH]; simpl; auto. Qed.

(** ** The codec: what a successful [pack] decodes to *)

Lemma Ok_inj {A} (a b : A) : Ok a = Ok b -> a = b.
Proof. congruence. Qed.

Lemma length_cut_fill (n : nat) (s : bytes) :
  List.length (firstn n s ++ repeat x00 (n - List.length s)) = n.
Proof.
  rewrite length_app, length_firstn, repeat_length. lia.
Qed.

Lemma pack_field_ok (f : Struct.fmt) (v : Struct.value) (b : bytes) :
  Struct.pack_field f v = Ok b ->
  List.length b = Struct.width f /\ Struct.unpack_field f b = stored f v.
Proof.
  destruct f, v;
    cbn [Struct.pack_field Struct.unpack_field Struct.width stored];
    try discriminate;
    try (destruct (Struct.in_range _ z) eqn:E; [|discriminate];
         apply in_range_true in E; intro H; apply Ok_inj in H; subst b;
         split;
         [apply length_dumple | now rewrite parsele_dumple]).
  intros [= <-]. split; [apply length_cut_fill | reflexivity].
Qed.

Lemma pack_fields_ok (fs : list Struct.fmt) :
  forall (vs : list Struct.value) (b : bytes),
    Struct.pack_fields fs vs = Ok b ->
    List.length b = Struct.calcsize fs /\
    forall rest, Struct.unpack_fields fs (b ++ rest) = stored_all fs vs.
Proof.
  induction fs as [|f fs IH]; intros [|v vs] b; simpl; try discriminate.
  - intros [= <-]. split; reflexivity.
  - destruct (Struct.pack_field f v) as [b1|] eqn:E1; [|discriminate].
    destruct (Struct.pack_fields fs vs) as [b2|] eqn:E2; [|discriminate].
    intros [= <-]. apply pack_field_ok in E1 as [L1 U1].
    destruct (IH _ _ E2) as [L2 U2]. split.
    + rewrite length_app. lia.
    + intro rest. rewrite <- app_assoc.
      rewrite <- L1, firstn_length_app, skipn_length_app, U2.
      now rewrite U1.
Qed.

Lemma pack_unpack_ok (l : Struct.layout) (vs : list Struct.value) (b : bytes) :
  Struct.pack l vs = Ok b ->
  len b = Struct.size l /\
  forall rest,
    Struct.unpack l (b ++ rest) = Ok (stored_all (map snd l) vs).
Proof.
  unfold Struct.pack, Struct.unpack, Struct.size, len. intro H.
  apply pack_fields_ok in H as [L U]. split; [now rewrite L|].
  intro rest. rewrite length_app, L, U.
  destruct (Z.ltb_spec (Z.of_nat (Struct.calcsize (map snd l) + List.length rest))
              (Z.of_nat (Struct.calcsize (map snd l)))); [lia|reflexivity].
Qed.

Lemma pack_field_fits (f : Struct.fmt) (v : Struct.value) :
  Struct.fits f v ->
  exists b, Struct.pack_field f v = Ok b /\ stored f v = v.
Proof.
  destruct f, v;
    cbn [Struct.fits Struct.pack_field Struct.width stored];
    try contradiction; intro H;
    try (apply in_range_true in H; rewrite H; eexists; split; reflexivity).
  eexists. split; [reflexivity|].
  subst n. rewrite firstn_all, Nat.sub_diag, app_nil_r. reflexivity.
Qed.

Lemma pack_fields_fits (fs : list Struct.fmt) (vs : list Struct.value) :
  Forall2 Struct.fits fs vs ->
  exists b, Struct.pack_fields fs vs = Ok b /\ stored_all fs vs = vs.
Proof.
  induction 1 as [|f v fs vs Hf _ IH]; simpl.
  - eexists; split; reflexivity.
  - destruct (pack_field_fits _ _ Hf) as (b1 & -> & ->).
    destruct IH as (b2 & -> & ->). eexists; split; reflexivity.
Qed.

(** ** The three wire structures *)

Lemma PtpHeader_unpack_pack (h : PtpHeader.tuple) (b : bytes) :
  PtpHeader.pack h = Ok b ->
  len b = 12 /\ forall rest, PtpHeader.unpack (b ++ rest) = Ok h.
Proof.
  unfold PtpHeader.pack, PtpHeader.unpack. intro H.
  apply pack_unpack_ok in H as [L U]. split; [exact L|].
  intro rest. rewrite U. destruct h; reflexivity.
Qed.

Lemma CBW_unpack_pack (c : MscCommandBlockWrapper.tuple) (b : bytes) :
  MscCommandBlockWrapper.pack c = Ok b ->
  len b = 31 /\
  forall rest,
    MscCommandBlockWrapper.unpack (b ++ rest) =
    Ok {| MscCommandBlockWrapper.signature :=
            firstn 4 (MscCommandBlockWrapper.signature c) ++
            repeat x00 (4 - List.length (MscCommandBlockWrapper.signature c));
          MscCommandBlockWrapper.tag := MscCommandBlockWrapper.tag c;
          MscCommandBlockWrapper.dataTransferLength :=
            MscCommandBlockWrapper.dataTransferLength c;
          MscCommandBlockWrapper.flags := MscCommandBlockWrapper.flags c;
          MscCommandBlockWrapper.lun := MscCommandBlockWrapper.lun c;
          MscCommandBlockWrapper.commandLength :=
            MscCommandBlockWrapper.commandLength c;
          MscCommandBlockWrapper.command :=
            firstn 16 (MscCommandBlockWrapper.command c) ++
            repeat x00 (16 - List.length (MscCommandBlockWrapper.command c)) |}.
Proof.
  unfold MscCommandBlockWrapper.pack, MscCommandBlockWrapper.unpack. intro H.
  apply pack_unpack_ok in H as [L U]. split; [exact L|].
  intro rest. rewrite U. reflexivity.
Qed.

Lemma CSW_unpack_pack (c : MscCommandStatusWrapper.tuple) (b : bytes) :
  MscCommandStatusWrapper.pack c = Ok b ->
  len b = 13 /\
  forall rest,
    MscCommandStatusWrapper.unpack (b ++ rest) =
    Ok {| MscCommandStatusWrapper.signature :=
            firstn 4 (MscCommandStatusWrapper.signature c) ++
            repeat x00 (4 - List.length (MscCommandStatusWrapper.signature c));
          MscCommandStatusWrapper.tag := MscCommandStatusWrapper.tag c;
          MscCommandStatusWrapper.dataResidue :=
            MscCommandStatusWrapper.dataResidue c;
          MscCommandStatusWrapper.status :=
            MscCommandStatusWrapper.status c |}.
Proof.
  unfold MscCommandStatusWrapper.pack, MscCommandStatusWrapper.unpack.
  intro H. apply pack_unpack_ok in H as [L U]. split; [exact L|].
  intro rest. rewrite U. reflexivity.
Qed.

Lemma cut_fill_exact (n : nat) (s : bytes) :
  List.length s = n -> firstn n s ++ repeat x00 (n - List.length s) = s.
Proof.
  intros <-. now rewrite firstn_all, Nat.sub_diag, app_nil_r.
Qed.

Ltac fits_all :=
  repeat (apply Forall2_cons; [cbn; first [assumption | lia] |]);
  apply Forall2_nil.

(** C8. For every valid assignment of the fields of a PtpHeader, of a CBW and
    of a CSW (every integer within its width, every byte buffer of its
    field's length), packing succeeds and unpacking the packed bytes gives
    the fields back. *)
Theorem wire_roundtrip :
  (forall h, PtpHeader.valid h ->
     exists b, PtpHeader.pack h = Ok b /\ PtpHeader.unpack b = Ok h) /\
  (forall c, MscCommandBlockWrapper.valid c ->
     exists b, MscCommandBlockWrapper.pack c = Ok b /\
               MscCommandBlockWrapper.unpack b = Ok c) /\
  (forall c, MscCommandStatusWrapper.valid c ->
     exists b, MscCommandStatusWrapper.pack c = Ok b /\
               MscCommandStatusWrapper.unpack b = Ok c).
Proof.
  split; [|split].
  - intros h (H1 & H2 & H3 & H4).
    destruct (pack_fields_fits (map snd PtpHeader.layout)
                [Struct.VInt (PtpHeader.size h); Struct.VInt (PtpHeader.type h);
                 Struct.VInt (PtpHeader.code h);
                 Struct.VInt (PtpHeader.transaction h)]) as (b & Hb & _);
      [fits_all|].
    exists b. split; [exact Hb|].
    destruct (PtpHeader_unpack_pack h b Hb) as [_ U].
    specialize (U []). now rewrite app_nil_r in U.
  - intros c (H1 & H2 & H3 & H4 & H5 & H6 & H7).
    destruct (pack_fields_fits (map snd MscCommandBlockWrapper.layout)
                [Struct.VStr (MscCommandBlockWrapper.signature c);
                 Struct.VInt (MscCommandBlockWrapper.tag c);
                 Struct.VInt (MscCommandBlockWrapper.dataTransferLength c);
                 Struct.VInt (MscCommandBlockWrapper.flags c);
                 Struct.VInt (MscCommandBlockWrapper.lun c);
                 Struct.VInt (MscCommandBlockWrapper.commandLength c);
                 Struct.VStr (MscCommandBlockWrapper.command c)])
      as (b & Hb & _); [fits_all|].
    exists b. split; [exact Hb|].
    destruct (CBW_unpack_pack c b Hb) as [_ U].
    specialize (U []). rewrite app_nil_r in U. rewrite U.
    rewrite !cut_fill_exact by assumption. now destruct c.
  - intros c (H1 & H2 & H3 & H4).
    destruct (pack_fields_fits (map snd MscCommandStatusWrapper.layout)
                [Struct.VStr (MscCommandStatusWrapper.signature c);
                 Struct.VInt (MscCommandStatusWrapper.tag c);
                 Struct.VInt (MscCommandStatusWrapper.dataResidue c);
                 Struct.VInt (MscCommandStatusWrapper.status c)])
      as (b & Hb & _); [fits_all|].
    exists b. split; [exact Hb|].
    destruct (CSW_unpack_pack c b Hb) as [_ U].
    specialize (U []). rewrite app_nil_r in U. rewrite U.
    rewrite !cut_fill_exact by assumption. now destruct c.
Qed.

Lemma wire_roundtrip_witness :
  (PtpHeader.valid a_header /\
   exists b, PtpHeader.pack a_header = Ok b /\
             PtpHeader.unpack b = Ok a_header) /\
  (MscCommandBlockWrapper.valid a_cbw /\
   exists b, MscCommandBlockWrapper.pack a_cbw = Ok b /\
             MscCommandBlockWrapper.unpack b = Ok a_cbw) /\
  (MscCommandStatusWrapper.valid a_csw /\
   exists b, MscCommandStatusWrapper.pack a_csw = Ok b /\
             MscCommandStatusWrapper.unpack b = Ok a_csw).
Proof.
  assert (Hh : PtpHeader.valid a_header)
    by (unfold PtpHeader.valid; simpl; lia).
  assert (Hc : MscCommandBlockWrapper.valid a_cbw)
    by (unfold MscCommandBlockWrapper.valid; simpl; repeat split; lia).
  assert (Hr : MscCommandStatusWrapper.valid a_csw)
    by (unfold MscCommandStatusWrapper.valid; simpl; repeat split; lia).
  split; [|split]; (split; [assumption|]).
  - exact (proj1 wire_roundtrip a_header Hh).
  - exact (proj1 (proj2 wire_roundtrip) a_cbw Hc).
  - exact (proj2 (proj2 wire_roundtrip) a_csw Hr).
Defined.

(** ** Running a method: sequencing, traces *)

Lemma bind_ok {A B} (m : M A) (k : A -> M B) s a s1 t1 :
  m s = (Some (Ok a), s1, t1) ->
  bind m k s = (outcome (k a s1), final (k a s1), t1 ++ trace (k a s1)).
Proof.
  unfold bind, outcome, final, trace. intros ->.
  now destruct (k a s1) as [[r s2] t2].
Qed.

Lemma bind_raise {A B} (m : M A) (k : A -> M B) s e s1 t1 :
  m s = (Some (Raise e), s1, t1) -> bind m k s = (Some (Raise e), s1, t1).
Proof. unfold bind. now intros ->. Qed.

Lemma bind_diverge {A B} (m : M A) (k : A -> M B) s s1 t1 :
  m s = (None, s1, t1) -> bind m k s = (None, s1, t1).
Proof. unfold bind. now intros ->. Qed.

Lemma run_eta {A} (x : option (result A) * driver * list event) :
  x = (outcome x, final x, trace x).
Proof. now destruct x as [[r s] t]. Qed.

Lemma writes_app (t1 t2 : list event) :
  writes (t1 ++ t2) = writes t1 ++ writes t2.
Proof.
  induction t1 as [|[ep d|ep n|ep] t1 IH]; simpl; auto. now rewrite IH.
Qed.

Lemma trace_write (data : bytes) (s : driver) :
  trace (UsbDriver.write data s) = [Write (epOut s) data].
Proof.
  unfold UsbDriver.write, trace.
  now destruct (bulk_out (dev s)) as [|[|n] rest].
Qed.

Lemma trace_read (length : Z) (s : driver) :
  trace (UsbDriver.read length s) = [Read (epIn s) length].
Proof.
  unfold UsbDriver.read, trace.
  now destruct (bulk_in (dev s)) as [|[|d] rest].
Qed.

Lemma trace_bind {A B} (m : M A) (k : A -> M B) (s : driver) :
  trace (bind m k s) =
  trace (m s) ++
  match outcome (m s) with
  | Some (Ok a) => trace (k a (final (m s)))
  | _ => []
  end.
Proof.
  unfold bind, trace, outcome, final.
  destruct (m s) as [[[[a|e]|] s1] t1]; simpl.
  - now destruct (k a s1) as [[r s2] t2].
  - now rewrite app_nil_r.
  - now rewrite app_nil_r.
Qed.

Lemma final_bind {A B} (m : M A) (k : A -> M B) (s : driver) :
  final (bind m k s) =
  match outcome (m s) with
  | Some (Ok a) => final (k a (final (m s)))
  | _ => final (m s)
  end.
Proof.
  unfold bind, final, outcome.
  destruct (m s) as [[[[a|e]|] s1] t1]; cbn [fst snd]; try reflexivity.
  now destruct (k a s1) as [[r s2] t2].
Qed.

Lemma outcome_bind {A B} (m : M A) (k : A -> M B) (s : driver) :
  outcome (bind m k s) =
  match outcome (m s) with
  | Some (Ok a) => outcome (k a (final (m s)))
  | Some (Raise e) => Some (Raise e)
  | None => None
  end.
Proof.
  unfold bind, final, outcome.
  destruct (m s) as [[[[a|e]|] s1] t1]; cbn [fst snd]; try reflexivity.
  now destruct (k a s1) as [[r s2] t2].
Qed.

(** ** The command block on the wire *)

Lemma CBW_pack_bytes (c : MscCommandBlockWrapper.tuple) :
  0 <= MscCommandBlockWrapper.tag c < 2 ^ 32 ->
  0 <= MscCommandBlockWrapper.dataTransferLength c < 2 ^ 32 ->
  0 <= MscCommandBlockWrapper.flags c < 2 ^ 8 ->
  0 <= MscCommandBlockWrapper.lun c < 2 ^ 8 ->
  0 <= MscCommandBlockWrapper.commandLength c < 2 ^ 8 ->
  MscCommandBlockWrapper.pack c =
  Ok ((firstn 4 (MscCommandBlockWrapper.signature c) ++
       repeat x00 (4 - List.length (MscCommandBlockWrapper.signature c))) ++
      Struct.dumple 4 (MscCommandBlockWrapper.tag c) ++
      Struct.dumple 4 (MscCommandBlockWrapper.dataTransferLength c) ++
      Struct.dumple 1 (MscCommandBlockWrapper.flags c) ++
      Struct.dumple 1 (MscCommandBlockWrapper.lun c) ++
      Struct.dumple 1 (MscCommandBlockWrapper.commandLength c) ++
      (firstn 16 (MscCommandBlockWrapper.command c) ++
       repeat x00 (16 - List.length (MscCommandBlockWrapper.command c))) ++
      []).
Proof.
  intros Ht Hd Hf Hl Hc.
  unfold MscCommandBlockWrapper.pack, Struct.pack.
  cbn [map snd MscCommandBlockWrapper.layout Struct.pack_fields
       Struct.pack_field Struct.width].
  rewrite !(proj2 (in_range_true _ _)) by (cbn; lia).
  reflexivity.
Qed.

(** C7. For every SCSI command of 1 to 16 bytes (and a direction, data size,
    tag and lun that fit their fields), the command phase makes one write, of
    exactly 31 bytes: "USBC", the tag and the data length as four
    little-endian bytes each, one byte each for flags, lun and the command's
    length, then the command followed by zeros up to 16 bytes. *)
Theorem cbw_on_the_wire (s : driver) (direction : Z) (command : bytes)
    (dataSize tag lun : Z) :
  (1 <= List.length command <= 16)%nat ->
  0 <= direction < 2 ^ 8 ->
  0 <= dataSize < 2 ^ 32 ->
  0 <= tag < 2 ^ 32 ->
  0 <= lun < 2 ^ 8 ->
  exists w,
    trace (MscDriver._writeCommand direction command dataSize tag lun s) =
      [Write (epOut s) w] /\
    List.length w = 31%nat /\
    w = MscDriver.USBC ++ Struct.dumple 4 tag ++ Struct.dumple 4 dataSize ++
        Struct.dumple 1 direction ++ Struct.dumple 1 lun ++
        Struct.dumple 1 (len command) ++
        command ++ repeat x00 (16 - List.length command) /\
    MscCommandBlockWrapper.unpack w =
      Ok {| MscCommandBlockWrapper.signature := MscDriver.USBC;
            MscCommandBlockWrapper.tag := tag;
            MscCommandBlockWrapper.dataTransferLength := dataSize;
            MscCommandBlockWrapper.flags := direction;
            MscCommandBlockWrapper.lun := lun;
            MscCommandBlockWrapper.commandLength := len command;
            MscCommandBlockWrapper.command :=
              command ++ repeat x00 (16 - List.length command) |}.
Proof.
  intros Hc Hd Hs Ht Hl.
  set (c := {| MscCommandBlockWrapper.signature := MscDriver.USBC;
               MscCommandBlockWrapper.tag := tag;
               MscCommandBlockWrapper.dataTransferLength := dataSize;
               MscCommandBlockWrapper.flags := direction;
               MscCommandBlockWrapper.lun := lun;
               MscCommandBlockWrapper.commandLength := len command;
               MscCommandBlockWrapper.command := ljust0 command 16 |}).
  assert (Hlen : List.length (ljust0 command 16) = 16%nat)
    by (unfold ljust0; rewrite length_app, repeat_length; lia).
  assert (Hn : 0 <= MscCommandBlockWrapper.commandLength c < 2 ^ 8)
    by (subst c; cbn; unfold len; lia).
  assert (Hp := CBW_pack_bytes c Ht Hs Hd Hl Hn).
  cbn [MscCommandBlockWrapper.signature MscCommandBlockWrapper.tag
       MscCommandBlockWrapper.dataTransferLength MscCommandBlockWrapper.flags
       MscCommandBlockWrapper.lun MscCommandBlockWrapper.commandLength
       MscCommandBlockWrapper.command c] in Hp.
  rewrite (cut_fill_exact 16 _ Hlen) in Hp.
  change (firstn 4 MscDriver.USBC ++
          repeat x00 (4 - List.length MscDriver.USBC)) with MscDriver.USBC in Hp.
  rewrite app_nil_r in Hp. unfold ljust0 in Hp.
  eexists. split; [|split; [|split; [reflexivity|]]].
  - unfold MscDriver._writeCommand. fold c. rewrite trace_bind.
    unfold ljust0 in c. subst c. rewrite Hp.
    cbn [lift outcome trace final fst snd app].
    rewrite trace_bind, trace_write.
    now destruct (outcome (UsbDriver.write _ s)) as [[n|e]|].
  - rewrite !length_app, !length_dumple, repeat_length.
    change (List.length MscDriver.USBC) with 4%nat. lia.
  - destruct (CBW_unpack_pack _ _ Hp) as [_ U]. specialize (U []).
    rewrite app_nil_r in U. rewrite U. subst c.
    cbn [MscCommandBlockWrapper.signature MscCommandBlockWrapper.tag
         MscCommandBlockWrapper.dataTransferLength
         MscCommandBlockWrapper.flags MscCommandBlockWrapper.lun
         MscCommandBlockWrapper.commandLength MscCommandBlockWrapper.command].
    rewrite (cut_fill_exact 16 _ Hlen). reflexivity.
Qed.

Lemma cbw_on_the_wire_witness :
  exists w,
    trace (MscDriver._writeCommand 0x80 request_sense_bytes 18 0 0
             (fresh {| bulk_in := []; bulk_out := [Transfer 31] |})) =
      [Write 0x02 w] /\
    List.length w = 31%nat /\
    w = MscDriver.USBC ++ Struct.dumple 4 0 ++ Struct.dumple 4 18 ++
        Struct.dumple 1 0x80 ++ Struct.dumple 1 0 ++
        Struct.dumple 1 (len request_sense_bytes) ++
        request_sense_bytes ++
        repeat x00 (16 - List.length request_sense_bytes) /\
    MscCommandBlockWrapper.unpack w =
      Ok {| MscCommandBlockWrapper.signature := MscDriver.USBC;
            MscCommandBlockWrapper.tag := 0;
            MscCommandBlockWrapper.dataTransferLength := 18;
            MscCommandBlockWrapper.flags := 0x80;
            MscCommandBlockWrapper.lun := 0;
            MscCommandBlockWrapper.commandLength := len request_sense_bytes;
            MscCommandBlockWrapper.command :=
              request_sense_bytes ++
              repeat x00 (16 - List.length request_sense_bytes) |}.
Proof.
  apply (cbw_on_the_wire
           (fresh {| bulk_in := []; bulk_out := [Transfer 31] |})
           0x80 request_sense_bytes 18 0 0); simpl; lia.
Defined.

(** ** The device's replies *)

Lemma read_transfer (length : Z) (s : driver) d rest :
  bulk_in (dev s) = Transfer d :: rest ->
  UsbDriver.read length s =
  (Some (Ok d), read_done s rest, [Read (epIn s) length]).
Proof. unfold UsbDriver.read, read_done. now intros ->. Qed.

Lemma read_stall (length : Z) (s : driver) rest :
  bulk_in (dev s) = USBErr :: rest ->
  UsbDriver.read length s =
  (Some (Raise USBError), read_done s rest, [Read (epIn s) length]).
Proof. unfold UsbDriver.read, read_done. now intros ->. Qed.

Lemma read_timeout (length : Z) (s : driver) :
  bulk_in (dev s) = [] ->
  UsbDriver.read length s =
  (Some (Raise USBError), s, [Read (epIn s) length]).
Proof. unfold UsbDriver.read. now intros ->. Qed.

Lemma write_transfer (data : bytes) (s : driver) n rest :
  bulk_out (dev s) = Transfer n :: rest ->
  UsbDriver.write data s =
  (Some (Ok n), write_done s rest, [Write (epOut s) data]).
Proof. unfold UsbDriver.write, write_done. now intros ->. Qed.

Lemma write_stall (data : bytes) (s : driver) rest :
  bulk_out (dev s) = USBErr :: rest ->
  UsbDriver.write data s =
  (Some (Raise USBError), write_done s rest, [Write (epOut s) data]).
Proof. unfold UsbDriver.write, write_done. now intros ->. Qed.

Lemma write_timeout (data : bytes) (s : driver) :
  bulk_out (dev s) = [] ->
  UsbDriver.write data s =
  (Some (Raise USBError), s, [Write (epOut s) data]).
Proof. unfold UsbDriver.write. now intros ->. Qed.

Lemma bind_lift_ok {A B} (a : A) (k : A -> M B) (s : driver) :
  bind (lift (Ok a)) k s = k a s.
Proof. unfold bind, lift. now destruct (k a s) as [[r s2] t2]. Qed.

Lemma bind_lift_raise {A B} (e : exn) (k : A -> M B) (s : driver) :
  bind (lift (Raise e)) k s = (Some (Raise e), s, []).
Proof. reflexivity. Qed.

Lemma bind_ret {A B} (a : A) (k : A -> M B) (s : driver) :
  bind (ret a) k s = k a s.
Proof. apply (bind_lift_ok a k s). Qed.

Section MscFacts.
Context {SD : SenseData}.

Lemma Sense_eqb_refl (a : Sense) : Sense_eqb a a = true.
Proof. unfold Sense_eqb. now destruct (Sense_eq_dec a a). Qed.

Lemma Sense_eqb_true (a b : Sense) : Sense_eqb a b = true -> a = b.
Proof. unfold Sense_eqb. now destruct (Sense_eq_dec a b). Qed.

Lemma Sense_eqb_false (a b : Sense) : Sense_eqb a b = false -> a <> b.
Proof. unfold Sense_eqb. now destruct (Sense_eq_dec a b). Qed.

(** One status read, from a device whose next reply decodes as [r]. *)
Lemma readResponse_run depth failOnError s d rest r :
  bulk_in (dev s) = Transfer d :: rest ->
  MscCommandStatusWrapper.unpack d = Ok r ->
  MscDriver._readResponse (S depth) failOnError s =
  if negb (bytes_eqb (MscCommandStatusWrapper.signature r) MscDriver.USBS)
  then (Some (Raise (Exception "Wrong status signature")),
        read_done s rest, [Read (epIn s) 13])
  else if negb (MscCommandStatusWrapper.status r =? 0)
  then
    if failOnError
    then (Some (Raise (Exception "Mass storage error")),
          read_done s rest, [Read (epIn s) 13])
    else
      let x := MscDriver.requestSense depth (read_done s rest) in
      (outcome x, final x, Read (epIn s) 13 :: trace x)
  else (Some (Ok MSC_SENSE_OK), read_done s rest, [Read (epIn s) 13]).
Proof.
  intros Hin Hr. cbn [MscDriver._readResponse].
  rewrite (bind_ok _ _ _ _ _ _ (read_transfer _ s d rest Hin)).
  rewrite Hr, bind_lift_ok.
  destruct (negb (bytes_eqb _ _)); [reflexivity|].
  destruct (negb (_ =? 0)); [|reflexivity].
  destruct failOnError; reflexivity.
Qed.

End MscFacts.

(** ** What a method writes *)

Lemma emits_bind {A B} P (m : M A) (k : A -> M B) :
  emits P m -> (forall a, emits P (k a)) -> emits P (bind m k).
Proof.
  intros Hm Hk s. rewrite trace_bind, writes_app. apply Forall_app. split.
  - apply Hm.
  - destruct (outcome (m s)) as [[a|e]|]; [apply Hk | constructor ..].
Qed.

Lemma emits_try {A} P (m h : M A) :
  emits P m -> emits P h -> emits P (try_USBError m h).
Proof.
  intros Hm Hh s. unfold try_USBError. specialize (Hm s).
  destruct (m s) as [[[[a|e]|] s1] t1]; try exact Hm.
  destruct e; try exact Hm.
  specialize (Hh s1). destruct (h s1) as [[r s2] t2].
  unfold trace in *. simpl in *. rewrite writes_app.
  apply Forall_app. now split.
Qed.

Lemma emits_lift {A} P (r : result A) : emits P (lift r).
Proof. intro s. constructor. Qed.

Lemma emits_ret {A} P (a : A) : emits P (ret a).
Proof. intro s. constructor. Qed.

Lemma emits_raise {A} P (e : exn) : emits P (@raise A e).
Proof. intro s. constructor. Qed.

Lemma emits_diverge {A} P : emits P (@diverge A).
Proof. intro s. constructor. Qed.

Lemma emits_read P (length : Z) : emits P (UsbDriver.read length).
Proof. intro s. rewrite trace_read. constructor. Qed.

Lemma emits_clear_halt P (ep : driver -> Z) :
  emits P (UsbDriver.clear_halt ep).
Proof. intro s. constructor. Qed.

Lemma emits_write (P : bytes -> Prop) (data : bytes) :
  P data -> emits P (UsbDriver.write data).
Proof. intros H s. rewrite trace_write. repeat constructor. exact H. Qed.

Ltac emit :=
  repeat
    match goal with
    | |- emits _ (ret _) => apply emits_ret
    | |- emits _ (raise _) => apply emits_raise
    | |- emits _ (lift _) => apply emits_lift
    | |- emits _ diverge => apply emits_diverge
    | |- emits _ (UsbDriver.read _) => apply emits_read
    | |- emits _ (UsbDriver.clear_halt _) => apply emits_clear_halt
    | |- emits _ (try_USBError _ _) => apply emits_try
    | |- emits _ (bind _ _) => apply emits_bind; [|intro]
    | |- emits _ (if ?b then _ else _) => destruct b
    | |- emits _ (let '(_, _) := ?p in _) => destruct p
    end.

(** The command phase writes nothing but a CBW, which carries the tag and
    the lun it was given. *)
Lemma writeCommand_run direction command dataSize tag lun s :
  MscDriver._writeCommand direction command dataSize tag lun s =
  match MscCommandBlockWrapper.pack
          {| MscCommandBlockWrapper.signature := MscDriver.USBC;
             MscCommandBlockWrapper.tag := tag;
             MscCommandBlockWrapper.dataTransferLength := dataSize;
             MscCommandBlockWrapper.flags := direction;
             MscCommandBlockWrapper.lun := lun;
             MscCommandBlockWrapper.commandLength := len command;
             MscCommandBlockWrapper.command := ljust0 command 16 |} with
  | Raise e => (Some (Raise e), s, [])
  | Ok w =>
      match bulk_out (dev s) with
      | Transfer n :: rest =>
          (Some (Ok tt), write_done s rest, [Write (epOut s) w])
      | USBErr :: rest =>
          (Some (Raise USBError), write_done s rest, [Write (epOut s) w])
      | [] => (Some (Raise USBError), s, [Write (epOut s) w])
      end
  end.
Proof.
  unfold MscDriver._writeCommand.
  destruct (MscCommandBlockWrapper.pack _) as [w|e]; [|reflexivity].
  rewrite bind_lift_ok. unfold bind, UsbDriver.write, write_done.
  now destruct (bulk_out (dev s)) as [|[|n] rest].
Qed.

Lemma emits_writeCommand direction command dataSize :
  emits cbw_tag0_lun0 (MscDriver._writeCommand direction command dataSize 0 0).
Proof.
  intro s. rewrite writeCommand_run.
  destruct (MscCommandBlockWrapper.pack _) as [w|e] eqn:Hp; [|constructor].
  assert (Hw : cbw_tag0_lun0 w).
  { destruct (CBW_unpack_pack _ _ Hp) as [_ U]. specialize (U []).
    rewrite app_nil_r in U. eexists. split; [exact U|]. now cbn. }
  destruct (bulk_out (dev s)) as [|[|n] rest]; repeat constructor; exact Hw.
Qed.

Section MscWrites.
Context {SD : SenseData}.

Lemma emits_sendReadCommand_ (rr : bool -> M Sense) command size f :
  (forall b, emits cbw_tag0_lun0 (rr b)) ->
  emits cbw_tag0_lun0 (MscDriver.sendReadCommand_ rr command size f).
Proof.
  intro Hrr. unfold MscDriver.sendReadCommand_.
  apply emits_bind; [apply emits_writeCommand | intro].
  emit. apply Hrr.
Qed.

Lemma emits_readResponse depth :
  forall f, emits cbw_tag0_lun0 (MscDriver._readResponse depth f).
Proof.
  induction depth as [|depth IH]; intro f; cbn [MscDriver._readResponse].
  - apply emits_diverge.
  - emit. unfold MscDriver.requestSense_. emit.
    now apply emits_sendReadCommand_.
Qed.

Lemma write_or_stall_writes (data : bytes) (s : driver) :
  writes
    (trace
       (try_USBError
          (_ <- UsbDriver.write data ;; ret false)
          (UsbDriver.clear_halt epOut ;; ret true) s)) = [data].
Proof.
  unfold try_USBError, bind, UsbDriver.write, UsbDriver.clear_halt, ret.
  now destruct (bulk_out (dev s)) as [|[|n] rest].
Qed.

(** The writes of sendWriteCommand: none if the CBW cannot be packed, the
    CBW alone if its write fails, and otherwise the CBW, the data and what
    the status phase writes. *)
Lemma sendWriteCommand_writes depth command data failOnError s :
  let ws :=
    writes (trace (MscDriver.sendWriteCommand depth command data
                     failOnError s)) in
  ws = [] \/
  (exists w, cbw_tag0_lun0 w /\ ws = [w]) \/
  (exists w ws',
      cbw_tag0_lun0 w /\ Forall cbw_tag0_lun0 ws' /\ ws = w :: data :: ws').
Proof.
  unfold MscDriver.sendWriteCommand. rewrite trace_bind, writes_app.
  pose proof (emits_writeCommand MscDriver.DIRECTION_WRITE command
                (len data) s) as Hc.
  rewrite writeCommand_run in *.
  destruct (MscCommandBlockWrapper.pack _) as [w|e]; [|now left].
  right.
  destruct (bulk_out (dev s)) as [|[|n] out'] eqn:Hout;
    cbn [outcome trace final fst snd writes app] in *;
    try (left; exists w; split; [now inversion Hc | reflexivity]).
  right. rewrite trace_bind, writes_app, write_or_stall_writes.
  eexists w, _. split; [now inversion Hc|]. split; [|reflexivity].
  destruct (outcome (try_USBError _ _ _)) as [[stalled|e]|];
    [|constructor ..].
  assert (Hrest :
            emits cbw_tag0_lun0
              (sense <- MscDriver._readResponse depth failOnError ;;
               if stalled && Sense_eqb sense MSC_SENSE_OK
               then raise (Exception "Mass storage write error")
               else ret sense))
    by (emit; apply emits_readResponse).
  apply Hrest.
Qed.

(** C9. Whatever the arguments and the device, every CBW that sendCommand,
    sendReadCommand and sendWriteCommand write decodes with tag 0 and lun 0:
    every write of the first two is such a CBW, and so is every write of
    sendWriteCommand but the second one, which is the data it was given. *)
Theorem msc_cbw_tag_and_lun_are_zero (depth : nat) (command data : bytes)
    (size : Z) (failOnError : bool) (s : driver) :
  Forall cbw_tag0_lun0
    (writes (trace (MscDriver.sendCommand depth command failOnError s))) /\
  Forall cbw_tag0_lun0
    (writes (trace (MscDriver.sendReadCommand depth command size
                      failOnError s))) /\
  Forall cbw_tag0_lun0
    (without_payload
       (writes (trace (MscDriver.sendWriteCommand depth command data
                         failOnError s)))) /\
  (forall d,
      nth_error
        (writes (trace (MscDriver.sendWriteCommand depth command data
                          failOnError s))) 1 = Some d ->
      d = data).
Proof.
  split; [|split].
  - unfold MscDriver.sendCommand.
    apply emits_bind; [apply emits_writeCommand | intro].
    apply emits_readResponse.
  - unfold MscDriver.sendReadCommand.
    apply emits_sendReadCommand_, emits_readResponse.
  - destruct (sendWriteCommand_writes depth command data failOnError s)
      as [-> | [(w & Hw & ->) | (w & ws' & Hw & Hws & ->)]]; cbn.
    + split; [constructor | discriminate].
    + split; [now repeat constructor | discriminate].
    + split; [now constructor | congruence].
Qed.

End MscWrites.

(** ** The data phase and the status phase *)

Section MscRuns.
Context {SD : SenseData}.

Lemma try_ok {A} (m h : M A) s a s1 t1 :
  m s = (Some (Ok a), s1, t1) -> try_USBError m h s = (Some (Ok a), s1, t1).
Proof. unfold try_USBError. now intros ->. Qed.

Lemma try_USBError_caught {A} (m h : M A) s s1 t1 :
  m s = (Some (Raise USBError), s1, t1) ->
  try_USBError m h s = (outcome (h s1), final (h s1), t1 ++ trace (h s1)).
Proof.
  unfold try_USBError, outcome, final, trace. intros ->.
  now destruct (h s1) as [[r s2] t2].
Qed.

Ltac status_cases rr f :=
  match goal with
  | |- context [rr f ?st] =>
      unfold bind, outcome, final, trace, with_data, after_stall;
      destruct (rr f st) as [[[[sense|e]|] s2] t2]; cbn [fst snd andb];
      try destruct (Sense_eqb sense MSC_SENSE_OK);
      cbn; rewrite ?app_nil_r; reflexivity
  end.

(** sendReadCommand once its CBW has been written. *)
Lemma sendReadCommand_after_cbw (rr : bool -> M Sense) command size f s s1 t1 :
  MscDriver._writeCommand MscDriver.DIRECTION_READ command size 0 0 s =
    (Some (Ok tt), s1, t1) ->
  MscDriver.sendReadCommand_ rr command size f s =
  match bulk_in (dev s1) with
  | Transfer d :: in' =>
      let x := rr f (read_done s1 in') in
      (with_data (fun sense => (sense, Some d)) (outcome x), final x,
       t1 ++ Read (epIn s1) size :: trace x)
  | USBErr :: in' =>
      let x := rr f (read_done s1 in') in
      (after_stall "Mass storage read error" (fun sense => (sense, None))
         (outcome x),
       final x,
       t1 ++ Read (epIn s1) size :: ClearHalt (epIn s1) :: trace x)
  | [] =>
      let x := rr f s1 in
      (after_stall "Mass storage read error" (fun sense => (sense, None))
         (outcome x),
       final x,
       t1 ++ Read (epIn s1) size :: ClearHalt (epIn s1) :: trace x)
  end.
Proof.
  intro Hc. unfold MscDriver.sendReadCommand_.
  rewrite (bind_ok _ _ _ _ _ _ Hc). cbv zeta.
  destruct (bulk_in (dev s1)) as [|[|d] in'] eqn:Hin.
  - rewrite (bind_ok _ _ s1 (true, None) s1
               [Read (epIn s1) size; ClearHalt (epIn s1)]).
    + status_cases rr f.
    + erewrite try_USBError_caught
        by (apply bind_raise, read_timeout, Hin).
      reflexivity.
  - rewrite (bind_ok _ _ s1 (true, None) (read_done s1 in')
               [Read (epIn s1) size; ClearHalt (epIn s1)]).
    + status_cases rr f.
    + erewrite try_USBError_caught
        by (apply bind_raise, read_stall, Hin).
      reflexivity.
  - rewrite (bind_ok _ _ s1 (false, Some d) (read_done s1 in')
               [Read (epIn s1) size]).
    + status_cases rr f.
    + apply try_ok. erewrite bind_ok by (apply read_transfer, Hin).
      reflexivity.
Qed.

(** sendWriteCommand once its CBW has been written. *)
Lemma sendWriteCommand_after_cbw depth command data f s s1 t1 :
  MscDriver._writeCommand MscDriver.DIRECTION_WRITE command (len data) 0 0 s =
    (Some (Ok tt), s1, t1) ->
  MscDriver.sendWriteCommand depth command data f s =
  match bulk_out (dev s1) with
  | Transfer n :: out' =>
      let x := MscDriver._readResponse depth f (write_done s1 out') in
      (with_data (fun sense => sense) (outcome x), final x,
       t1 ++ Write (epOut s1) data :: trace x)
  | USBErr :: out' =>
      let x := MscDriver._readResponse depth f (write_done s1 out') in
      (after_stall "Mass storage write error" (fun sense => sense)
         (outcome x),
       final x,
       t1 ++ Write (epOut s1) data :: ClearHalt (epOut s1) :: trace x)
  | [] =>
      let x := MscDriver._readResponse depth f s1 in
      (after_stall "Mass storage write error" (fun sense => sense)
         (outcome x),
       final x,
       t1 ++ Write (epOut s1) data :: ClearHalt (epOut s1) :: trace x)
  end.
Proof.
  intro Hc. unfold MscDriver.sendWriteCommand.
  rewrite (bind_ok _ _ _ _ _ _ Hc). cbv zeta.
  set (rr := MscDriver._readResponse depth).
  destruct (bulk_out (dev s1)) as [|[|n] out'] eqn:Hout.
  - rewrite (bind_ok _ _ s1 true s1
               [Write (epOut s1) data; ClearHalt (epOut s1)]).
    + status_cases rr f.
    + erewrite try_USBError_caught
        by (apply bind_raise, write_timeout, Hout).
      reflexivity.
  - rewrite (bind_ok _ _ s1 true (write_done s1 out')
               [Write (epOut s1) data; ClearHalt (epOut s1)]).
    + status_cases rr f.
    + erewrite try_USBError_caught
        by (apply bind_raise, write_stall, Hout).
      reflexivity.
  - rewrite (bind_ok _ _ s1 false (write_done s1 out')
               [Write (epOut s1) data]).
    + status_cases rr f.
    + apply try_ok. erewrite bind_ok by (apply write_transfer, Hout).
      reflexivity.
Qed.

Lemma REQUEST_SENSE_COMMAND_18 :
  MscDriver.REQUEST_SENSE_COMMAND 18 = Ok request_sense_bytes.
Proof. reflexivity. Qed.

Lemma pack_request_sense :
  MscCommandBlockWrapper.pack
    {| MscCommandBlockWrapper.signature := MscDriver.USBC;
       MscCommandBlockWrapper.tag := 0;
       MscCommandBlockWrapper.dataTransferLength := 18;
       MscCommandBlockWrapper.flags := MscDriver.DIRECTION_READ;
       MscCommandBlockWrapper.lun := 0;
       MscCommandBlockWrapper.commandLength := len request_sense_bytes;
       MscCommandBlockWrapper.command := ljust0 request_sense_bytes 16 |} =
  Ok request_sense_cbw.
Proof. reflexivity. Qed.

(** requestSense is one sendReadCommand of REQUEST SENSE, with failOnError
    set, whose data is then parsed. *)
Lemma requestSense_run depth s :
  MscDriver.requestSense depth s =
  let x := MscDriver.sendReadCommand_ (MscDriver._readResponse depth)
             request_sense_bytes 18 true s in
  (match outcome x with
   | Some (Ok (_, data)) => Some (parseMscSense data)
   | Some (Raise e) => Some (Raise e)
   | None => None
   end, final x, trace x).
Proof.
  unfold MscDriver.requestSense, MscDriver.requestSense_. cbv zeta.
  rewrite REQUEST_SENSE_COMMAND_18, bind_lift_ok.
  unfold bind, outcome, final, trace, lift.
  destruct (MscDriver.sendReadCommand_ _ _ _ _ s)
    as [[[[[sense data]|e]|] s2] t2]; cbn [fst snd];
    rewrite ?app_nil_r; reflexivity.
Qed.

(** A status read with failOnError set writes nothing, and the only value
    it can return is [MSC_SENSE_OK]. *)
Lemma readResponse_strict_silent depth s :
  writes (trace (MscDriver._readResponse depth true s)) = [].
Proof.
  destruct depth as [|depth]; [reflexivity|]. cbn [MscDriver._readResponse].
  rewrite trace_bind, trace_read.
  destruct (outcome (UsbDriver.read _ s)) as [[d|e]|]; try reflexivity.
  destruct (MscCommandStatusWrapper.unpack d) as [r|e]; [|reflexivity].
  rewrite bind_lift_ok.
  destruct (negb (bytes_eqb _ _)); [reflexivity|].
  destruct (negb (_ =? 0)); reflexivity.
Qed.

Lemma readResponse_strict_ok depth s sense :
  outcome (MscDriver._readResponse depth true s) = Some (Ok sense) ->
  sense = MSC_SENSE_OK.
Proof.
  destruct depth as [|depth]; [discriminate|]. cbn [MscDriver._readResponse].
  destruct (UsbDriver.read 13 s) as [[[[d|e]|] s1] t1] eqn:Hr.
  - change (Struct.size MscCommandStatusWrapper.layout) with 13.
    rewrite (bind_ok _ _ _ _ _ _ Hr).
    destruct (MscCommandStatusWrapper.unpack d) as [r|e]; [|discriminate].
    rewrite bind_lift_ok.
    destruct (negb (bytes_eqb _ _)); [discriminate|].
    destruct (negb (_ =? 0)); [discriminate|].
    cbn. congruence.
  - change (Struct.size MscCommandStatusWrapper.layout) with 13.
    rewrite (bind_raise _ _ _ _ _ _ Hr). discriminate.
  - change (Struct.size MscCommandStatusWrapper.layout) with 13.
    rewrite (bind_diverge _ _ _ _ _ Hr). discriminate.
Qed.

Lemma readResponse_trace_head depth f s :
  exists t,
    trace (MscDriver._readResponse (S depth) f s) = Read (epIn s) 13 :: t.
Proof.
  cbn [MscDriver._readResponse]. rewrite trace_bind, trace_read.
  eexists. reflexivity.
Qed.

(** Two levels of status reads are all that a call can use: the status
    read inside REQUEST SENSE never asks for sense data itself. *)
Lemma readResponse_strict_depth depth s :
  MscDriver._readResponse (S depth) true s = MscDriver._readResponse 1 true s.
Proof. reflexivity. Qed.

Lemma readResponse_depth_enough depth f s :
  MscDriver._readResponse (S (S depth)) f s = MscDriver._readResponse 2 f s.
Proof.
  destruct f; [reflexivity|].
  change (MscDriver._readResponse (S (S depth)) false)
    with (data <- UsbDriver.read 13 ;;
          response <- lift (MscCommandStatusWrapper.unpack data) ;;
          if negb (bytes_eqb (MscCommandStatusWrapper.signature response)
                     MscDriver.USBS)
          then raise (Exception "Wrong status signature")
          else if negb (MscCommandStatusWrapper.status response =? 0)
          then MscDriver.requestSense_ (MscDriver._readResponse (S depth))
          else ret MSC_SENSE_OK).
  reflexivity.
Qed.

End MscRuns.

(** ** The status phase *)

Lemma bytes_eqb_true (a b : bytes) : bytes_eqb a b = true <-> a = b.
Proof.
  unfold bytes_eqb. destruct (list_eq_dec _ a b); split; congruence.
Qed.

Lemma bytes_eqb_false (a b : bytes) : bytes_eqb a b = false <-> a <> b.
Proof.
  unfold bytes_eqb. destruct (list_eq_dec _ a b); split; congruence.
Qed.

Lemma writeCommand_ok direction command dataSize tag lun s w n out' :
  MscCommandBlockWrapper.pack
    {| MscCommandBlockWrapper.signature := MscDriver.USBC;
       MscCommandBlockWrapper.tag := tag;
       MscCommandBlockWrapper.dataTransferLength := dataSize;
       MscCommandBlockWrapper.flags := direction;
       MscCommandBlockWrapper.lun := lun;
       MscCommandBlockWrapper.commandLength := len command;
       MscCommandBlockWrapper.command := ljust0 command 16 |} = Ok w ->
  bulk_out (dev s) = Transfer n :: out' ->
  MscDriver._writeCommand direction command dataSize tag lun s =
  (Some (Ok tt), write_done s out', [Write (epOut s) w]).
Proof. intros Hp Ho. now rewrite writeCommand_run, Hp, Ho. Qed.

(** Packing the CBW of a public operation succeeds as soon as the command
    is shorter than 256 bytes and the data size fits 32 bits. *)
Lemma pack_public_cbw direction command dataSize :
  0 <= direction < 2 ^ 8 -> len command < 2 ^ 8 -> 0 <= dataSize < 2 ^ 32 ->
  exists w,
    MscCommandBlockWrapper.pack
      {| MscCommandBlockWrapper.signature := MscDriver.USBC;
         MscCommandBlockWrapper.tag := 0;
         MscCommandBlockWrapper.dataTransferLength := dataSize;
         MscCommandBlockWrapper.flags := direction;
         MscCommandBlockWrapper.lun := 0;
         MscCommandBlockWrapper.commandLength := len command;
         MscCommandBlockWrapper.command := ljust0 command 16 |} = Ok w.
Proof.
  intros Hd Hc Hs. eexists. apply CBW_pack_bytes; cbn; unfold len in *; lia.
Qed.

Section MscStatus.
Context {SD : SenseData}.

Lemma requestSense_writes depth s :
  writes (trace (MscDriver.requestSense depth s)) = [request_sense_cbw].
Proof.
  rewrite requestSense_run. cbv zeta. unfold trace at 1. cbn [snd].
  pose proof (writeCommand_run MscDriver.DIRECTION_READ request_sense_bytes
                18 0 0 s) as Hw.
  rewrite pack_request_sense in Hw.
  destruct (bulk_out (dev s)) as [|[|n] out'] eqn:Hout.
  - unfold MscDriver.sendReadCommand_. now rewrite (bind_raise _ _ _ _ _ _ Hw).
  - unfold MscDriver.sendReadCommand_. now rewrite (bind_raise _ _ _ _ _ _ Hw).
  - rewrite (sendReadCommand_after_cbw _ _ _ _ _ _ _ Hw).
    destruct (bulk_in (dev (write_done s out'))) as [|[|d] in'];
      cbv zeta; unfold trace at 1; cbn [snd app writes];
      now rewrite readResponse_strict_silent.
Qed.

(** The REQUEST SENSE round trip on a device that accepts the CBW, sends
    the sense data and then a status block [r2]: with status 0 the parsed
    data comes back, with another status the call fails. *)
Lemma requestSense_round_trip depth s n out' sense_data c2 in' r2 :
  bulk_out (dev s) = Transfer n :: out' ->
  bulk_in (dev s) = Transfer sense_data :: Transfer c2 :: in' ->
  MscCommandStatusWrapper.unpack c2 = Ok r2 ->
  MscCommandStatusWrapper.signature r2 = MscDriver.USBS ->
  outcome (MscDriver.requestSense (S depth) s) =
  if MscCommandStatusWrapper.status r2 =? 0
  then Some (parseMscSense (Some sense_data))
  else Some (Raise (Exception "Mass storage error")).
Proof.
  intros Hout Hin Hr2 Hsig. rewrite requestSense_run. cbv zeta.
  unfold outcome at 1. cbn [fst].
  rewrite (sendReadCommand_after_cbw _ _ _ _ _ _ _
             (writeCommand_ok _ _ _ _ _ s _ _ _ pack_request_sense Hout)).
  change (bulk_in (dev (write_done s out'))) with (bulk_in (dev s)).
  rewrite Hin. cbv zeta.
  erewrite readResponse_run by (try reflexivity; exact Hr2).
  rewrite Hsig.
  replace (bytes_eqb MscDriver.USBS MscDriver.USBS) with true
    by (symmetry; now apply bytes_eqb_true).
  cbn [negb]. destruct (MscCommandStatusWrapper.status r2 =? 0); reflexivity.
Qed.

(** C3. A status read whose CSW decodes as [r]: a signature other than
    "USBS" fails with 'Wrong status signature'; status 0 gives
    [MSC_SENSE_OK] after the one read and no write; a nonzero status with
    failOnError fails with 'Mass storage error', again with no write; a
    nonzero status without failOnError writes exactly one CBW, that of
    REQUEST SENSE for 18 bytes, and on a device that answers it returns the
    parsed sense data when the inner status is 0 and fails with 'Mass
    storage error' when it is not (the inner status read has failOnError
    set). *)
Theorem msc_status_phase (depth : nat) (failOnError : bool) (s : driver)
    (d : bytes) (rest : list (reply bytes))
    (r : MscCommandStatusWrapper.tuple) :
  bulk_in (dev s) = Transfer d :: rest ->
  MscCommandStatusWrapper.unpack d = Ok r ->
  let run := MscDriver._readResponse (S (S depth)) failOnError s in
  (MscCommandStatusWrapper.signature r <> MscDriver.USBS ->
   outcome run = Some (Raise (Exception "Wrong status signature"))) /\
  (MscCommandStatusWrapper.signature r = MscDriver.USBS ->
   MscCommandStatusWrapper.status r = 0 ->
   outcome run = Some (Ok MSC_SENSE_OK) /\
   trace run = [Read (epIn s) 13]) /\
  (MscCommandStatusWrapper.signature r = MscDriver.USBS ->
   MscCommandStatusWrapper.status r <> 0 ->
   failOnError = true ->
   outcome run = Some (Raise (Exception "Mass storage error")) /\
   trace run = [Read (epIn s) 13]) /\
  (MscCommandStatusWrapper.signature r = MscDriver.USBS ->
   MscCommandStatusWrapper.status r <> 0 ->
   failOnError = false ->
   writes (trace run) = [request_sense_cbw] /\
   MscCommandBlockWrapper.unpack request_sense_cbw =
     Ok {| MscCommandBlockWrapper.signature := MscDriver.USBC;
           MscCommandBlockWrapper.tag := 0;
           MscCommandBlockWrapper.dataTransferLength := 18;
           MscCommandBlockWrapper.flags := MscDriver.DIRECTION_READ;
           MscCommandBlockWrapper.lun := 0;
           MscCommandBlockWrapper.commandLength := 6;
           MscCommandBlockWrapper.command :=
             [x03; x00; x00; x00; x12; x00] ++ repeat x00 10 |} /\
   forall n out' sense_data c2 in' r2,
     bulk_out (dev s) = Transfer n :: out' ->
     rest = Transfer sense_data :: Transfer c2 :: in' ->
     MscCommandStatusWrapper.unpack c2 = Ok r2 ->
     MscCommandStatusWrapper.signature r2 = MscDriver.USBS ->
     (MscCommandStatusWrapper.status r2 = 0 ->
      outcome run = Some (parseMscSense (Some sense_data))) /\
     (MscCommandStatusWrapper.status r2 <> 0 ->
      outcome run = Some (Raise (Exception "Mass storage error")))).
Proof.
  intros Hin Hr run. subst run.
  rewrite (readResponse_run _ _ _ _ _ _ Hin Hr).
  split; [|split; [|split]].
  - intro Hsig. apply bytes_eqb_false in Hsig. now rewrite Hsig.
  - intros Hsig Hst. apply bytes_eqb_true in Hsig.
    rewrite Hsig, Hst. split; reflexivity.
  - intros Hsig Hst ->. apply bytes_eqb_true in Hsig.
    apply Z.eqb_neq in Hst. rewrite Hsig, Hst. split; reflexivity.
  - intros Hsig Hst ->. apply bytes_eqb_true in Hsig.
    apply Z.eqb_neq in Hst. rewrite Hsig, Hst. cbn [negb]. cbv zeta.
    split; [|split; [reflexivity|]].
    + unfold trace at 1. cbn [snd writes]. apply requestSense_writes.
    + intros n out' sense_data c2 in' r2 Hout -> Hr2 Hsig2.
      unfold outcome at 1 3. cbn [fst].
      rewrite (requestSense_round_trip depth
                 (read_done s (Transfer sense_data :: Transfer c2 :: in'))
                 n out' sense_data c2 in' r2 Hout eq_refl Hr2 Hsig2).
      split; intro H2.
      * now rewrite H2.
      * apply Z.eqb_neq in H2. now rewrite H2.
Qed.

End MscStatus.

Lemma msc_status_phase_witness :
  outcome (@MscDriver._readResponse TripleSense 2 false
             (device_of [Transfer bad_csw] [])) =
    Some (Raise (Exception "Wrong status signature")) /\
  (outcome (@MscDriver._readResponse TripleSense 2 false
              (device_of [Transfer (csw 0)] [])) = Some (Ok (0, 0, 0)) /\
   trace (@MscDriver._readResponse TripleSense 2 false
            (device_of [Transfer (csw 0)] [])) = [Read 0x81 13]) /\
  (outcome (@MscDriver._readResponse TripleSense 2 true
              (device_of [Transfer (csw 1)] [])) =
     Some (Raise (Exception "Mass storage error")) /\
   trace (@MscDriver._readResponse TripleSense 2 true
            (device_of [Transfer (csw 1)] [])) = [Read 0x81 13]) /\
  (writes (trace (@MscDriver._readResponse TripleSense 2 false
                    (device_of [Transfer (csw 1); Transfer sense_buffer;
                                Transfer (csw 0)] [Transfer 31]))) =
     [request_sense_cbw] /\
   outcome (@MscDriver._readResponse TripleSense 2 false
              (device_of [Transfer (csw 1); Transfer sense_buffer;
                          Transfer (csw 0)] [Transfer 31])) =
     Some (Ok (5, 0x24, 0))).
Proof.
  split; [|split; [|split]].
  - refine (proj1 (@msc_status_phase TripleSense 0 false
                     (device_of [Transfer bad_csw] []) bad_csw []
                     (MscCommandStatusWrapper.mk MscDriver.USBC 0 0 0)
                     eq_refl eq_refl) _).
    discriminate.
  - exact (proj1 (proj2 (@msc_status_phase TripleSense 0 false
                           (device_of [Transfer (csw 0)] []) (csw 0) []
                           (MscCommandStatusWrapper.mk MscDriver.USBS 0 0 0)
                           eq_refl eq_refl)) eq_refl eq_refl).
  - refine (proj1 (proj2 (proj2 (@msc_status_phase TripleSense 0 true
                           (device_of [Transfer (csw 1)] []) (csw 1) []
                           (MscCommandStatusWrapper.mk MscDriver.USBS 0 0 1)
                           eq_refl eq_refl))) eq_refl _ eq_refl).
    discriminate.
  - destruct (proj2 (proj2 (proj2 (@msc_status_phase TripleSense 0 false
                (device_of [Transfer (csw 1); Transfer sense_buffer;
                            Transfer (csw 0)] [Transfer 31])
                (csw 1) [Transfer sense_buffer; Transfer (csw 0)]
                (MscCommandStatusWrapper.mk MscDriver.USBS 0 0 1)
                eq_refl eq_refl))) eq_refl ltac:(discriminate) eq_refl)
      as (Hw & _ & Hrt).
    split; [exact Hw|].
    exact (proj1 (Hrt 31 [] sense_buffer (csw 0) []
                    (MscCommandStatusWrapper.mk MscDriver.USBS 0 0 0)
                    eq_refl eq_refl eq_refl eq_refl) eq_refl).
Defined.

(** ** Stalls in the data phase *)

Section MscStalls.
Context {SD : SenseData}.

Lemma after_stall_ok {A} (msg : string) (f : Sense -> A) :
  after_stall msg f (Some (Ok MSC_SENSE_OK)) = Some (Raise (Exception msg)).
Proof. unfold after_stall. now rewrite Sense_eqb_refl. Qed.

Lemma after_stall_returns {A} (msg : string) (f : Sense -> A) o a :
  after_stall msg f o = Some (Ok a) ->
  exists sense, o = Some (Ok sense) /\ sense <> MSC_SENSE_OK /\ a = f sense.
Proof.
  unfold after_stall. destruct o as [[sense|e]|]; try discriminate.
  destruct (Sense_eqb sense MSC_SENSE_OK) eqn:E; [discriminate|].
  intros [= <-]. exists sense. repeat split. now apply Sense_eqb_false.
Qed.

Lemma with_data_returns {A} (f : Sense -> A) o a :
  with_data f o = Some (Ok a) -> exists sense, o = Some (Ok sense) /\ a = f sense.
Proof.
  unfold with_data. destruct o as [[sense|e]|]; try discriminate.
  intros [= <-]. now exists sense.
Qed.

(** C4. When the data transfer of sendWriteCommand or of sendReadCommand
    stalls, the halt of that endpoint is cleared and the status is read next;
    if the status read then comes back with [MSC_SENSE_OK], the call raises
    'Mass storage write error' (or 'read error'), it never returns
    [MSC_SENSE_OK], and that exception is not the 'Mass storage error' of a
    status the device reported. *)
Theorem msc_stall_then_ok_is_an_error (depth : nat) (failOnError : bool)
    (command data : bytes) (size : Z) (sw sr : driver) (n m : Z)
    (out_w out_r : list (reply Z)) (in_r : list (reply bytes)) :
  len command < 2 ^ 8 ->
  len data < 2 ^ 32 ->
  0 <= size < 2 ^ 32 ->
  bulk_out (dev sw) = Transfer n :: USBErr :: out_w ->
  bulk_out (dev sr) = Transfer m :: out_r ->
  bulk_in (dev sr) = USBErr :: in_r ->
  let w_status :=
    MscDriver._readResponse (S depth) failOnError (write_done sw out_w) in
  let r_status :=
    MscDriver._readResponse (S depth) failOnError
      (read_done (write_done sr out_r) in_r) in
  let w_run := MscDriver.sendWriteCommand (S depth) command data failOnError sw in
  let r_run := MscDriver.sendReadCommand (S depth) command size failOnError sr in
  (exists cbw t,
      trace w_run =
        Write (epOut sw) cbw :: Write (epOut sw) data ::
        ClearHalt (epOut sw) :: trace w_status /\
      trace w_status = Read (epIn sw) 13 :: t) /\
  (outcome w_status = Some (Ok MSC_SENSE_OK) ->
   outcome w_run = Some (Raise (Exception "Mass storage write error"))) /\
  outcome w_run <> Some (Ok MSC_SENSE_OK) /\
  (exists cbw t,
      trace r_run =
        Write (epOut sr) cbw :: Read (epIn sr) size ::
        ClearHalt (epIn sr) :: trace r_status /\
      trace r_status = Read (epIn sr) 13 :: t) /\
  (outcome r_status = Some (Ok MSC_SENSE_OK) ->
   outcome r_run = Some (Raise (Exception "Mass storage read error"))) /\
  (forall data', outcome r_run <> Some (Ok (MSC_SENSE_OK, data'))) /\
  Exception "Mass storage write error" <> Exception "Mass storage error" /\
  Exception "Mass storage read error" <> Exception "Mass storage error".
Proof.
  intros Hc Hd Hs Hw Hr Hi w_status r_status w_run r_run.
  assert (Hlen : forall A (l : list A), 0 <= len l) by (intros; unfold len; lia).
  destruct (pack_public_cbw MscDriver.DIRECTION_WRITE command (len data))
    as [cw Hcw]; [unfold MscDriver.DIRECTION_WRITE; lia | exact Hc | split; [apply Hlen | exact Hd] |].
  destruct (pack_public_cbw MscDriver.DIRECTION_READ command size)
    as [cr Hcr]; [unfold MscDriver.DIRECTION_READ; lia | exact Hc | exact Hs |].
  assert (Ew : w_run =
               (after_stall "Mass storage write error" (fun x => x)
                  (outcome w_status),
                final w_status,
                Write (epOut sw) cw :: Write (epOut sw) data ::
                ClearHalt (epOut sw) :: trace w_status)).
  { subst w_run.
    now rewrite (sendWriteCommand_after_cbw _ _ _ _ _ _ _
                   (writeCommand_ok _ _ _ _ _ sw _ _ _ Hcw Hw)). }
  assert (Er : r_run =
               (after_stall "Mass storage read error"
                  (fun x => (x, @None bytes)) (outcome r_status),
                final r_status,
                Write (epOut sr) cr :: Read (epIn sr) size ::
                ClearHalt (epIn sr) :: trace r_status)).
  { subst r_run. unfold MscDriver.sendReadCommand.
    rewrite (sendReadCommand_after_cbw _ _ _ _ _ _ _
               (writeCommand_ok _ _ _ _ _ sr _ _ _ Hcr Hr)).
    change (bulk_in (dev (write_done sr out_r))) with (bulk_in (dev sr)).
    now rewrite Hi. }
  assert (Hwo : outcome w_run =
                after_stall "Mass storage write error" (fun x => x)
                  (outcome w_status)) by now rewrite Ew.
  assert (Hro : outcome r_run =
                after_stall "Mass storage read error"
                  (fun x => (x, @None bytes)) (outcome r_status))
    by now rewrite Er.
  repeat split.
  - destruct (readResponse_trace_head depth failOnError (write_done sw out_w))
      as [t Ht]. exists cw, t. now rewrite Ew.
  - intro H. rewrite Hwo, H. apply after_stall_ok.
  - rewrite Hwo. intro H.
    apply after_stall_returns in H as (sense & _ & Hne & <-). now apply Hne.
  - destruct (readResponse_trace_head depth failOnError
                (read_done (write_done sr out_r) in_r)) as [t Ht].
    exists cr, t. now rewrite Er.
  - intro H. rewrite Hro, H. apply after_stall_ok.
  - intros data'. rewrite Hro. intro H.
    apply after_stall_returns in H as (sense & _ & Hne & H).
    injection H as <- _. now apply Hne.
  - discriminate.
  - discriminate.
Qed.

(** C10. Whenever sendReadCommand returns a pair, its data is the byte
    string of the bulk-in read if that read went through, and is None if the
    read raised a USB error; in that case failOnError was not set and the
    sense value of the pair is not [MSC_SENSE_OK]. *)
Theorem msc_stalled_read_returns_no_data (depth : nat) (command : bytes)
    (size : Z) (failOnError : bool) (s : driver) (sense : Sense)
    (data : option bytes) :
  outcome (MscDriver.sendReadCommand depth command size failOnError s) =
    Some (Ok (sense, data)) ->
  match bulk_in (dev s) with
  | Transfer d :: _ => data = Some d
  | _ => data = None /\ failOnError = false /\ sense <> MSC_SENSE_OK
  end.
Proof.
  unfold MscDriver.sendReadCommand. intro H.
  pose proof (writeCommand_run MscDriver.DIRECTION_READ command size 0 0 s)
    as Hw.
  destruct (MscCommandBlockWrapper.pack _) as [w|e];
    [|unfold MscDriver.sendReadCommand_ in H;
      now rewrite (bind_raise _ _ _ _ _ _ Hw) in H].
  destruct (bulk_out (dev s)) as [|[|n] out'];
    try (unfold MscDriver.sendReadCommand_ in H;
         now rewrite (bind_raise _ _ _ _ _ _ Hw) in H).
  rewrite (sendReadCommand_after_cbw _ _ _ _ _ _ _ Hw) in H.
  change (bulk_in (dev (write_done s out'))) with (bulk_in (dev s)) in H.
  assert (Hstall : forall st,
             after_stall "Mass storage read error"
               (fun x => (x, @None bytes))
               (outcome (MscDriver._readResponse depth failOnError st)) =
             Some (Ok (sense, data)) ->
             data = None /\ failOnError = false /\ sense <> MSC_SENSE_OK).
  { intros st Hs. apply after_stall_returns in Hs as (x & Hx & Hne & E).
    injection E as -> ->. repeat split; [|exact Hne].
    destruct failOnError; [|reflexivity].
    apply readResponse_strict_ok in Hx. contradiction. }
  destruct (bulk_in (dev s)) as [|[|d] in'];
    cbv zeta in H; unfold outcome at 1 in H; cbn [fst] in H.
  - exact (Hstall _ H).
  - exact (Hstall _ H).
  - apply with_data_returns in H as (x & _ & E). now injection E as _ ->.
Qed.

End MscStalls.

Lemma msc_stall_then_ok_is_an_error_witness :
  outcome (@MscDriver.sendWriteCommand TripleSense 2 [x2a; x00] [x01; x02]
             false (device_of [Transfer (csw 0)] [Transfer 31; USBErr])) =
    Some (Raise (Exception "Mass storage write error")) /\
  outcome (@MscDriver.sendReadCommand TripleSense 2 [x28; x00] 512 false
             (device_of [USBErr; Transfer (csw 0)] [Transfer 31])) =
    Some (Raise (Exception "Mass storage read error")).
Proof.
  destruct (@msc_stall_then_ok_is_an_error TripleSense 1 false
              [x2a; x00] [x01; x02] 512
              (device_of [Transfer (csw 0)] [Transfer 31; USBErr])
              (device_of [USBErr; Transfer (csw 0)] [Transfer 31])
              31 31 [] [] [Transfer (csw 0)])
    as (_ & Hw & _ & _ & Hr & _);
    try reflexivity; try (cbn; lia).
  split; [apply Hw | apply Hr]; reflexivity.
Defined.

Lemma msc_stalled_read_returns_no_data_witness :
  outcome (@MscDriver.sendReadCommand TripleSense 2 [x28; x00] 512 false
             (device_of [USBErr; Transfer (csw 1); Transfer sense_buffer;
                         Transfer (csw 0)] [Transfer 31; Transfer 31])) =
    Some (Ok ((5, 0x24, 0), None)) /\
  (@None bytes = None /\ false = false /\ (5, 0x24, 0) <> (0, 0, 0)).
Proof.
  split; [reflexivity|].
  exact (@msc_stalled_read_returns_no_data TripleSense 2 [x28; x00] 512 false
           (device_of [USBErr; Transfer (csw 1); Transfer sense_buffer;
                       Transfer (csw 0)] [Transfer 31; Transfer 31])
           (5, 0x24, 0) None eq_refl).
Defined.

(** ** Every mass-storage call comes back *)

Section MscReturns.
Context {SD : SenseData}.

Lemma readResponse_strict_returns depth s :
  outcome (MscDriver._readResponse (S depth) true s) <> None.
Proof.
  cbn [MscDriver._readResponse]. rewrite outcome_bind.
  destruct (UsbDriver.read _ s) as [[[[d|e]|] s1] t1] eqn:Hr;
    cbn [outcome fst]; try discriminate.
  - destruct (MscCommandStatusWrapper.unpack d) as [r|e]; [|discriminate].
    rewrite bind_lift_ok.
    destruct (negb (bytes_eqb _ _)); [discriminate|].
    destruct (negb (_ =? 0)); discriminate.
  - unfold UsbDriver.read in Hr.
    destruct (bulk_in (dev s)) as [|[|d] rest]; discriminate.
Qed.

Lemma with_data_returned {A} (f : Sense -> A) o :
  o <> None -> with_data f o <> None.
Proof. destruct o as [[x|e]|]; cbn; congruence. Qed.

Lemma after_stall_returned {A} msg (f : Sense -> A) o :
  o <> None -> after_stall msg f o <> None.
Proof.
  destruct o as [[x|e]|]; cbn; try congruence.
  destruct (Sense_eqb x MSC_SENSE_OK); discriminate.
Qed.

Lemma sendReadCommand_returns (rr : bool -> M Sense) command size f s :
  (forall st, outcome (rr f st) <> None) ->
  outcome (MscDriver.sendReadCommand_ rr command size f s) <> None.
Proof.
  intro Hrr.
  pose proof (writeCommand_run MscDriver.DIRECTION_READ command size 0 0 s)
    as Hw.
  destruct (MscCommandBlockWrapper.pack _) as [w|e];
    [|unfold MscDriver.sendReadCommand_;
      now rewrite (bind_raise _ _ _ _ _ _ Hw)].
  destruct (bulk_out (dev s)) as [|[|n] out'];
    try (unfold MscDriver.sendReadCommand_;
         now rewrite (bind_raise _ _ _ _ _ _ Hw)).
  rewrite (sendReadCommand_after_cbw _ _ _ _ _ _ _ Hw).
  destruct (bulk_in (dev (write_done s out'))) as [|[|d] in'];
    cbv zeta; unfold outcome at 1; cbn [fst];
    first [apply after_stall_returned | apply with_data_returned];
    apply Hrr.
Qed.

Lemma requestSense_returns depth s :
  outcome (MscDriver.requestSense (S depth) s) <> None.
Proof.
  rewrite requestSense_run. cbv zeta. unfold outcome at 1. cbn [fst].
  pose proof (sendReadCommand_returns (MscDriver._readResponse (S depth))
                request_sense_bytes 18 true s
                (readResponse_strict_returns depth)) as H.
  destruct (outcome _) as [[[x data]|e]|]; congruence.
Qed.

(** With two levels of status reads, a status read always comes back, and so
    do the three public operations. *)
Lemma readResponse_returns depth f s :
  outcome (MscDriver._readResponse (S (S depth)) f s) <> None.
Proof.
  destruct f; [apply readResponse_strict_returns|].
  destruct (bulk_in (dev s)) as [|[|d] rest] eqn:Hin.
  - cbn [MscDriver._readResponse].
    now rewrite (bind_raise _ _ _ _ _ _ (read_timeout _ s Hin)).
  - cbn [MscDriver._readResponse].
    now rewrite (bind_raise _ _ _ _ _ _ (read_stall _ s rest Hin)).
  - destruct (MscCommandStatusWrapper.unpack d) as [r|e] eqn:Hr.
    + rewrite (readResponse_run _ _ _ _ _ _ Hin Hr).
      destruct (negb (bytes_eqb _ _)); [discriminate|].
      destruct (negb (_ =? 0)); [|discriminate].
      cbv zeta. unfold outcome at 1. cbn [fst]. apply requestSense_returns.
    + cbn [MscDriver._readResponse].
      rewrite (bind_ok _ _ _ _ _ _ (read_transfer _ s d rest Hin)), Hr.
      discriminate.
Qed.

Lemma msc_calls_return depth command data size f s :
  outcome (MscDriver.sendCommand (S (S depth)) command f s) <> None /\
  outcome (MscDriver.sendWriteCommand (S (S depth)) command data f s) <> None /\
  outcome (MscDriver.sendReadCommand (S (S depth)) command size f s) <> None.
Proof.
  split; [|split].
  - unfold MscDriver.sendCommand. rewrite outcome_bind.
    destruct (outcome (MscDriver._writeCommand _ _ _ _ _ s)) as [[u|e]|] eqn:E;
      [apply readResponse_returns | discriminate |].
    rewrite writeCommand_run in E.
    destruct (MscCommandBlockWrapper.pack _); [|discriminate].
    destruct (bulk_out (dev s)) as [|[|n] rest]; discriminate.
  - pose proof (writeCommand_run MscDriver.DIRECTION_WRITE command (len data)
                  0 0 s) as Hw.
    destruct (MscCommandBlockWrapper.pack _) as [w|e];
      [|unfold MscDriver.sendWriteCommand;
        now rewrite (bind_raise _ _ _ _ _ _ Hw)].
    destruct (bulk_out (dev s)) as [|[|n] out'];
      try (unfold MscDriver.sendWriteCommand;
           now rewrite (bind_raise _ _ _ _ _ _ Hw)).
    rewrite (sendWriteCommand_after_cbw _ _ _ _ _ _ _ Hw).
    destruct (bulk_out (dev (write_done s out'))) as [|[|k] out''];
      cbv zeta; unfold outcome at 1; cbn [fst];
      first [apply after_stall_returned | apply with_data_returned];
      apply readResponse_returns.
  - apply sendReadCommand_returns. intro st. apply readResponse_returns.
Qed.

End MscReturns.


(** ** Reading a PTP packet *)

Lemma while_empty_nonempty (fuel : nat) (b : byte) (d : bytes) :
  MtpDriver.while_empty fuel (b :: d) = ret (b :: d).
Proof. now destruct fuel. Qed.

(** The loop survives any number of empty reads, given fuel for them. *)
Lemma while_empty_run (n : nat) :
  forall (fuel : nat) (s : driver) d rest,
    bulk_in (dev s) = repeat (Transfer []) n ++ Transfer d :: rest ->
    d <> [] ->
    (n < fuel)%nat ->
    MtpDriver.while_empty fuel [] s =
    (Some (Ok d), read_done s rest,
     repeat (Read (epIn s) MtpDriver.MAX_PKG_LEN) (S n)).
Proof.
  induction n as [|n IH]; intros fuel s d rest Hin Hd Hf;
    (destruct fuel as [|fuel]; [lia|]); cbn [MtpDriver.while_empty].
  - rewrite (bind_ok _ _ _ _ _ _ (read_transfer _ s d rest Hin)).
    destruct d as [|b d]; [congruence|]. now rewrite while_empty_nonempty.
  - cbn [repeat app] in Hin.
    rewrite (bind_ok _ _ _ _ _ _ (read_transfer _ s [] _ Hin)).
    rewrite (IH fuel (read_done s _) d rest eq_refl Hd ltac:(lia)).
    reflexivity.
Qed.

(** On a device with finitely many replies the loop ends, given fuel for
    them: the read after the last reply times out. *)
Lemma while_empty_returns (fuel : nat) :
  forall s data,
    (List.length (bulk_in (dev s)) < fuel)%nat ->
    outcome (MtpDriver.while_empty fuel data s) <> None.
Proof.
  induction fuel as [|fuel IH]; intros s data Hf; [lia|].
  destruct data as [|b data]; cbn [MtpDriver.while_empty]; [|discriminate].
  rewrite outcome_bind. unfold UsbDriver.read.
  destruct (bulk_in (dev s)) as [|[|d] rest] eqn:Hin; cbn [outcome fst final snd];
    try discriminate.
  apply IH. cbn in *. lia.
Qed.

Lemma unpack_nonempty (d : bytes) (h : PtpHeader.tuple) :
  PtpHeader.unpack d = Ok h -> d <> [].
Proof. intros H ->. discriminate. Qed.

Lemma slice_whole (data : bytes) (a n : Z) :
  0 <= a -> len data <= a + n ->
  slice data a (a + n) = skipn (Z.to_nat a) data.
Proof.
  intros Ha Hl. unfold slice, len in *. apply firstn_all2.
  rewrite length_skipn. lia.
Qed.

(** The rest of _readPtp once the loop has come back with [d1]: the packet
    is cut out of [d1] when the declared size is at most 512, and one more
    read is made above that. *)
Lemma readPtp_after_loop (fuel : nat) (s s1 : driver) (t1 : list event)
    (d1 : bytes) (h : PtpHeader.tuple) :
  MtpDriver.while_empty fuel [] s = (Some (Ok d1), s1, t1) ->
  PtpHeader.unpack d1 = Ok h ->
  (PtpHeader.size h <= 512 ->
   MtpDriver._readPtp fuel s =
   (Some (Ok (PtpHeader.type h, PtpHeader.code h, PtpHeader.transaction h,
              slice d1 12 (12 + PtpHeader.size h))), s1, t1)) /\
  (512 < PtpHeader.size h ->
   forall d2 rest',
     bulk_in (dev s1) = Transfer d2 :: rest' ->
     len d1 <= 512 ->
     len d2 <= PtpHeader.size h - 512 ->
     MtpDriver._readPtp fuel s =
     (Some (Ok (PtpHeader.type h, PtpHeader.code h, PtpHeader.transaction h,
                skipn 12 (d1 ++ d2))),
      read_done s1 rest',
      t1 ++ [Read (epIn s1) (PtpHeader.size h - 512)])).
Proof.
  intros Hloop Hh. unfold MtpDriver._readPtp.
  rewrite (bind_ok _ _ _ _ _ _ Hloop), Hh, bind_lift_ok.
  unfold MtpDriver.MAX_PKG_LEN.
  change (Struct.size PtpHeader.layout) with 12.
  split.
  - intro Hs.
    replace (PtpHeader.size h >? 512) with false
      by (symmetry; rewrite Z.gtb_ltb; apply Z.ltb_ge; lia).
    rewrite bind_ret. cbn. now rewrite app_nil_r.
  - intros Hs d2 rest' Hin H1 H2.
    replace (PtpHeader.size h >? 512) with true
      by (symmetry; rewrite Z.gtb_ltb; apply Z.ltb_lt; lia).
    erewrite (bind_ok (more <- UsbDriver.read _ ;; ret (d1 ++ more)));
      [| erewrite bind_ok by (apply read_transfer; exact Hin);
         reflexivity ].
    cbn [outcome final trace fst snd ret app].
    rewrite slice_whole by (unfold len in *; rewrite ?length_app; lia).
    reflexivity.
Qed.

(** C6. After any number [n] of empty reads (and fuel for them), a read
    [d1] that starts with a header declaring size S ends the loop: up to
    S = 512 the packet is cut out of that read alone, with no further read;
    above 512 one more read, of S - 512 bytes, is made and the packet body is
    everything read but the first 12 bytes.  Neither the empty reads nor
    their number raise an error. *)
Theorem ptp_packet_read_loop (fuel n : nat) (s : driver) (d1 : bytes)
    (rest : list (reply bytes)) (h : PtpHeader.tuple) :
  bulk_in (dev s) = repeat (Transfer []) n ++ Transfer d1 :: rest ->
  PtpHeader.unpack d1 = Ok h ->
  (n < fuel)%nat ->
  (PtpHeader.size h <= 512 ->
   MtpDriver._readPtp fuel s =
   (Some (Ok (PtpHeader.type h, PtpHeader.code h, PtpHeader.transaction h,
              slice d1 12 (12 + PtpHeader.size h))),
    read_done s rest,
    repeat (Read (epIn s) 512) (S n))) /\
  (512 < PtpHeader.size h ->
   forall d2 rest',
     rest = Transfer d2 :: rest' ->
     len d1 <= 512 ->
     len d2 <= PtpHeader.size h - 512 ->
     MtpDriver._readPtp fuel s =
     (Some (Ok (PtpHeader.type h, PtpHeader.code h, PtpHeader.transaction h,
                skipn 12 (d1 ++ d2))),
      read_done s rest',
      repeat (Read (epIn s) 512) (S n) ++
      [Read (epIn s) (PtpHeader.size h - 512)])).
Proof.
  intros Hin Hh Hf.
  pose proof (while_empty_run n fuel s d1 rest Hin (unpack_nonempty _ _ Hh) Hf)
    as Hloop.
  destruct (readPtp_after_loop fuel s _ _ d1 h Hloop Hh) as [Hshort Hlong].
  split.
  - exact Hshort.
  - intros Hs d2 rest' -> H1 H2.
    exact (Hlong Hs d2 rest' eq_refl H1 H2).
Qed.

Lemma ptp_packet_read_loop_witness :
  MtpDriver._readPtp 3
    (device_of [Transfer []; Transfer [];
                Transfer (ptp_packet_bytes 2 0x1001 4 [x0a; x0b])] []) =
  (Some (Ok (2, 0x1001, 4, [x0a; x0b])), device_of [] [],
   [Read 0x81 512; Read 0x81 512; Read 0x81 512]) /\
  MtpDriver._readPtp 1
    (device_of [Transfer (firstn 512 long_packet);
                Transfer (skipn 512 long_packet)] []) =
  (Some (Ok (2, 0x1001, 4, repeat x00 500 ++ [x01; x02])), device_of [] [],
   [Read 0x81 512; Read 0x81 2]).
Proof.
  split.
  - refine (eq_trans
              (proj1 (ptp_packet_read_loop 3 2
                        (device_of [Transfer []; Transfer [];
                                    Transfer (ptp_packet_bytes 2 0x1001 4
                                                [x0a; x0b])] [])
                        (ptp_packet_bytes 2 0x1001 4 [x0a; x0b]) []
                        (PtpHeader.mk 14 2 0x1001 4) eq_refl eq_refl _) _) _).
    + lia.
    + simpl. lia.
    + reflexivity.
  - refine (eq_trans
              (proj2 (ptp_packet_read_loop 1 0
                        (device_of [Transfer (firstn 512 long_packet);
                                    Transfer (skipn 512 long_packet)] [])
                        (firstn 512 long_packet)
                        [Transfer (skipn 512 long_packet)]
                        (PtpHeader.mk 514 2 0x1001 4) eq_refl eq_refl _) _
                 (skipn 512 long_packet) [] eq_refl _ _) _).
    + lia.
    + simpl. lia.
    + vm_compute. discriminate.
    + vm_compute. discriminate.
    + reflexivity.
Defined.

(** C5. On a packet that _readPtp has received, _readData raises 'Wrong
    response type' exactly when the header's type is not 2 and returns the
    payload when it is 2; _readResponse raises it exactly when the type is
    not 3 and returns the header's code when it is 3. *)
Theorem ptp_type_validation (fuel : nat) (s s' : driver) (t : list event)
    (type code transaction : Z) (data : bytes) :
  MtpDriver._readPtp fuel s =
    (Some (Ok (type, code, transaction, data)), s', t) ->
  (outcome (MtpDriver._readData fuel s) =
     Some (Raise (MtpDriver.wrong_response_type type)) <-> type <> 2) /\
  (type = 2 -> outcome (MtpDriver._readData fuel s) = Some (Ok data)) /\
  (outcome (MtpDriver._readResponse fuel s) =
     Some (Raise (MtpDriver.wrong_response_type type)) <-> type <> 3) /\
  (type = 3 -> outcome (MtpDriver._readResponse fuel s) = Some (Ok code)).
Proof.
  intro H. unfold MtpDriver._readData, MtpDriver._readResponse.
  rewrite !(bind_ok _ _ _ _ _ _ H). cbv zeta beta iota.
  unfold MtpDriver.TYPE_DATA, MtpDriver.TYPE_RESPONSE.
  destruct (Z.eqb_spec type 2) as [E2|E2];
    destruct (Z.eqb_spec type 3) as [E3|E3]; cbn;
    repeat split; intros; try congruence; try discriminate; try lia.
Qed.

Lemma ptp_type_validation_witness :
  outcome (MtpDriver._readData 1
             (device_of [Transfer (ptp_packet_bytes 3 0x2001 0 [])] [])) =
    Some (Raise (Exception "Wrong response type: 0x3")) /\
  outcome (MtpDriver._readResponse 1
             (device_of [Transfer (ptp_packet_bytes 3 0x2001 0 [])] [])) =
    Some (Ok 0x2001).
Proof.
  destruct (ptp_type_validation 1
              (device_of [Transfer (ptp_packet_bytes 3 0x2001 0 [])] [])
              (device_of [] []) [Read 0x81 512] 3 0x2001 0 [] eq_refl)
    as (Hd & _ & _ & Hr).
  split; [apply Hd; discriminate | apply Hr; reflexivity].
Defined.

(** ** The transaction counter *)

Lemma keeps_bind {A B} (m : M A) (k : A -> M B) :
  keeps_transaction m -> (forall a, keeps_transaction (k a)) ->
  keeps_transaction (bind m k).
Proof.
  intros Hm Hk s. rewrite final_bind.
  destruct (outcome (m s)) as [[a|e]|]; [rewrite Hk|..]; apply Hm.
Qed.

Lemma keeps_lift {A} (r : result A) : keeps_transaction (lift r).
Proof. intro s. reflexivity. Qed.

Lemma keeps_ret {A} (a : A) : keeps_transaction (ret a).
Proof. intro s. reflexivity. Qed.

Lemma keeps_raise {A} (e : exn) : keeps_transaction (@raise A e).
Proof. intro s. reflexivity. Qed.

Lemma keeps_diverge {A} : keeps_transaction (@diverge A).
Proof. intro s. reflexivity. Qed.

Lemma keeps_read (length : Z) : keeps_transaction (UsbDriver.read length).
Proof.
  intro s. unfold UsbDriver.read.
  now destruct (bulk_in (dev s)) as [|[|d] rest].
Qed.

Lemma keeps_write (data : bytes) : keeps_transaction (UsbDriver.write data).
Proof.
  intro s. unfold UsbDriver.write.
  now destruct (bulk_out (dev s)) as [|[|n] rest].
Qed.

Lemma keeps_self_transaction : keeps_transaction MtpDriver.self_transaction.
Proof.
  intro s. unfold MtpDriver.self_transaction.
  destruct (transaction s) eqn:E; exact E.
Qed.

Lemma keeps_while_empty (fuel : nat) :
  forall data, keeps_transaction (MtpDriver.while_empty fuel data).
Proof.
  induction fuel as [|fuel IH]; intros [|b d]; cbn [MtpDriver.while_empty];
    try apply keeps_ret; try apply keeps_diverge.
  apply keeps_bind; [apply keeps_read | exact IH].
Qed.

Ltac keep :=
  repeat
    match goal with
    | |- keeps_transaction (ret _) => apply keeps_ret
    | |- keeps_transaction (raise _) => apply keeps_raise
    | |- keeps_transaction (lift _) => apply keeps_lift
    | |- keeps_transaction diverge => apply keeps_diverge
    | |- keeps_transaction (UsbDriver.read _) => apply keeps_read
    | |- keeps_transaction (UsbDriver.write _) => apply keeps_write
    | |- keeps_transaction MtpDriver.self_transaction =>
        apply keeps_self_transaction
    | |- keeps_transaction (MtpDriver.while_empty _ _) =>
        apply keeps_while_empty
    | |- keeps_transaction (bind _ _) => apply keeps_bind; [|intro]
    | |- keeps_transaction (if ?b then _ else _) => destruct b
    | |- keeps_transaction (let '(_, _) := ?p in _) => destruct p
    end.

Lemma keeps_writePtp type code transaction data :
  keeps_transaction (MtpDriver._writePtp type code transaction data).
Proof. unfold MtpDriver._writePtp. keep. Qed.

Lemma keeps_readPtp fuel : keeps_transaction (MtpDriver._readPtp fuel).
Proof. unfold MtpDriver._readPtp. keep. Qed.

Lemma keeps_readData fuel : keeps_transaction (MtpDriver._readData fuel).
Proof.
  unfold MtpDriver._readData.
  apply keeps_bind; [apply keeps_readPtp | intro]. keep.
Qed.

Lemma keeps_readResponse fuel : keeps_transaction (MtpDriver._readResponse fuel).
Proof.
  unfold MtpDriver._readResponse.
  apply keeps_bind; [apply keeps_readPtp | intro]. keep.
Qed.

(** Reading packets writes nothing. *)
Lemma emits_while_empty P (fuel : nat) :
  forall data, emits P (MtpDriver.while_empty fuel data).
Proof.
  induction fuel as [|fuel IH]; intros [|b d]; cbn [MtpDriver.while_empty];
    try apply emits_ret; try apply emits_diverge.
  apply emits_bind; [apply emits_read | exact IH].
Qed.

Lemma emits_readPtp P fuel : emits P (MtpDriver._readPtp fuel).
Proof.
  unfold MtpDriver._readPtp.
  apply emits_bind; [apply emits_while_empty | intro]. emit.
Qed.

Lemma emits_ptp_readData P fuel : emits P (MtpDriver._readData fuel).
Proof.
  unfold MtpDriver._readData.
  apply emits_bind; [apply emits_readPtp | intro]. emit.
Qed.

Lemma emits_ptp_readResponse P fuel : emits P (MtpDriver._readResponse fuel).
Proof.
  unfold MtpDriver._readResponse.
  apply emits_bind; [apply emits_readPtp | intro]. emit.
Qed.

Lemma silent_writes {A} (m : M A) (s : driver) :
  emits (fun _ => False) m -> writes (trace (m s)) = [].
Proof.
  intro H. specialize (H s). destruct (writes (trace (m s))); [reflexivity|].
  now inversion H.
Qed.

(** What _writePtp writes: nothing when the header cannot be packed (and
    then it raises), otherwise one packet of the given type and id. *)
Lemma writePtp_writes type code t data s :
  (writes (trace (MtpDriver._writePtp type code t data s)) = [] /\
   (exists e,
       outcome (MtpDriver._writePtp type code t data s) = Some (Raise e)) /\
   exists e,
     PtpHeader.pack
       {| PtpHeader.size := Struct.size PtpHeader.layout + len data;
          PtpHeader.type := type;
          PtpHeader.code := code;
          PtpHeader.transaction := t |} = Raise e) \/
  (exists w,
      writes (trace (MtpDriver._writePtp type code t data s)) = [w] /\
      ptp_packet type t w).
Proof.
  unfold MtpDriver._writePtp.
  destruct (PtpHeader.pack _) as [hd|e] eqn:Hp.
  - right. rewrite bind_lift_ok. exists (hd ++ data). split.
    + rewrite trace_bind, trace_write, writes_app.
      now destruct (outcome (UsbDriver.write _ s)) as [[n|e]|].
    + destruct (PtpHeader_unpack_pack _ _ Hp) as [_ U].
      eexists. split; [apply U|]. now cbn.
  - left. split; [reflexivity|]. split; now exists e.
Qed.

(** _writeInitialCommand first moves the counter to the next id, then sends
    the Command packet with that id. *)
Lemma writeInitialCommand_run code args s :
  MtpDriver._writeInitialCommand code args s =
  (payload <- lift (MtpDriver.join_dump32le args) ;;
   MtpDriver._writePtp MtpDriver.TYPE_COMMAND code (next_id s) payload)
    (with_transaction s (next_id s)).
Proof.
  unfold MtpDriver._writeInitialCommand.
  erewrite (bind_ok MtpDriver.next_transaction)
    with (a := tt) (s1 := with_transaction s (next_id s)) (t1 := [])
    by (unfold MtpDriver.next_transaction, next_id;
        now destruct (transaction s)).
  erewrite (bind_ok MtpDriver.self_transaction)
    with (a := next_id s) (s1 := with_transaction s (next_id s)) (t1 := [])
    by reflexivity.
  cbn [app]. now rewrite <- !run_eta.
Qed.

Lemma writeInitialCommand_transaction code args s :
  transaction (final (MtpDriver._writeInitialCommand code args s)) =
  Some (next_id s).
Proof.
  rewrite writeInitialCommand_run.
  assert (K : keeps_transaction
                (payload <- lift (MtpDriver.join_dump32le args) ;;
                 MtpDriver._writePtp MtpDriver.TYPE_COMMAND code (next_id s)
                   payload))
    by (apply keeps_bind; [apply keeps_lift | intro; apply keeps_writePtp]).
  now rewrite K.
Qed.

Lemma writeInitialCommand_writes code args s :
  (writes (trace (MtpDriver._writeInitialCommand code args s)) = [] /\
   (exists e,
       outcome (MtpDriver._writeInitialCommand code args s) =
       Some (Raise e)) /\
   forall payload,
     MtpDriver.join_dump32le args = Ok payload ->
     exists e,
       PtpHeader.pack
         {| PtpHeader.size := Struct.size PtpHeader.layout + len payload;
            PtpHeader.type := MtpDriver.TYPE_COMMAND;
            PtpHeader.code := code;
            PtpHeader.transaction := next_id s |} = Raise e) \/
  (exists w,
      writes (trace (MtpDriver._writeInitialCommand code args s)) = [w] /\
      ptp_packet MtpDriver.TYPE_COMMAND (next_id s) w).
Proof.
  rewrite writeInitialCommand_run.
  destruct (MtpDriver.join_dump32le args) as [payload|e].
  - rewrite bind_lift_ok.
    destruct (writePtp_writes MtpDriver.TYPE_COMMAND code (next_id s) payload
                (with_transaction s (next_id s)))
      as [(Hw & He & Hp) | Hw]; [left | now right].
    split; [exact Hw|]. split; [exact He|]. now intros p [= <-].
  - left. split; [reflexivity|]. split; [now exists e | discriminate].
Qed.

Lemma self_transaction_run {B} (k : Z -> M B) (s : driver) (t : Z) :
  transaction s = Some t -> bind MtpDriver.self_transaction k s = k t s.
Proof.
  intro H. erewrite bind_ok
    by (unfold MtpDriver.self_transaction; rewrite H; reflexivity).
  cbn [app]. now rewrite <- run_eta.
Qed.

(** ** One transaction id per command *)

Lemma PtpHeader_pack_valid (h : PtpHeader.tuple) :
  PtpHeader.valid h -> exists b, PtpHeader.pack h = Ok b.
Proof.
  intros (H1 & H2 & H3 & H4).
  destruct (pack_fields_fits (map snd PtpHeader.layout)
              [Struct.VInt (PtpHeader.size h); Struct.VInt (PtpHeader.type h);
               Struct.VInt (PtpHeader.code h);
               Struct.VInt (PtpHeader.transaction h)]) as (b & Hb & _);
    [fits_all|].
  now exists b.
Qed.

Lemma join_dump32le_fits (args : list Z) :
  Forall (fun arg => 0 <= arg < 2 ^ 32) args ->
  exists payload,
    MtpDriver.join_dump32le args = Ok payload /\ len payload = 4 * len args.
Proof.
  induction 1 as [|arg args Ha _ (p & Hp & Hl)]; cbn [MtpDriver.join_dump32le].
  - now exists [].
  - unfold dump32le, Struct.pack_field. cbn [Struct.width].
    rewrite (proj2 (in_range_true 4 arg)) by (cbn; lia). rewrite Hp.
    eexists. split; [reflexivity|].
    unfold len in *. rewrite length_app, length_dumple. cbn [List.length].
    lia.
Qed.

(** What follows _writeInitialCommand in an operation: it keeps the counter,
    and after a reader that writes nothing the writes are those of the
    Command packet. *)
Lemma after_initial_transaction {A} code args (k : unit -> M A) s :
  (forall u, keeps_transaction (k u)) ->
  transaction (final (bind (MtpDriver._writeInitialCommand code args) k s)) =
  Some (next_id s).
Proof.
  intro Hk. rewrite final_bind.
  destruct (outcome _) as [[u|e]|]; [rewrite Hk|..];
    apply writeInitialCommand_transaction.
Qed.

Lemma after_initial_writes {A} code args (k : unit -> M A) s :
  (forall u, emits (fun _ => False) (k u)) ->
  writes (trace (bind (MtpDriver._writeInitialCommand code args) k s)) =
  writes (trace (MtpDriver._writeInitialCommand code args s)).
Proof.
  intro Hk. rewrite trace_bind, writes_app.
  destruct (outcome _) as [[u|e]|];
    [rewrite (silent_writes (k u) _ (Hk u))|..]; apply app_nil_r.
Qed.

Lemma dropped_result {A} (m : M A) (s : driver) :
  final (bind m (fun _ => ret tt) s) = final (m s) /\
  trace (bind m (fun _ => ret tt) s) = trace (m s).
Proof.
  rewrite final_bind, trace_bind.
  destruct (outcome (m s)) as [[a|e]|]; split;
    try reflexivity; apply app_nil_r.
Qed.

(** Every call moves the counter to the next id and sends its packets, the
    Command packet and then the Data packet if it has one, with that id.  It
    writes nothing only if the Command packet cannot be packed. *)
Lemma perform_run (fuel : nat) (c : ptp_call) (s : driver) :
  transaction (final (perform fuel c s)) = Some (next_id s) /\
  carries (next_id s) (packets_of c) (writes (trace (perform fuel c s))) /\
  (writes (trace (perform fuel c s)) = [] ->
   match c with
   | Command code args | WriteCommand code args _ | ReadCommand code args =>
       forall payload,
         MtpDriver.join_dump32le args = Ok payload ->
         exists e,
           PtpHeader.pack
             {| PtpHeader.size := Struct.size PtpHeader.layout + len payload;
                PtpHeader.type := MtpDriver.TYPE_COMMAND;
                PtpHeader.code := code;
                PtpHeader.transaction := next_id s |} = Raise e
   end).
Proof.
  destruct c as [code args|code args data|code args]; unfold perform;
    match goal with
    | |- context [bind ?m (fun _ => ret tt) s] =>
        destruct (dropped_result m s) as [-> ->]
    end.
  - unfold MtpDriver.sendCommand.
    rewrite after_initial_transaction
      by (intro; apply keeps_readResponse).
    rewrite after_initial_writes by (intro; apply emits_ptp_readResponse).
    split; [reflexivity|].
    destruct (writeInitialCommand_writes code args s)
      as [(-> & _ & Hp) | (w & -> & Hw)]; cbn; [now split|].
    split; [now split | discriminate].
  - unfold MtpDriver.sendWriteCommand.
    rewrite after_initial_transaction
      by (intro; keep;
          [apply keeps_writePtp | apply keeps_readResponse]).
    split; [reflexivity|].
    rewrite trace_bind, writes_app.
    pose proof (writeInitialCommand_transaction code args s) as Ht.
    destruct (writeInitialCommand_writes code args s)
      as [(-> & (e & He) & Hp) | (w & -> & Hw)].
    + rewrite He. cbn. now split.
    + split; [|destruct (outcome _) as [[u|e]|]; discriminate].
      destruct (outcome _) as [[u|e]|]; cbn [app carries packets_of];
        try (now split).
      rewrite (self_transaction_run _ _ _ Ht).
      rewrite trace_bind, writes_app.
      replace (writes
                 match outcome (MtpDriver._writePtp MtpDriver.TYPE_DATA code
                                  (next_id s) data _) with
                 | Some (Ok _) => _
                 | _ => []
                 end) with (@nil bytes)
        by (destruct (outcome (MtpDriver._writePtp _ _ _ _ _)) as [[?|?]|];
            try reflexivity; symmetry; apply silent_writes,
            emits_ptp_readResponse).
      rewrite app_nil_r. split; [exact Hw|].
      destruct (writePtp_writes MtpDriver.TYPE_DATA code (next_id s) data
                  (final (MtpDriver._writeInitialCommand code args s)))
        as [(-> & _) | (w' & -> & Hw')]; cbn; now try split.
  - unfold MtpDriver.sendReadCommand.
    rewrite after_initial_transaction
      by (intro; keep;
          [apply keeps_readData | apply keeps_readResponse]).
    rewrite after_initial_writes
      by (intro; emit;
          [apply emits_ptp_readData | apply emits_ptp_readResponse]).
    split; [reflexivity|].
    destruct (writeInitialCommand_writes code args s)
      as [(-> & _ & Hp) | (w & -> & Hw)]; cbn; [now split|].
    split; [now split | discriminate].
Qed.

Lemma session_next_id (fuel : nat) (pre : list ptp_call) :
  forall s s1,
    session fuel pre s = Some s1 -> next_id s1 = next_id s + len pre.
Proof.
  induction pre as [|c pre IH]; intros s s1; cbn [session].
  - intros [= <-]. unfold len. cbn. lia.
  - pose proof (perform_run fuel c s) as (Ht & _).
    destruct (perform fuel c s) as [[[r|] s'] t]; [|discriminate].
    intro H. apply IH in H. rewrite H.
    unfold final in Ht. cbn [fst snd] in Ht.
    unfold next_id at 1. rewrite Ht. unfold len. cbn [List.length]. lia.
Qed.

(** The command phase on a device that takes the Command packet, for
    arguments that fit: the packet is written with the next id and the
    method returns. *)
Lemma writeInitialCommand_accepted code args s n rest :
  0 <= code < 2 ^ 16 ->
  Forall (fun arg => 0 <= arg < 2 ^ 32) args ->
  12 + 4 * len args < 2 ^ 32 ->
  0 <= next_id s < 2 ^ 32 ->
  bulk_out (dev s) = Transfer n :: rest ->
  exists w,
    ptp_packet MtpDriver.TYPE_COMMAND (next_id s) w /\
    MtpDriver._writeInitialCommand code args s =
    (Some (Ok tt), write_done (with_transaction s (next_id s)) rest,
     [Write (epOut s) w]).
Proof.
  intros Hcode Hargs Hsize Hid Hout.
  destruct (join_dump32le_fits args Hargs) as (payload & Hp & Hl).
  destruct (PtpHeader_pack_valid
              {| PtpHeader.size := Struct.size PtpHeader.layout + len payload;
                 PtpHeader.type := MtpDriver.TYPE_COMMAND;
                 PtpHeader.code := code;
                 PtpHeader.transaction := next_id s |}) as [hd Hhd].
  { unfold PtpHeader.valid.
    cbn [PtpHeader.size PtpHeader.type PtpHeader.code PtpHeader.transaction].
    change (Struct.size PtpHeader.layout) with 12.
    unfold MtpDriver.TYPE_COMMAND. unfold len in *. lia. }
  exists (hd ++ payload). split.
  - destruct (PtpHeader_unpack_pack _ _ Hhd) as [_ U].
    eexists. split; [apply U|]. now cbn.
  - rewrite writeInitialCommand_run, Hp, bind_lift_ok.
    unfold MtpDriver._writePtp. rewrite Hhd, bind_lift_ok.
    now rewrite (bind_ok _ _ _ _ _ _
                   (write_transfer (hd ++ payload)
                      (with_transaction s (next_id s)) n rest Hout)).
Qed.

(** On a device that takes the Command packet, a call whose arguments and
    data fit writes exactly its packets: the Command packet and, for
    sendWriteCommand, the Data packet after it, whatever the device does
    with that one. *)
Lemma perform_sends (fuel : nat) (c : ptp_call) (s : driver) n rest :
  call_fits c ->
  data_fits c ->
  0 <= next_id s < 2 ^ 32 ->
  bulk_out (dev s) = Transfer n :: rest ->
  sends (next_id s) (packets_of c) (writes (trace (perform fuel c s))).
Proof.
  intros Hfit Hdata Hid Hout. unfold sends.
  destruct c as [code args|code args data|code args];
    destruct Hfit as (Hcode & Hargs & Hsize);
    destruct (writeInitialCommand_accepted code args s n rest
                Hcode Hargs Hsize Hid Hout) as (w & Hw & Hrun);
    unfold perform;
    match goal with
    | |- context [bind ?m (fun _ => ret tt) s] =>
        destruct (dropped_result m s) as [_ ->]
    end.
  - unfold MtpDriver.sendCommand.
    rewrite after_initial_writes by (intro; apply emits_ptp_readResponse).
    rewrite Hrun. cbn. now repeat constructor.
  - unfold MtpDriver.sendWriteCommand.
    rewrite trace_bind, writes_app, Hrun.
    unfold outcome, final, trace at 1. cbn [fst snd writes app].
    rewrite (self_transaction_run _ _ (next_id s)) by reflexivity.
    rewrite trace_bind, writes_app.
    replace (writes
               match outcome (MtpDriver._writePtp MtpDriver.TYPE_DATA code
                                (next_id s) data _) with
               | Some (Ok _) => _
               | _ => []
               end) with (@nil bytes)
      by (destruct (outcome (MtpDriver._writePtp _ _ _ _ _)) as [[?|?]|];
          try reflexivity; symmetry; apply silent_writes,
          emits_ptp_readResponse).
    rewrite app_nil_r.
    destruct (writePtp_writes MtpDriver.TYPE_DATA code (next_id s) data
                (write_done (with_transaction s (next_id s)) rest))
      as [(_ & _ & e & He) | (w' & -> & Hw')].
    + destruct (PtpHeader_pack_valid
                  {| PtpHeader.size := Struct.size PtpHeader.layout + len data;
                     PtpHeader.type := MtpDriver.TYPE_DATA;
                     PtpHeader.code := code;
                     PtpHeader.transaction := next_id s |}) as [hd Hhd];
        [|congruence].
      unfold PtpHeader.valid.
      cbn [PtpHeader.size PtpHeader.type PtpHeader.code
           PtpHeader.transaction].
      change (Struct.size PtpHeader.layout) with 12.
      unfold MtpDriver.TYPE_DATA. cbn [data_fits] in Hdata.
      unfold len in *. lia.
    + cbn [app]. now repeat constructor.
  - unfold MtpDriver.sendReadCommand.
    rewrite after_initial_writes
      by (intro; emit;
          [apply emits_ptp_readData | apply emits_ptp_readResponse]).
    rewrite Hrun. cbn. now repeat constructor.
Qed.

(** C2. On a driver that has sent no command yet, after [pre] earlier calls
    of any of the three operations (each of which came back, with a result or
    an exception), the next call leaves the counter at the number of earlier
    calls and every packet it writes carries that number as transaction id:
    first the Command packet, then the Data packet of sendWriteCommand; for
    arguments that fit the Command packet's fields, the Command packet is
    written.  When moreover the device takes the Command packet and the data
    fits the Data packet, the call writes exactly its packets, the Command
    packet and for sendWriteCommand the Data packet after it, both with that
    same id. *)
Theorem ptp_transaction_ids (fuel : nat) (pre : list ptp_call) (c : ptp_call)
    (s0 s1 : driver) :
  transaction s0 = None ->
  session fuel pre s0 = Some s1 ->
  transaction (final (perform fuel c s1)) = Some (len pre) /\
  carries (len pre) (packets_of c) (writes (trace (perform fuel c s1))) /\
  (call_fits c -> len pre < 2 ^ 32 ->
   writes (trace (perform fuel c s1)) <> []) /\
  (call_fits c -> data_fits c -> len pre < 2 ^ 32 ->
   forall n rest,
     bulk_out (dev s1) = Transfer n :: rest ->
     sends (len pre) (packets_of c) (writes (trace (perform fuel c s1)))).
Proof.
  intros H0 Hs. apply session_next_id in Hs.
  assert (Hid : next_id s1 = len pre)
    by (rewrite Hs; unfold next_id; rewrite H0; lia).
  destruct (perform_run fuel c s1) as (Ht & Hc & Hn).
  rewrite Hid in *. split; [exact Ht|]. split; [exact Hc|].
  assert (Hpre : 0 <= len pre) by (unfold len; lia).
  split.
  2: { intros Hfit Hdata Hlt n rest Hout. rewrite <- Hid.
       apply (perform_sends fuel c s1 n rest Hfit Hdata); [lia | exact Hout]. }
  intros Hfit Hlt Hw. specialize (Hn Hw).
  assert (Hpacks : forall code args,
             0 <= code < 2 ^ 16 ->
             Forall (fun arg => 0 <= arg < 2 ^ 32) args ->
             12 + 4 * len args < 2 ^ 32 ->
             exists payload hd,
               MtpDriver.join_dump32le args = Ok payload /\
               PtpHeader.pack
                 {| PtpHeader.size :=
                      Struct.size PtpHeader.layout + len payload;
                    PtpHeader.type := MtpDriver.TYPE_COMMAND;
                    PtpHeader.code := code;
                    PtpHeader.transaction := len pre |} = Ok hd).
  { intros code args Hcode Hargs Hsize.
    destruct (join_dump32le_fits args Hargs) as (payload & Hp & Hl).
    destruct (PtpHeader_pack_valid
                {| PtpHeader.size := Struct.size PtpHeader.layout + len payload;
                   PtpHeader.type := MtpDriver.TYPE_COMMAND;
                   PtpHeader.code := code;
                   PtpHeader.transaction := len pre |}) as [hd Hhd].
    - unfold PtpHeader.valid.
      cbn [PtpHeader.size PtpHeader.type PtpHeader.code
           PtpHeader.transaction].
      change (Struct.size PtpHeader.layout) with 12.
      unfold MtpDriver.TYPE_COMMAND. unfold len in *. lia.
    - now exists payload, hd. }
  destruct c as [code args|code args data|code args];
    destruct Hfit as (Hcode & Hargs & Hsize);
    destruct (Hpacks code args Hcode Hargs Hsize) as (payload & hd & Hp & Hhd);
    destruct (Hn payload Hp) as [e He]; congruence.
Qed.

Lemma ptp_transaction_ids_witness :
  transaction (final (perform 1 third_call session_after_two)) = Some 2 /\
  carries 2 [MtpDriver.TYPE_COMMAND; MtpDriver.TYPE_DATA]
    (writes (trace (perform 1 third_call session_after_two))) /\
  writes (trace (perform 1 third_call session_after_two)) <> [] /\
  sends 2 [MtpDriver.TYPE_COMMAND; MtpDriver.TYPE_DATA]
    (writes (trace (perform 1 third_call session_after_two))).
Proof.
  destruct (ptp_transaction_ids 1 two_calls third_call session_start
              session_after_two eq_refl eq_refl) as (Ht & Hc & Hn & Hx).
  assert (Hfit : call_fits third_call)
    by (cbn; repeat split; try lia; repeat constructor; lia).
  assert (Hlt : len two_calls < 2 ^ 32) by (cbn; lia).
  split; [exact Ht|]. split; [exact Hc|].
  split; [exact (Hn Hfit Hlt)|].
  apply (Hx Hfit) with (n := 16) (rest := [Transfer 13]);
    [cbn; lia | exact Hlt | reflexivity].
Defined.

(** ** The first command of a driver *)

(** C1, as the code has it.  On a driver that has sent no command yet (it
    has no [transaction] attribute), with a device that takes the Command
    packet and answers with a Response packet of type 3, code 0x2001 and
    transaction 0, [sendCommand(0x1001, [5])] returns 0x2001, writes one
    packet, the Command packet with transaction id 0, and leaves the
    counter at 0. *)
Theorem ptp_first_command (fuel : nat) (s : driver) (n : Z)
    (out' : list (reply Z)) (d : bytes) (in' : list (reply bytes))
    (h : PtpHeader.tuple) :
  transaction s = None ->
  bulk_out (dev s) = Transfer n :: out' ->
  bulk_in (dev s) = Transfer d :: in' ->
  PtpHeader.unpack d = Ok h ->
  PtpHeader.type h = 3 ->
  PtpHeader.code h = 0x2001 ->
  PtpHeader.transaction h = 0 ->
  PtpHeader.size h <= 512 ->
  (0 < fuel)%nat ->
  outcome (MtpDriver.sendCommand fuel 0x1001 [5] s) = Some (Ok 0x2001) /\
  transaction (final (MtpDriver.sendCommand fuel 0x1001 [5] s)) = Some 0 /\
  writes (trace (MtpDriver.sendCommand fuel 0x1001 [5] s)) =
    [first_command_packet] /\
  ptp_packet MtpDriver.TYPE_COMMAND 0 first_command_packet.
Proof.
  intros H0 Hout Hin Hh Hty Hcode _ Hsize Hfuel.
  assert (Hid : next_id s = 0) by (unfold next_id; now rewrite H0).
  set (s' := write_done (with_transaction s 0) out').
  assert (Hw : MtpDriver._writeInitialCommand 0x1001 [5] s =
               (Some (Ok tt), s', [Write (epOut s) first_command_packet])).
  { rewrite writeInitialCommand_run, Hid.
    change (MtpDriver.join_dump32le [5]) with (Ok [x05; x00; x00; x00]).
    rewrite bind_lift_ok. unfold MtpDriver._writePtp.
    change (PtpHeader.pack _)
      with (Ok [x10; x00; x00; x00; x01; x00; x01; x10; x00; x00; x00; x00]).
    rewrite bind_lift_ok.
    rewrite (bind_ok _ _ _ _ _ _
               (write_transfer _ (with_transaction s 0) n out' Hout)).
    reflexivity. }
  assert (Hr : MtpDriver._readPtp fuel s' =
               (Some (Ok (3, 0x2001, PtpHeader.transaction h,
                          slice d 12 (12 + PtpHeader.size h))),
                read_done s' in', [Read (epIn s) 512])).
  { destruct (readPtp_after_loop fuel s' (read_done s' in')
                [Read (epIn s) 512] d h) as [Hshort _].
    - apply (while_empty_run 0 fuel s' d in' Hin (unpack_nonempty _ _ Hh) Hfuel).
    - exact Hh.
    - rewrite <- Hty, <- Hcode. now apply Hshort. }
  unfold MtpDriver.sendCommand.
  rewrite (bind_ok _ _ _ _ _ _ Hw). unfold MtpDriver._readResponse.
  rewrite (bind_ok _ _ _ _ _ _ Hr).
  split; [reflexivity|]. split; [reflexivity|]. split; [reflexivity|].
  exists (PtpHeader.mk 16 1 0x1001 0). split; [reflexivity|]. now split.
Qed.

Lemma ptp_first_command_witness :
  outcome (MtpDriver.sendCommand 1 0x1001 [5] first_command_device) =
    Some (Ok 0x2001) /\
  transaction (final (MtpDriver.sendCommand 1 0x1001 [5]
                        first_command_device)) = Some 0 /\
  writes (trace (MtpDriver.sendCommand 1 0x1001 [5] first_command_device)) =
    [first_command_packet] /\
  ptp_packet MtpDriver.TYPE_COMMAND 0 first_command_packet.
Proof.
  apply (ptp_first_command 1 first_command_device 16 []
           (ptp_packet_bytes 3 0x2001 0 []) []
           (PtpHeader.mk 12 3 0x2001 0));
    try reflexivity; simpl; lia.
Defined.

(** C1 with a counter of 1 fails on the scenario's own device: the call does
    return 0x2001, but the counter it leaves is not 1. *)
Lemma first_ptp_command_counter_is_not_1 :
  ~ (outcome (MtpDriver.sendCommand 1 0x1001 [5] first_command_device) =
       Some (Ok 0x2001) /\
     transaction (final (MtpDriver.sendCommand 1 0x1001 [5]
                           first_command_device)) = Some 1).
Proof.
  intros [_ H]. vm_compute in H. discriminate.
Qed.

(** * Further properties of the module *)

(** ** Finding the endpoints and listing the devices *)

Lemma matches_true type direction ep :
  UsbDriverSetup.matches type direction ep = true <->
  UsbDriverSetup.bmAttributes ep = type /\
  Z.land (UsbDriverSetup.bEndpointAddress ep) 1 = direction.
Proof.
  unfold UsbDriverSetup.matches, UsbDriverSetup.USB_ENDPOINT_MASK.
  now rewrite andb_true_iff, !Z.eqb_eq.
Qed.

Lemma findEndpoint_found interface type direction a :
  UsbDriverSetup._findEndpoint interface type direction = Ok a <->
  exists before ep after,
    interface = before ++ ep :: after /\
    Forall (fun e => UsbDriverSetup.matches type direction e = false) before /\
    UsbDriverSetup.matches type direction ep = true /\
    a = UsbDriverSetup.bEndpointAddress ep.
Proof.
  induction interface as [|e interface IH]; cbn [UsbDriverSetup._findEndpoint].
  - split; [discriminate|]. intros ([|? ?] & ? & ? & H & _); discriminate.
  - destruct (UsbDriverSetup.matches type direction e) eqn:E.
    + split.
      * intros [= <-]. now exists [], e, interface.
      * intros ([|e' before] & ep & after & H & Hb & Hm & ->).
        -- now injection H as -> _.
        -- injection H as -> _. inversion Hb; congruence.
    + rewrite IH. split.
      * intros (before & ep & after & -> & Hb & Hm & ->).
        exists (e :: before), ep, after. repeat split; auto.
      * intros ([|e' before] & ep & after & H & Hb & Hm & ->).
        -- injection H as -> _. congruence.
        -- injection H as -> ->. inversion Hb; subst.
           now exists before, ep, after.
Qed.

Lemma findEndpoint_missing interface type direction e :
  UsbDriverSetup._findEndpoint interface type direction = Raise e <->
  e = Exception "No endpoint found" /\
  Forall (fun ep => UsbDriverSetup.matches type direction ep = false) interface.
Proof.
  induction interface as [|ep interface IH]; cbn [UsbDriverSetup._findEndpoint].
  - split; [intros [= <-]; now split | now intros [-> _]].
  - destruct (UsbDriverSetup.matches type direction ep) eqn:E.
    + split; [discriminate|]. intros [_ H]. inversion H; congruence.
    + rewrite IH. split; intros [-> H]; split; auto. now inversion H.
Qed.

(** X1. _findEndpoint returns the address of the first endpoint, in
    descriptor order, whose bmAttributes equal the type asked for and whose
    address has the asked direction in its lowest bit; it raises 'No endpoint
    found', and nothing else, exactly when no endpoint is like that. *)
Theorem findEndpoint_first_match
    (interface : list UsbDriverSetup.Endpoint) (type direction : Z) :
  (forall a,
      UsbDriverSetup._findEndpoint interface type direction = Ok a <->
      exists before ep after,
        interface = before ++ ep :: after /\
        Forall (fun e =>
                  ~ (UsbDriverSetup.bmAttributes e = type /\
                     Z.land (UsbDriverSetup.bEndpointAddress e) 1 = direction))
          before /\
        UsbDriverSetup.bmAttributes ep = type /\
        Z.land (UsbDriverSetup.bEndpointAddress ep) 1 = direction /\
        a = UsbDriverSetup.bEndpointAddress ep) /\
  (forall e,
      UsbDriverSetup._findEndpoint interface type direction = Raise e <->
      e = Exception "No endpoint found" /\
      Forall (fun ep =>
                ~ (UsbDriverSetup.bmAttributes ep = type /\
                   Z.land (UsbDriverSetup.bEndpointAddress ep) 1 = direction))
        interface).
Proof.
  assert (Hno : forall l,
             Forall (fun e => UsbDriverSetup.matches type direction e = false) l <->
             Forall (fun e =>
                       ~ (UsbDriverSetup.bmAttributes e = type /\
                          Z.land (UsbDriverSetup.bEndpointAddress e) 1 =
                          direction)) l).
  { intro l. rewrite !Forall_forall. split; intros H e He; specialize (H e He).
    - rewrite <- matches_true. congruence.
    - rewrite <- matches_true in H.
      now destruct (UsbDriverSetup.matches type direction e). }
  split.
  - intro a. rewrite findEndpoint_found. split.
    + intros (before & ep & after & -> & Hb & Hm & ->).
      apply matches_true in Hm as [H1 H2]. apply Hno in Hb.
      now exists before, ep, after.
    + intros (before & ep & after & -> & Hb & H1 & H2 & ->).
      exists before, ep, after. repeat split; [now apply Hno|].
      now apply matches_true.
  - intro e. now rewrite findEndpoint_missing, Hno.
Qed.

(** X2. When __init__ succeeds, the new driver holds the handle, has no
    transaction attribute, and its two endpoints are bulk endpoints of the
    interface, epIn with an odd address and epOut with an even one, so they
    differ.  It fails exactly when the interface has no bulk endpoint with an
    odd address or none with an even address, and then with 'No endpoint
    found'. *)
Theorem init_finds_two_different_endpoints
    (interface : list UsbDriverSetup.Endpoint) (handle : device) :
  (forall s,
      UsbDriverSetup.__init__ interface handle = Ok s ->
      dev s = handle /\ transaction s = None /\
      Z.land (epIn s) 1 = 1 /\ Z.land (epOut s) 1 = 0 /\
      epIn s <> epOut s /\
      In {| UsbDriverSetup.bmAttributes := 2;
            UsbDriverSetup.bEndpointAddress := epIn s |} interface /\
      In {| UsbDriverSetup.bmAttributes := 2;
            UsbDriverSetup.bEndpointAddress := epOut s |} interface) /\
  (forall e,
      UsbDriverSetup.__init__ interface handle = Raise e <->
      e = Exception "No endpoint found" /\
      (Forall (fun ep => UsbDriverSetup.matches 2 1 ep = false) interface \/
       Forall (fun ep => UsbDriverSetup.matches 2 0 ep = false) interface)).
Proof.
  unfold UsbDriverSetup.__init__, UsbDriverSetup.USB_ENDPOINT_TYPE_BULK,
    UsbDriverSetup.USB_ENDPOINT_IN, UsbDriverSetup.USB_ENDPOINT_OUT.
  assert (Hin : forall a direction,
             UsbDriverSetup._findEndpoint interface 2 direction = Ok a ->
             Z.land a 1 = direction /\
             In {| UsbDriverSetup.bmAttributes := 2;
                   UsbDriverSetup.bEndpointAddress := a |} interface).
  { intros a direction H.
    apply findEndpoint_found in H as (before & ep & after & -> & _ & Hm & ->).
    apply matches_true in Hm as [H1 H2]. split; [exact H2|].
    apply in_or_app. right. left. destruct ep; cbn in *. now subst. }
  split.
  - intros s H.
    destruct (UsbDriverSetup._findEndpoint interface 2 1) as [i|e] eqn:Ei;
      [|discriminate].
    destruct (UsbDriverSetup._findEndpoint interface 2 0) as [o|e] eqn:Eo;
      [|discriminate].
    injection H as <-. cbn [dev transaction epIn epOut].
    destruct (Hin _ _ Ei) as [Hi1 Hi2]. destruct (Hin _ _ Eo) as [Ho1 Ho2].
    repeat split; auto. intros ->. congruence.
  - intro e.
    destruct (UsbDriverSetup._findEndpoint interface 2 1) as [i|e1] eqn:Ei.
    + destruct (UsbDriverSetup._findEndpoint interface 2 0) as [o|e0] eqn:Eo.
      * split; [discriminate|]. intros [_ [H|H]].
        -- assert (X : UsbDriverSetup._findEndpoint interface 2 1 =
                       Raise (Exception "No endpoint found"))
             by now apply findEndpoint_missing.
           congruence.
        -- assert (X : UsbDriverSetup._findEndpoint interface 2 0 =
                       Raise (Exception "No endpoint found"))
             by now apply findEndpoint_missing.
           congruence.
      * apply findEndpoint_missing in Eo as [-> Ho]. split.
        -- intros [= <-]. split; auto.
        -- now intros [-> _].
    + apply findEndpoint_missing in Ei as [-> Hi]. split.
      * intros [= <-]. split; auto.
      * now intros [-> _].
Qed.

(** X3. listDevices yields, in the order they were found, the devices that
    have at least one interface in some configuration, each with its own
    vendor and product ids and the class of its first interface; a device is
    left out exactly when all its configurations are empty. *)
Theorem listDevices_lists_the_devices_with_an_interface
    (found : list Listing.Device) :
  map Listing.handle (Listing.listDevices found) =
    filter (fun dev =>
              match Listing.first_interface dev with
              | Some _ => true
              | None => false
              end) found /\
  Forall (fun u =>
            Listing.vendor u = Listing.idVendor (Listing.handle u) /\
            Listing.product u = Listing.idProduct (Listing.handle u) /\
            exists interface,
              Listing.first_interface (Listing.handle u) = Some interface /\
              Listing.type u = Listing.bInterfaceClass interface)
    (Listing.listDevices found) /\
  (forall dev,
      Listing.first_interface dev = None <->
      Forall (fun config => config = []) (Listing.configurations dev)).
Proof.
  split; [|split].
  - induction found as [|dev found IH]; cbn [Listing.listDevices filter map];
      [reflexivity|].
    destruct (Listing.first_interface dev); cbn [map Listing.handle];
      now rewrite IH.
  - induction found as [|dev found IH]; cbn [Listing.listDevices];
      [constructor|].
    destruct (Listing.first_interface dev) as [i|] eqn:E; [|exact IH].
    constructor; [|exact IH]. cbn. repeat split. now exists i.
  - intro dev. unfold Listing.first_interface.
    induction (Listing.configurations dev) as [|config configs IH]; cbn.
    + split; [constructor | reflexivity].
    + destruct config as [|i config]; cbn.
      * rewrite IH. split; [now constructor | now inversion 1].
      * split; [discriminate | inversion 1; discriminate].
Qed.

(** ** The three mass-storage operations on a device that goes along *)

(** The CBW of a public operation, for a command of at most 16 bytes: it
    packs, and decodes to the fields the operation passes. *)
Lemma public_cbw_decodes direction command dataSize :
  0 <= direction < 2 ^ 8 ->
  (List.length command <= 16)%nat ->
  0 <= dataSize < 2 ^ 32 ->
  exists w,
    MscCommandBlockWrapper.pack
      {| MscCommandBlockWrapper.signature := MscDriver.USBC;
         MscCommandBlockWrapper.tag := 0;
         MscCommandBlockWrapper.dataTransferLength := dataSize;
         MscCommandBlockWrapper.flags := direction;
         MscCommandBlockWrapper.lun := 0;
         MscCommandBlockWrapper.commandLength := len command;
         MscCommandBlockWrapper.command := ljust0 command 16 |} = Ok w /\
    MscCommandBlockWrapper.unpack w =
      Ok {| MscCommandBlockWrapper.signature := MscDriver.USBC;
            MscCommandBlockWrapper.tag := 0;
            MscCommandBlockWrapper.dataTransferLength := dataSize;
            MscCommandBlockWrapper.flags := direction;
            MscCommandBlockWrapper.lun := 0;
            MscCommandBlockWrapper.commandLength := len command;
            MscCommandBlockWrapper.command :=
              command ++ repeat x00 (16 - List.length command) |}.
Proof.
  intros Hd Hc Hs.
  destruct (pack_public_cbw direction command dataSize Hd) as [w Hw];
    [unfold len; lia | exact Hs |].
  exists w. split; [exact Hw|].
  destruct (CBW_unpack_pack _ _ Hw) as [_ U]. specialize (U []).
  rewrite app_nil_r in U. rewrite U.
  cbn [MscCommandBlockWrapper.signature MscCommandBlockWrapper.tag
       MscCommandBlockWrapper.dataTransferLength MscCommandBlockWrapper.flags
       MscCommandBlockWrapper.lun MscCommandBlockWrapper.commandLength
       MscCommandBlockWrapper.command].
  rewrite (cut_fill_exact 16 (ljust0 command 16))
    by (unfold ljust0; rewrite length_app, repeat_length; lia).
  reflexivity.
Qed.

Lemma len_nonneg {A} (l : list A) : 0 <= len l.
Proof. unfold len. lia. Qed.

Section MscOperations.
Context {SD : SenseData}.

(** A status read from a device whose next reply is a good status block. *)
Lemma readResponse_good depth f s d rest r :
  bulk_in (dev s) = Transfer d :: rest ->
  MscCommandStatusWrapper.unpack d = Ok r ->
  MscCommandStatusWrapper.signature r = MscDriver.USBS ->
  MscCommandStatusWrapper.status r = 0 ->
  MscDriver._readResponse (S depth) f s =
  (Some (Ok MSC_SENSE_OK), read_done s rest, [Read (epIn s) 13]).
Proof.
  intros Hin Hr Hsig Hst. rewrite (readResponse_run _ _ _ _ _ _ Hin Hr).
  apply bytes_eqb_true in Hsig. now rewrite Hsig, Hst.
Qed.

(** X4. sendCommand has no data phase: its CBW announces 0 bytes and the
    direction 0, and what follows the CBW on the device is the status read.
    On a good status block the call returns [MSC_SENSE_OK] after exactly one
    write and one read of 13 bytes. *)
Theorem msc_sendCommand_has_no_data_phase (depth : nat) (command : bytes)
    (failOnError : bool) (s : driver) (n : Z) (out' : list (reply Z)) :
  (List.length command <= 16)%nat ->
  bulk_out (dev s) = Transfer n :: out' ->
  exists cbw,
    MscCommandBlockWrapper.unpack cbw =
      Ok {| MscCommandBlockWrapper.signature := MscDriver.USBC;
            MscCommandBlockWrapper.tag := 0;
            MscCommandBlockWrapper.dataTransferLength := 0;
            MscCommandBlockWrapper.flags := 0;
            MscCommandBlockWrapper.lun := 0;
            MscCommandBlockWrapper.commandLength := len command;
            MscCommandBlockWrapper.command :=
              command ++ repeat x00 (16 - List.length command) |} /\
    trace (MscDriver.sendCommand depth command failOnError s) =
      Write (epOut s) cbw ::
      trace (MscDriver._readResponse depth failOnError (write_done s out')) /\
    forall d in' r,
      bulk_in (dev s) = Transfer d :: in' ->
      MscCommandStatusWrapper.unpack d = Ok r ->
      MscCommandStatusWrapper.signature r = MscDriver.USBS ->
      MscCommandStatusWrapper.status r = 0 ->
      MscDriver.sendCommand (S depth) command failOnError s =
      (Some (Ok MSC_SENSE_OK), read_done (write_done s out') in',
       [Write (epOut s) cbw; Read (epIn s) 13]).
Proof.
  intros Hc Hout.
  destruct (public_cbw_decodes MscDriver.DIRECTION_WRITE command 0)
    as (w & Hw & Hu); [unfold MscDriver.DIRECTION_WRITE; lia | exact Hc | lia |].
  exists w. split; [exact Hu|].
  pose proof (writeCommand_ok _ _ _ _ _ s _ _ _ Hw Hout) as Hrun.
  split.
  - unfold MscDriver.sendCommand. now rewrite (bind_ok _ _ _ _ _ _ Hrun).
  - intros d in' r Hin Hr Hsig Hst. unfold MscDriver.sendCommand.
    rewrite (bind_ok _ _ _ _ _ _ Hrun).
    now rewrite (readResponse_good depth failOnError (write_done s out')
                   d in' r Hin Hr Hsig Hst).
Qed.

(** X5. sendWriteCommand on a device that takes the CBW and the data and
    answers with a good status block: the CBW announces the length of the
    data and the direction 0, the data is written as it is, and the call
    returns [MSC_SENSE_OK] after these two writes and one read of 13 bytes,
    with no halt cleared. *)
Theorem msc_sendWriteCommand_on_success (depth : nat) (command data : bytes)
    (failOnError : bool) (s : driver) (n m : Z) (out' : list (reply Z))
    (d : bytes) (in' : list (reply bytes))
    (r : MscCommandStatusWrapper.tuple) :
  (List.length command <= 16)%nat ->
  len data < 2 ^ 32 ->
  bulk_out (dev s) = Transfer n :: Transfer m :: out' ->
  bulk_in (dev s) = Transfer d :: in' ->
  MscCommandStatusWrapper.unpack d = Ok r ->
  MscCommandStatusWrapper.signature r = MscDriver.USBS ->
  MscCommandStatusWrapper.status r = 0 ->
  exists cbw,
    MscCommandBlockWrapper.unpack cbw =
      Ok {| MscCommandBlockWrapper.signature := MscDriver.USBC;
            MscCommandBlockWrapper.tag := 0;
            MscCommandBlockWrapper.dataTransferLength := len data;
            MscCommandBlockWrapper.flags := 0;
            MscCommandBlockWrapper.lun := 0;
            MscCommandBlockWrapper.commandLength := len command;
            MscCommandBlockWrapper.command :=
              command ++ repeat x00 (16 - List.length command) |} /\
    MscDriver.sendWriteCommand (S depth) command data failOnError s =
    (Some (Ok MSC_SENSE_OK), read_done (write_done s out') in',
     [Write (epOut s) cbw; Write (epOut s) data; Read (epIn s) 13]).
Proof.
  intros Hc Hd Hout Hin Hr Hsig Hst.
  destruct (public_cbw_decodes MscDriver.DIRECTION_WRITE command (len data))
    as (w & Hw & Hu);
    [unfold MscDriver.DIRECTION_WRITE; lia | exact Hc
    | split; [apply len_nonneg | exact Hd] |].
  exists w. split; [exact Hu|].
  rewrite (sendWriteCommand_after_cbw _ _ _ _ _ _ _
             (writeCommand_ok _ _ _ _ _ s _ _ _ Hw Hout)).
  change (bulk_out (dev (write_done s (Transfer m :: out'))))
    with (Transfer m :: out').
  cbv beta iota zeta.
  now rewrite (readResponse_good depth failOnError
                 (write_done (write_done s (Transfer m :: out')) out')
                 d in' r Hin Hr Hsig Hst).
Qed.

(** X6. sendReadCommand on a device that takes the CBW, sends [data] and
    then a good status block: the CBW announces [size] bytes and the
    direction 0x80, and the call returns [MSC_SENSE_OK] with exactly the
    bytes the device sent, however many they are, after one write and two
    reads (of [size] and of 13 bytes). *)
Theorem msc_sendReadCommand_on_success (depth : nat) (command : bytes)
    (size : Z) (failOnError : bool) (s : driver) (n : Z)
    (out' : list (reply Z)) (data d : bytes) (in' : list (reply bytes))
    (r : MscCommandStatusWrapper.tuple) :
  (List.length command <= 16)%nat ->
  0 <= size < 2 ^ 32 ->
  bulk_out (dev s) = Transfer n :: out' ->
  bulk_in (dev s) = Transfer data :: Transfer d :: in' ->
  MscCommandStatusWrapper.unpack d = Ok r ->
  MscCommandStatusWrapper.signature r = MscDriver.USBS ->
  MscCommandStatusWrapper.status r = 0 ->
  exists cbw,
    MscCommandBlockWrapper.unpack cbw =
      Ok {| MscCommandBlockWrapper.signature := MscDriver.USBC;
            MscCommandBlockWrapper.tag := 0;
            MscCommandBlockWrapper.dataTransferLength := size;
            MscCommandBlockWrapper.flags := 0x80;
            MscCommandBlockWrapper.lun := 0;
            MscCommandBlockWrapper.commandLength := len command;
            MscCommandBlockWrapper.command :=
              command ++ repeat x00 (16 - List.length command) |} /\
    MscDriver.sendReadCommand (S depth) command size failOnError s =
    (Some (Ok (MSC_SENSE_OK, Some data)), read_done (write_done s out') in',
     [Write (epOut s) cbw; Read (epIn s) size; Read (epIn s) 13]).
Proof.
  intros Hc Hs Hout Hin Hr Hsig Hst.
  destruct (public_cbw_decodes MscDriver.DIRECTION_READ command size)
    as (w & Hw & Hu);
    [unfold MscDriver.DIRECTION_READ; lia | exact Hc | exact Hs |].
  exists w. split; [exact Hu|]. unfold MscDriver.sendReadCommand.
  rewrite (sendReadCommand_after_cbw _ _ _ _ _ _ _
             (writeCommand_ok _ _ _ _ _ s _ _ _ Hw Hout)).
  change (bulk_in (dev (write_done s out'))) with (bulk_in (dev s)).
  rewrite Hin. cbv zeta.
  now rewrite (readResponse_good depth failOnError
                 (read_done (write_done s out') (Transfer d :: in'))
                 d in' r eq_refl Hr Hsig Hst).
Qed.

End MscOperations.

Lemma msc_sendCommand_has_no_data_phase_witness :
  exists cbw,
    @MscDriver.sendCommand TripleSense 2 test_unit_ready false
      (device_of [Transfer (csw 0)] [Transfer 31]) =
    (Some (Ok (0, 0, 0)), device_of [] [],
     [Write 0x02 cbw; Read 0x81 13]).
Proof.
  destruct (@msc_sendCommand_has_no_data_phase TripleSense 1 test_unit_ready
              false (device_of [Transfer (csw 0)] [Transfer 31]) 31 [])
    as (cbw & _ & _ & H); [simpl; lia | reflexivity |].
  exists cbw.
  exact (H (csw 0) [] (MscCommandStatusWrapper.mk MscDriver.USBS 0 0 0)
           eq_refl eq_refl eq_refl eq_refl).
Defined.

Lemma msc_sendWriteCommand_on_success_witness :
  exists cbw,
    @MscDriver.sendWriteCommand TripleSense 2 ten_byte_command [x01; x02]
      false (device_of [Transfer (csw 0)] [Transfer 31; Transfer 2]) =
    (Some (Ok (0, 0, 0)), device_of [] [],
     [Write 0x02 cbw; Write 0x02 [x01; x02]; Read 0x81 13]).
Proof.
  destruct (@msc_sendWriteCommand_on_success TripleSense 1 ten_byte_command
              [x01; x02] false
              (device_of [Transfer (csw 0)] [Transfer 31; Transfer 2])
              31 2 [] (csw 0) []
              (MscCommandStatusWrapper.mk MscDriver.USBS 0 0 0))
    as (cbw & _ & H); try reflexivity; try (simpl; lia).
  now exists cbw.
Defined.

Lemma msc_sendReadCommand_on_success_witness :
  exists cbw,
    @MscDriver.sendReadCommand TripleSense 2 request_sense_bytes 18 false
      (device_of [Transfer sense_buffer; Transfer (csw 0)] [Transfer 31]) =
    (Some (Ok ((0, 0, 0), Some sense_buffer)), device_of [] [],
     [Write 0x02 cbw; Read 0x81 18; Read 0x81 13]).
Proof.
  destruct (@msc_sendReadCommand_on_success TripleSense 1 request_sense_bytes
              18 false
              (device_of [Transfer sense_buffer; Transfer (csw 0)]
                 [Transfer 31])
              31 [] sense_buffer (csw 0) []
              (MscCommandStatusWrapper.mk MscDriver.USBS 0 0 0))
    as (cbw & _ & H); try reflexivity; try (simpl; lia).
  now exists cbw.
Defined.

(** ** Errors of the mass-storage operations *)

(** The three ways the command phase can end. *)
Lemma writeCommand_cases direction command dataSize tag lun s :
  (exists e,
      MscDriver._writeCommand direction command dataSize tag lun s =
      (Some (Raise e), s, [])) \/
  (exists w s1,
      MscDriver._writeCommand direction command dataSize tag lun s =
      (Some (Raise USBError), s1, [Write (epOut s) w])) \/
  (exists w n out',
      bulk_out (dev s) = Transfer n :: out' /\
      MscDriver._writeCommand direction command dataSize tag lun s =
      (Some (Ok tt), write_done s out', [Write (epOut s) w])).
Proof.
  rewrite writeCommand_run.
  destruct (MscCommandBlockWrapper.pack _) as [w|e]; [|left; now exists e].
  right. destruct (bulk_out (dev s)) as [|[|n] out'].
  - left. now exists w, s.
  - left. now exists w, (write_done s out').
  - right. now exists w, n, out'.
Qed.

Lemma writeCommand_stalled direction command dataSize tag lun s w out' :
  MscCommandBlockWrapper.pack
    {| MscCommandBlockWrapper.signature := MscDriver.USBC;
       MscCommandBlockWrapper.tag := tag;
       MscCommandBlockWrapper.dataTransferLength := dataSize;
       MscCommandBlockWrapper.flags := direction;
       MscCommandBlockWrapper.lun := lun;
       MscCommandBlockWrapper.commandLength := len command;
       MscCommandBlockWrapper.command := ljust0 command 16 |} = Ok w ->
  bulk_out (dev s) = USBErr :: out' ->
  MscDriver._writeCommand direction command dataSize tag lun s =
  (Some (Raise USBError), write_done s out', [Write (epOut s) w]).
Proof. intros Hp Ho. now rewrite writeCommand_run, Hp, Ho. Qed.

Section MscErrors.
Context {SD : SenseData}.

Lemma readResponse_usb_error depth f s rest :
  bulk_in (dev s) = USBErr :: rest ->
  MscDriver._readResponse (S depth) f s =
  (Some (Raise USBError), read_done s rest, [Read (epIn s) 13]).
Proof.
  intro Hin. cbn [MscDriver._readResponse].
  now rewrite (bind_raise _ _ _ _ _ _ (read_stall _ s rest Hin)).
Qed.

(** X7. A USB error on the write of the CBW is not caught: each of the three
    operations raises it, and the CBW write is the only call it has made on
    the device (no data transfer, no halt cleared, no status read). *)
Theorem msc_command_phase_error_is_raised (depth : nat)
    (command data : bytes) (size : Z) (failOnError : bool) (s : driver)
    (out' : list (reply Z)) :
  len command < 2 ^ 8 ->
  len data < 2 ^ 32 ->
  0 <= size < 2 ^ 32 ->
  bulk_out (dev s) = USBErr :: out' ->
  (exists cbw,
      MscDriver.sendCommand depth command failOnError s =
      (Some (Raise USBError), write_done s out', [Write (epOut s) cbw])) /\
  (exists cbw,
      MscDriver.sendWriteCommand depth command data failOnError s =
      (Some (Raise USBError), write_done s out', [Write (epOut s) cbw])) /\
  (exists cbw,
      MscDriver.sendReadCommand depth command size failOnError s =
      (Some (Raise USBError), write_done s out', [Write (epOut s) cbw])).
Proof.
  intros Hc Hd Hs Hout.
  destruct (pack_public_cbw MscDriver.DIRECTION_WRITE command 0)
    as [w0 Hw0]; [unfold MscDriver.DIRECTION_WRITE; lia | exact Hc | lia |].
  destruct (pack_public_cbw MscDriver.DIRECTION_WRITE command (len data))
    as [w1 Hw1];
    [unfold MscDriver.DIRECTION_WRITE; lia | exact Hc
    | split; [apply len_nonneg | exact Hd] |].
  destruct (pack_public_cbw MscDriver.DIRECTION_READ command size)
    as [w2 Hw2]; [unfold MscDriver.DIRECTION_READ; lia | exact Hc | exact Hs |].
  split; [|split].
  - exists w0. unfold MscDriver.sendCommand.
    apply bind_raise. now apply writeCommand_stalled.
  - exists w1. unfold MscDriver.sendWriteCommand.
    apply bind_raise. now apply writeCommand_stalled.
  - exists w2. unfold MscDriver.sendReadCommand, MscDriver.sendReadCommand_.
    apply bind_raise. now apply writeCommand_stalled.
Qed.

(** X8. Only the data transfer is protected: when the data transfer stalls
    and the status read that follows raises a USB error as well, the
    operation raises that error, after having cleared one halt only, that of
    the data endpoint. *)
Theorem msc_status_error_after_stall_is_raised (depth : nat)
    (command data : bytes) (size : Z) (failOnError : bool) (sw sr : driver)
    (n m : Z) (out_w out_r : list (reply Z)) (in_w in_r : list (reply bytes)) :
  len command < 2 ^ 8 ->
  len data < 2 ^ 32 ->
  0 <= size < 2 ^ 32 ->
  bulk_out (dev sw) = Transfer n :: USBErr :: out_w ->
  bulk_in (dev sw) = USBErr :: in_w ->
  bulk_out (dev sr) = Transfer m :: out_r ->
  bulk_in (dev sr) = USBErr :: USBErr :: in_r ->
  (exists cbw,
      MscDriver.sendWriteCommand (S depth) command data failOnError sw =
      (Some (Raise USBError), read_done (write_done sw out_w) in_w,
       [Write (epOut sw) cbw; Write (epOut sw) data; ClearHalt (epOut sw);
        Read (epIn sw) 13])) /\
  (exists cbw,
      MscDriver.sendReadCommand (S depth) command size failOnError sr =
      (Some (Raise USBError), read_done (write_done sr out_r) in_r,
       [Write (epOut sr) cbw; Read (epIn sr) size; ClearHalt (epIn sr);
        Read (epIn sr) 13])).
Proof.
  intros Hc Hd Hs Hwo Hwi Hro Hri.
  destruct (pack_public_cbw MscDriver.DIRECTION_WRITE command (len data))
    as [w1 Hw1];
    [unfold MscDriver.DIRECTION_WRITE; lia | exact Hc
    | split; [apply len_nonneg | exact Hd] |].
  destruct (pack_public_cbw MscDriver.DIRECTION_READ command size)
    as [w2 Hw2]; [unfold MscDriver.DIRECTION_READ; lia | exact Hc | exact Hs |].
  split.
  - exists w1.
    rewrite (sendWriteCommand_after_cbw _ _ _ _ _ _ _
               (writeCommand_ok _ _ _ _ _ sw _ _ _ Hw1 Hwo)).
    change (bulk_out (dev (write_done sw (USBErr :: out_w))))
      with (USBErr :: out_w).
    cbv beta iota zeta.
    now rewrite (readResponse_usb_error depth failOnError
                   (write_done (write_done sw (USBErr :: out_w)) out_w)
                   in_w Hwi).
  - exists w2. unfold MscDriver.sendReadCommand.
    rewrite (sendReadCommand_after_cbw _ _ _ _ _ _ _
               (writeCommand_ok _ _ _ _ _ sr _ _ _ Hw2 Hro)).
    change (bulk_in (dev (write_done sr out_r))) with (bulk_in (dev sr)).
    rewrite Hri. cbv beta iota zeta.
    now rewrite (readResponse_usb_error depth failOnError
                   (read_done (write_done sr out_r) (USBErr :: in_r))
                   in_r eq_refl).
Qed.

End MscErrors.

Lemma msc_command_phase_error_is_raised_witness :
  (exists cbw,
      @MscDriver.sendCommand TripleSense 2 test_unit_ready false
        (device_of [Transfer (csw 0)] [USBErr]) =
      (Some (Raise USBError), device_of [Transfer (csw 0)] [],
       [Write 0x02 cbw])) /\
  (exists cbw,
      @MscDriver.sendWriteCommand TripleSense 2 test_unit_ready [x01] false
        (device_of [Transfer (csw 0)] [USBErr]) =
      (Some (Raise USBError), device_of [Transfer (csw 0)] [],
       [Write 0x02 cbw])) /\
  (exists cbw,
      @MscDriver.sendReadCommand TripleSense 2 test_unit_ready 18 false
        (device_of [Transfer (csw 0)] [USBErr]) =
      (Some (Raise USBError), device_of [Transfer (csw 0)] [],
       [Write 0x02 cbw])).
Proof.
  apply (@msc_command_phase_error_is_raised TripleSense 2 test_unit_ready
           [x01] 18 false (device_of [Transfer (csw 0)] [USBErr]) []);
    try reflexivity; simpl; lia.
Defined.

Lemma msc_status_error_after_stall_is_raised_witness :
  (exists cbw,
      @MscDriver.sendWriteCommand TripleSense 2 ten_byte_command [x01] false
        (device_of [USBErr] [Transfer 31; USBErr]) =
      (Some (Raise USBError), device_of [] [],
       [Write 0x02 cbw; Write 0x02 [x01]; ClearHalt 0x02; Read 0x81 13])) /\
  (exists cbw,
      @MscDriver.sendReadCommand TripleSense 2 ten_byte_command 18 false
        (device_of [USBErr; USBErr] [Transfer 31]) =
      (Some (Raise USBError), device_of [] [],
       [Write 0x02 cbw; Read 0x81 18; ClearHalt 0x81; Read 0x81 13])).
Proof.
  apply (@msc_status_error_after_stall_is_raised TripleSense 1
           ten_byte_command [x01] 18 false
           (device_of [USBErr] [Transfer 31; USBErr])
           (device_of [USBErr; USBErr] [Transfer 31]) 31 31 [] [] [] []);
    try reflexivity; simpl; lia.
Defined.

(** ** failOnError, the tag of the status block, and the nesting of calls *)

Section MscStrict.
Context {SD : SenseData}.

Lemma writeCommand_writes_at_most_one direction command dataSize tag lun s :
  (List.length
     (writes (trace (MscDriver._writeCommand direction command dataSize
                       tag lun s))) <= 1)%nat.
Proof.
  destruct (writeCommand_cases direction command dataSize tag lun s)
    as [(e & ->) | [(w & s1 & ->) | (w & n & out' & _ & ->)]]; cbn; lia.
Qed.

(** X9. With failOnError set, the only sense value an operation can return
    is [MSC_SENSE_OK], sendReadCommand never returns None as data, and no
    REQUEST SENSE is issued: sendCommand and sendReadCommand write at most
    their CBW, sendWriteCommand at most its CBW and the data. *)
Theorem msc_failOnError_returns_only_ok (depth : nat) (command data : bytes)
    (size : Z) (s : driver) :
  (forall sense,
      outcome (MscDriver.sendCommand depth command true s) =
        Some (Ok sense) -> sense = MSC_SENSE_OK) /\
  (forall sense,
      outcome (MscDriver.sendWriteCommand depth command data true s) =
        Some (Ok sense) -> sense = MSC_SENSE_OK) /\
  (forall sense got,
      outcome (MscDriver.sendReadCommand depth command size true s) =
        Some (Ok (sense, got)) ->
      sense = MSC_SENSE_OK /\ exists b, got = Some b) /\
  (List.length
     (writes (trace (MscDriver.sendCommand depth command true s))) <= 1)%nat /\
  (List.length
     (writes (trace (MscDriver.sendWriteCommand depth command data true s)))
   <= 2)%nat /\
  (List.length
     (writes (trace (MscDriver.sendReadCommand depth command size true s)))
   <= 1)%nat.
Proof.
  split; [|split; [|split; [|split; [|split]]]].
  - intros sense H. unfold MscDriver.sendCommand in H.
    rewrite outcome_bind in H.
    destruct (outcome (MscDriver._writeCommand _ _ _ _ _ s)) as [[u|e]|];
      try discriminate.
    now apply readResponse_strict_ok in H.
  - intros sense H.
    destruct (writeCommand_cases MscDriver.DIRECTION_WRITE command (len data)
                0 0 s)
      as [(e & Hw) | [(w & s1 & Hw) | (w & n & out' & _ & Hw)]];
      try (unfold MscDriver.sendWriteCommand in H;
           now rewrite (bind_raise _ _ _ _ _ _ Hw) in H).
    rewrite (sendWriteCommand_after_cbw _ _ _ _ _ _ _ Hw) in H.
    destruct (bulk_out (dev (write_done s out'))) as [|[|k] out''];
      cbv zeta in H; unfold outcome at 1 in H; cbn [fst] in H.
    + apply after_stall_returns in H as (x & Hx & Hne & ->).
      now apply readResponse_strict_ok in Hx.
    + apply after_stall_returns in H as (x & Hx & Hne & ->).
      now apply readResponse_strict_ok in Hx.
    + apply with_data_returns in H as (x & Hx & ->).
      now apply readResponse_strict_ok in Hx.
  - intros sense got H.
    destruct (writeCommand_cases MscDriver.DIRECTION_READ command size 0 0 s)
      as [(e & Hw) | [(w & s1 & Hw) | (w & n & out' & _ & Hw)]];
      try (unfold MscDriver.sendReadCommand, MscDriver.sendReadCommand_ in H;
           now rewrite (bind_raise _ _ _ _ _ _ Hw) in H).
    unfold MscDriver.sendReadCommand in H.
    rewrite (sendReadCommand_after_cbw _ _ _ _ _ _ _ Hw) in H.
    destruct (bulk_in (dev (write_done s out'))) as [|[|d] in'];
      cbv zeta in H; unfold outcome at 1 in H; cbn [fst] in H.
    + apply after_stall_returns in H as (x & Hx & Hne & E).
      apply readResponse_strict_ok in Hx. congruence.
    + apply after_stall_returns in H as (x & Hx & Hne & E).
      apply readResponse_strict_ok in Hx. congruence.
    + apply with_data_returns in H as (x & Hx & E).
      apply readResponse_strict_ok in Hx. injection E as -> ->.
      split; [exact Hx | now exists d].
  - unfold MscDriver.sendCommand. rewrite trace_bind, writes_app, length_app.
    pose proof (writeCommand_writes_at_most_one MscDriver.DIRECTION_WRITE
                  command 0 0 0 s).
    destruct (outcome _) as [[u|e]|];
      rewrite ?readResponse_strict_silent; cbn [writes List.length]; lia.
  - destruct (writeCommand_cases MscDriver.DIRECTION_WRITE command (len data)
                0 0 s)
      as [(e & Hw) | [(w & s1 & Hw) | (w & n & out' & _ & Hw)]];
      try (unfold MscDriver.sendWriteCommand;
           rewrite (bind_raise _ _ _ _ _ _ Hw); cbn; lia).
    rewrite (sendWriteCommand_after_cbw _ _ _ _ _ _ _ Hw).
    destruct (bulk_out (dev (write_done s out'))) as [|[|k] out''];
      cbv zeta; unfold trace at 1; cbn [snd app writes List.length];
      rewrite readResponse_strict_silent; cbn; lia.
  - destruct (writeCommand_cases MscDriver.DIRECTION_READ command size 0 0 s)
      as [(e & Hw) | [(w & s1 & Hw) | (w & n & out' & _ & Hw)]];
      try (unfold MscDriver.sendReadCommand, MscDriver.sendReadCommand_;
           rewrite (bind_raise _ _ _ _ _ _ Hw); cbn; lia).
    unfold MscDriver.sendReadCommand.
    rewrite (sendReadCommand_after_cbw _ _ _ _ _ _ _ Hw).
    destruct (bulk_in (dev (write_done s out'))) as [|[|d] in'];
      cbv zeta; unfold trace at 1; cbn [snd app writes List.length];
      rewrite readResponse_strict_silent; cbn; lia.
Qed.

(** X10. The status read looks at the signature and the status of the
    block and at nothing else: two devices that differ only in the tag and
    the residue of the status block they send give the same result, the same
    final state and the same calls. *)
Theorem msc_status_read_ignores_tag_and_residue (depth : nat)
    (failOnError : bool) (s : driver) (d d' : bytes)
    (rest : list (reply bytes)) (r r' : MscCommandStatusWrapper.tuple) :
  bulk_in (dev s) = Transfer d :: rest ->
  MscCommandStatusWrapper.unpack d = Ok r ->
  MscCommandStatusWrapper.unpack d' = Ok r' ->
  MscCommandStatusWrapper.signature r = MscCommandStatusWrapper.signature r' ->
  MscCommandStatusWrapper.status r = MscCommandStatusWrapper.status r' ->
  MscDriver._readResponse (S depth) failOnError s =
  MscDriver._readResponse (S depth) failOnError
    (read_done s (Transfer d' :: rest)).
Proof.
  intros Hin Hr Hr' Hsig Hst.
  rewrite (readResponse_run _ _ _ _ _ _ Hin Hr).
  rewrite (readResponse_run depth failOnError
             (read_done s (Transfer d' :: rest)) d' rest r' eq_refl Hr').
  now rewrite Hsig, Hst.
Qed.

Lemma bind_ext {A B} (m : M A) (k k' : A -> M B) (s : driver) :
  (forall a st, k a st = k' a st) -> bind m k s = bind m k' s.
Proof.
  intro H. unfold bind. destruct (m s) as [[[[a|e]|] s1] t1]; try reflexivity.
  now rewrite H.
Qed.

Lemma sendReadCommand_ext (rr rr' : bool -> M Sense) command size f s :
  (forall st, rr f st = rr' f st) ->
  MscDriver.sendReadCommand_ rr command size f s =
  MscDriver.sendReadCommand_ rr' command size f s.
Proof.
  intro H. unfold MscDriver.sendReadCommand_.
  apply bind_ext. intros _ st. apply bind_ext. intros [stalled got] st'.
  unfold bind. now rewrite H.
Qed.

(** X11. Status reads never nest more than two deep (REQUEST SENSE is not
    issued from inside a REQUEST SENSE), so every call of the three
    operations and of requestSense ends, with a result or an exception, and
    allowing deeper nesting changes nothing. *)
Theorem msc_calls_nest_two_deep_and_end (depth : nat) (command data : bytes)
    (size : Z) (failOnError : bool) (s : driver) :
  MscDriver.sendCommand (S (S depth)) command failOnError s =
    MscDriver.sendCommand 2 command failOnError s /\
  MscDriver.sendWriteCommand (S (S depth)) command data failOnError s =
    MscDriver.sendWriteCommand 2 command data failOnError s /\
  MscDriver.sendReadCommand (S (S depth)) command size failOnError s =
    MscDriver.sendReadCommand 2 command size failOnError s /\
  MscDriver.requestSense (S depth) s = MscDriver.requestSense 1 s /\
  outcome (MscDriver.sendCommand 2 command failOnError s) <> None /\
  outcome (MscDriver.sendWriteCommand 2 command data failOnError s) <> None /\
  outcome (MscDriver.sendReadCommand 2 command size failOnError s) <> None /\
  outcome (MscDriver.requestSense 1 s) <> None.
Proof.
  assert (Hrr : forall b st,
             MscDriver._readResponse (S (S depth)) b st =
             MscDriver._readResponse 2 b st)
    by (intros; apply readResponse_depth_enough).
  destruct (msc_calls_return 0 command data size failOnError s)
    as (R1 & R2 & R3).
  split; [|split; [|split; [|split; [|split; [|split; [|split]]]]]];
    try assumption.
  - unfold MscDriver.sendCommand. apply bind_ext. intros _ st. apply Hrr.
  - unfold MscDriver.sendWriteCommand. apply bind_ext. intros _ st.
    apply bind_ext. intros stalled st'. unfold bind. now rewrite Hrr.
  - unfold MscDriver.sendReadCommand. apply sendReadCommand_ext.
    intro st. apply Hrr.
  - rewrite !requestSense_run. cbv zeta.
    now rewrite (sendReadCommand_ext (MscDriver._readResponse (S depth))
                   (MscDriver._readResponse 1) request_sense_bytes 18 true s)
      by (intro st; apply readResponse_strict_depth).
  - apply requestSense_returns.
Qed.

End MscStrict.

Lemma msc_status_read_ignores_tag_and_residue_witness :
  @MscDriver._readResponse TripleSense 2 false
    (device_of [Transfer (csw_tagged 0 0 1); Transfer sense_buffer;
                Transfer (csw 0)] [Transfer 31]) =
  @MscDriver._readResponse TripleSense 2 false
    (device_of [Transfer (csw_tagged 0xdeadbeef 7 1); Transfer sense_buffer;
                Transfer (csw 0)] [Transfer 31]).
Proof.
  exact (@msc_status_read_ignores_tag_and_residue TripleSense 1 false
           (device_of [Transfer (csw_tagged 0 0 1); Transfer sense_buffer;
                       Transfer (csw 0)] [Transfer 31])
           (csw_tagged 0 0 1) (csw_tagged 0xdeadbeef 7 1)
           [Transfer sense_buffer; Transfer (csw 0)]
           (MscCommandStatusWrapper.mk MscDriver.USBS 0 0 1)
           (MscCommandStatusWrapper.mk MscDriver.USBS 0xdeadbeef 7 1)
           eq_refl eq_refl eq_refl eq_refl eq_refl).
Defined.

(** ** The endpoints a driver talks to *)

Lemma stays_bind {A B} (m : M A) (k : A -> M B) :
  stays_on_endpoints m -> (forall a, stays_on_endpoints (k a)) ->
  stays_on_endpoints (bind m k).
Proof.
  intros Hm Hk s. destruct (Hm s) as (Hi & Ho & Ht).
  rewrite final_bind, trace_bind.
  destruct (outcome (m s)) as [[a|e]|].
  - destruct (Hk a (final (m s))) as (Hi' & Ho' & Ht').
    rewrite Hi, Ho in Ht'. repeat split; try congruence.
    apply Forall_app. now split.
  - rewrite app_nil_r. now repeat split.
  - rewrite app_nil_r. now repeat split.
Qed.

Lemma stays_try {A} (m h : M A) :
  stays_on_endpoints m -> stays_on_endpoints h ->
  stays_on_endpoints (try_USBError m h).
Proof.
  intros Hm Hh s. destruct (Hm s) as (Hi & Ho & Ht).
  unfold try_USBError.
  destruct (m s) as [[[[a|e]|] s1] t1] eqn:E; try (now repeat split).
  destruct e; try (now repeat split).
  unfold final, trace in *. cbn [fst snd] in *.
  destruct (Hh s1) as (Hi' & Ho' & Ht'). rewrite Hi, Ho in Ht'.
  destruct (h s1) as [[r s2] t2]. cbn [fst snd final trace] in *.
  repeat split; try congruence. apply Forall_app. now split.
Qed.

Lemma stays_pure {A} (r : option (result A)) :
  stays_on_endpoints (fun s => (r, s, [])).
Proof. intro s. repeat split. constructor. Qed.

Lemma stays_read (length : Z) : stays_on_endpoints (UsbDriver.read length).
Proof.
  intro s. unfold UsbDriver.read.
  destruct (bulk_in (dev s)) as [|[|d] rest]; repeat split;
    repeat constructor.
Qed.

Lemma stays_write (data : bytes) : stays_on_endpoints (UsbDriver.write data).
Proof.
  intro s. unfold UsbDriver.write.
  destruct (bulk_out (dev s)) as [|[|n] rest]; repeat split;
    repeat constructor.
Qed.

Lemma stays_clear_halt_in : stays_on_endpoints (UsbDriver.clear_halt epIn).
Proof.
  intro s. split; [reflexivity|]. split; [reflexivity|].
  constructor; [now left | constructor].
Qed.

Lemma stays_clear_halt_out : stays_on_endpoints (UsbDriver.clear_halt epOut).
Proof.
  intro s. split; [reflexivity|]. split; [reflexivity|].
  constructor; [now right | constructor].
Qed.

Lemma stays_self_transaction : stays_on_endpoints MtpDriver.self_transaction.
Proof.
  intro s. unfold MtpDriver.self_transaction.
  destruct (transaction s); repeat split; constructor.
Qed.

Lemma stays_next_transaction : stays_on_endpoints MtpDriver.next_transaction.
Proof.
  intro s. unfold MtpDriver.next_transaction.
  destruct (transaction s); repeat split; constructor.
Qed.

Lemma stays_while_empty (fuel : nat) :
  forall data, stays_on_endpoints (MtpDriver.while_empty fuel data).
Proof.
  induction fuel as [|fuel IH]; intros [|b d]; cbn [MtpDriver.while_empty];
    try apply (stays_pure (Some (Ok _))); try apply (stays_pure None).
  apply stays_bind; [apply stays_read | exact IH].
Qed.

Ltac stay :=
  repeat
    match goal with
    | |- stays_on_endpoints (ret _) => apply (stays_pure (Some (Ok _)))
    | |- stays_on_endpoints (raise _) => apply (stays_pure (Some (Raise _)))
    | |- stays_on_endpoints (lift _) => apply (stays_pure (Some _))
    | |- stays_on_endpoints diverge => apply (stays_pure None)
    | |- stays_on_endpoints (UsbDriver.read _) => apply stays_read
    | |- stays_on_endpoints (UsbDriver.write _) => apply stays_write
    | |- stays_on_endpoints (UsbDriver.clear_halt epIn) =>
        apply stays_clear_halt_in
    | |- stays_on_endpoints (UsbDriver.clear_halt epOut) =>
        apply stays_clear_halt_out
    | |- stays_on_endpoints MtpDriver.self_transaction =>
        apply stays_self_transaction
    | |- stays_on_endpoints MtpDriver.next_transaction =>
        apply stays_next_transaction
    | |- stays_on_endpoints (MtpDriver.while_empty _ _) =>
        apply stays_while_empty
    | |- stays_on_endpoints (try_USBError _ _) => apply stays_try
    | |- stays_on_endpoints (bind _ _) => apply stays_bind; [|intro]
    | |- stays_on_endpoints (if ?b then _ else _) => destruct b
    | |- stays_on_endpoints (let '(_, _) := ?p in _) => destruct p
    end.

Lemma stays_writeCommand direction command dataSize tag lun :
  stays_on_endpoints
    (MscDriver._writeCommand direction command dataSize tag lun).
Proof. unfold MscDriver._writeCommand. stay. Qed.

Lemma stays_writePtp type code transaction data :
  stays_on_endpoints (MtpDriver._writePtp type code transaction data).
Proof. unfold MtpDriver._writePtp. stay. Qed.

Lemma stays_readPtp fuel : stays_on_endpoints (MtpDriver._readPtp fuel).
Proof. unfold MtpDriver._readPtp. stay. Qed.

Lemma stays_ptp_readData fuel : stays_on_endpoints (MtpDriver._readData fuel).
Proof.
  unfold MtpDriver._readData.
  apply stays_bind; [apply stays_readPtp | intro]. stay.
Qed.

Lemma stays_ptp_readResponse fuel :
  stays_on_endpoints (MtpDriver._readResponse fuel).
Proof.
  unfold MtpDriver._readResponse.
  apply stays_bind; [apply stays_readPtp | intro]. stay.
Qed.

Lemma stays_writeInitialCommand code args :
  stays_on_endpoints (MtpDriver._writeInitialCommand code args).
Proof.
  unfold MtpDriver._writeInitialCommand. stay. apply stays_writePtp.
Qed.

Section MscEndpoints.
Context {SD : SenseData}.

Lemma stays_sendReadCommand_ (rr : bool -> M Sense) command size f :
  (forall b, stays_on_endpoints (rr b)) ->
  stays_on_endpoints (MscDriver.sendReadCommand_ rr command size f).
Proof.
  intro Hrr. unfold MscDriver.sendReadCommand_.
  apply stays_bind; [apply stays_writeCommand | intro].
  stay. apply Hrr.
Qed.

Lemma stays_readResponse depth :
  forall f, stays_on_endpoints (MscDriver._readResponse depth f).
Proof.
  induction depth as [|depth IH]; intro f; cbn [MscDriver._readResponse].
  - apply (stays_pure None).
  - stay. unfold MscDriver.requestSense_. stay.
    now apply stays_sendReadCommand_.
Qed.

(** X12. Every operation of the two drivers leaves epIn and epOut as they
    were and makes all its calls on them: every read is on epIn, every write
    on epOut, and a halt is only ever cleared on one of the two. *)
Theorem operations_stay_on_the_two_endpoints (depth fuel : nat)
    (command data : bytes) (size code : Z) (args : list Z)
    (failOnError : bool) :
  stays_on_endpoints (MscDriver.sendCommand depth command failOnError) /\
  stays_on_endpoints
    (MscDriver.sendWriteCommand depth command data failOnError) /\
  stays_on_endpoints
    (MscDriver.sendReadCommand depth command size failOnError) /\
  stays_on_endpoints (MscDriver.requestSense depth) /\
  stays_on_endpoints (MtpDriver.sendCommand fuel code args) /\
  stays_on_endpoints (MtpDriver.sendWriteCommand fuel code args data) /\
  stays_on_endpoints (MtpDriver.sendReadCommand fuel code args).
Proof.
  split; [|split; [|split; [|split; [|split; [|split]]]]].
  - unfold MscDriver.sendCommand.
    apply stays_bind; [apply stays_writeCommand | intro].
    apply stays_readResponse.
  - unfold MscDriver.sendWriteCommand.
    apply stays_bind; [apply stays_writeCommand | intro].
    stay. apply stays_readResponse.
  - apply stays_sendReadCommand_, stays_readResponse.
  - unfold MscDriver.requestSense, MscDriver.requestSense_. stay.
    apply stays_sendReadCommand_, stays_readResponse.
  - unfold MtpDriver.sendCommand.
    apply stays_bind; [apply stays_writeInitialCommand | intro].
    apply stays_ptp_readResponse.
  - unfold MtpDriver.sendWriteCommand.
    apply stays_bind; [apply stays_writeInitialCommand | intro].
    stay; [apply stays_writePtp | apply stays_ptp_readResponse].
  - unfold MtpDriver.sendReadCommand.
    apply stays_bind; [apply stays_writeInitialCommand | intro].
    stay; [apply stays_ptp_readData | apply stays_ptp_readResponse].
Qed.

End MscEndpoints.

(** ** PTP packets: what is written can be read back *)

Lemma parsele_nonneg (bs : bytes) : 0 <= Struct.parsele bs.
Proof.
  induction bs as [|b bs IH]; cbn [Struct.parsele]; [lia|].
  pose proof (Z_of_byte_range b). lia.
Qed.

Lemma PtpHeader_unpack_size_nonneg (d : bytes) (h : PtpHeader.tuple) :
  PtpHeader.unpack d = Ok h -> 0 <= PtpHeader.size h.
Proof.
  unfold PtpHeader.unpack, Struct.unpack.
  destruct (len d <? Struct.size PtpHeader.layout); [discriminate|].
  cbn [map snd PtpHeader.layout Struct.unpack_fields Struct.unpack_field
       Struct.width].
  intros [= <-]. cbn [PtpHeader.size]. apply parsele_nonneg.
Qed.

(** One packet read from a device whose next reply holds the whole packet. *)
Lemma readPtp_one (fuel : nat) (s : driver) d rest h :
  bulk_in (dev s) = Transfer d :: rest ->
  PtpHeader.unpack d = Ok h ->
  PtpHeader.size h <= 512 ->
  (0 < fuel)%nat ->
  MtpDriver._readPtp fuel s =
  (Some (Ok (PtpHeader.type h, PtpHeader.code h, PtpHeader.transaction h,
             slice d 12 (12 + PtpHeader.size h))),
   read_done s rest, [Read (epIn s) 512]).
Proof.
  intros Hin Hh Hs Hf.
  pose proof (while_empty_run 0 fuel s d rest Hin (unpack_nonempty _ _ Hh) Hf)
    as Hloop.
  destruct (readPtp_after_loop fuel s _ _ d h Hloop Hh) as [Hshort _].
  now apply Hshort.
Qed.

(** X13. A packet written by _writePtp is read back by _readPtp: for fields
    that fit the header, the one write holds 12 + len(data) bytes; a reader
    that receives them in one read (up to 512 bytes), or split after the
    512th byte (above), returns the same type, code, transaction id and
    data. *)
Theorem ptp_packet_written_is_read_back (type code t : Z) (data : bytes)
    (sender : driver) :
  0 <= type < 2 ^ 16 ->
  0 <= code < 2 ^ 16 ->
  0 <= t < 2 ^ 32 ->
  12 + len data < 2 ^ 32 ->
  exists w,
    trace (MtpDriver._writePtp type code t data sender) =
      [Write (epOut sender) w] /\
    len w = 12 + len data /\
    (12 + len data <= 512 ->
     forall fuel receiver rest,
       bulk_in (dev receiver) = Transfer w :: rest ->
       MtpDriver._readPtp (S fuel) receiver =
       (Some (Ok (type, code, t, data)), read_done receiver rest,
        [Read (epIn receiver) 512])) /\
    (512 < 12 + len data ->
     forall fuel receiver rest,
       bulk_in (dev receiver) =
         Transfer (firstn 512 w) :: Transfer (skipn 512 w) :: rest ->
       MtpDriver._readPtp (S fuel) receiver =
       (Some (Ok (type, code, t, data)), read_done receiver rest,
        [Read (epIn receiver) 512;
         Read (epIn receiver) (12 + len data - 512)])).
Proof.
  intros Hty Hco Ht Hsz.
  set (h := {| PtpHeader.size := Struct.size PtpHeader.layout + len data;
               PtpHeader.type := type;
               PtpHeader.code := code;
               PtpHeader.transaction := t |}).
  destruct (PtpHeader_pack_valid h) as [hd Hhd].
  { unfold PtpHeader.valid, h.
    cbn [PtpHeader.size PtpHeader.type PtpHeader.code PtpHeader.transaction].
    change (Struct.size PtpHeader.layout) with 12.
    pose proof (len_nonneg data). lia. }
  destruct (PtpHeader_unpack_pack h hd Hhd) as [Lhd U].
  assert (Lhd' : List.length hd = 12%nat) by (unfold len in Lhd; lia).
  assert (Hskip : skipn 12 (hd ++ data) = data)
    by (rewrite <- Lhd'; apply skipn_length_app).
  exists (hd ++ data). split; [|split; [|split]].
  - unfold MtpDriver._writePtp. fold h. rewrite Hhd, bind_lift_ok.
    rewrite trace_bind, trace_write.
    now destruct (outcome (UsbDriver.write _ sender)) as [[k|e]|].
  - unfold len in *. rewrite length_app. lia.
  - intros Hshort fuel receiver rest Hin.
    rewrite (readPtp_one (S fuel) receiver (hd ++ data) rest h Hin (U data))
      by (cbn [PtpHeader.size h];
          change (Struct.size PtpHeader.layout) with 12; lia).
    cbn [PtpHeader.size PtpHeader.type PtpHeader.code PtpHeader.transaction h].
    change (Struct.size PtpHeader.layout) with 12.
    rewrite slice_whole
      by (unfold len in *; rewrite ?length_app; lia).
    change (Z.to_nat 12) with 12%nat. now rewrite Hskip.
  - intros Hlong fuel receiver rest Hin.
    assert (Hd1 : firstn 512 (hd ++ data) = hd ++ firstn 500 data).
    { rewrite firstn_app, Lhd'. rewrite firstn_all2 by lia. reflexivity. }
    assert (Hh1 : PtpHeader.unpack (firstn 512 (hd ++ data)) = Ok h)
      by (rewrite Hd1; apply U).
    pose proof (while_empty_run 0 (S fuel) receiver _ _ Hin
                  (unpack_nonempty _ _ Hh1) ltac:(lia)) as Hloop.
    destruct (readPtp_after_loop (S fuel) receiver _ _ _ h Hloop Hh1)
      as [_ Hl].
    rewrite (Hl ltac:(cbn [PtpHeader.size h];
                      change (Struct.size PtpHeader.layout) with 12; lia)
               (skipn 512 (hd ++ data)) rest eq_refl).
    + rewrite firstn_skipn, Hskip.
      cbn [PtpHeader.size PtpHeader.type PtpHeader.code
           PtpHeader.transaction h].
      reflexivity.
    + unfold len. rewrite length_firstn. lia.
    + cbn [PtpHeader.size h]. change (Struct.size PtpHeader.layout) with 12.
      unfold len in *. rewrite length_skipn, length_app. lia.
Qed.

Lemma ptp_packet_written_is_read_back_witness :
  exists w,
    trace (MtpDriver._writePtp 2 0x1008 3 (repeat x07 600)
             (device_of [] [Transfer 612])) = [Write 0x02 w] /\
    MtpDriver._readPtp 1
      (device_of [Transfer (firstn 512 w); Transfer (skipn 512 w)] []) =
    (Some (Ok (2, 0x1008, 3, repeat x07 600)), device_of [] [],
     [Read 0x81 512; Read 0x81 100]).
Proof.
  destruct (ptp_packet_written_is_read_back 2 0x1008 3 (repeat x07 600)
              (device_of [] [Transfer 612]))
    as (w & Hw & _ & _ & Hlong); try (simpl; lia).
  exists w. split; [exact Hw|].
  apply (Hlong ltac:(simpl; lia) 0%nat
           (device_of [Transfer (firstn 512 w); Transfer (skipn 512 w)] [])
           [] eq_refl).
Defined.

(** X14. The loop of _readPtp retries empty reads only: a USB error after
    any number of empty reads is raised at once, with no further read. *)
Theorem ptp_polling_stops_at_a_usb_error (fuel n : nat) (s : driver)
    (rest : list (reply bytes)) :
  bulk_in (dev s) = repeat (Transfer []) n ++ USBErr :: rest ->
  (n < fuel)%nat ->
  MtpDriver._readPtp fuel s =
  (Some (Raise USBError), read_done s rest, repeat (Read (epIn s) 512) (S n)).
Proof.
  intros Hin Hf. unfold MtpDriver._readPtp. apply bind_raise.
  revert fuel s Hin Hf.
  induction n as [|n IH]; intros fuel s Hin Hf;
    (destruct fuel as [|fuel]; [lia|]); cbn [MtpDriver.while_empty].
  - now rewrite (bind_raise _ _ _ _ _ _ (read_stall _ s rest Hin)).
  - cbn [repeat app] in Hin.
    rewrite (bind_ok _ _ _ _ _ _ (read_transfer _ s [] _ Hin)).
    rewrite (IH fuel (read_done s _) eq_refl ltac:(lia)).
    reflexivity.
Qed.

Lemma ptp_polling_stops_at_a_usb_error_witness :
  MtpDriver._readPtp 5
    (device_of [Transfer []; Transfer []; USBErr;
                Transfer (ptp_packet_bytes 3 0x2001 0 [])] []) =
  (Some (Raise USBError),
   device_of [Transfer (ptp_packet_bytes 3 0x2001 0 [])] [],
   [Read 0x81 512; Read 0x81 512; Read 0x81 512]).
Proof.
  apply (ptp_polling_stops_at_a_usb_error 5 2
           (device_of [Transfer []; Transfer []; USBErr;
                       Transfer (ptp_packet_bytes 3 0x2001 0 [])] [])
           [Transfer (ptp_packet_bytes 3 0x2001 0 [])] eq_refl).
  lia.
Defined.

(** X15. When the first non-empty read declares a size S of at most 512,
    the body that _readPtp returns is the slice [12 : 12 + S] of that read:
    its length is the smaller of S and of what the read holds after the
    header, so it is the whole rest of the read when the read is exactly the
    packet, and S bytes, 12 more than the packet's payload, when the read
    holds at least S + 12 bytes. *)
Theorem ptp_body_of_a_single_read (fuel : nat) (s : driver) (d : bytes)
    (rest : list (reply bytes)) (h : PtpHeader.tuple) :
  bulk_in (dev s) = Transfer d :: rest ->
  PtpHeader.unpack d = Ok h ->
  PtpHeader.size h <= 512 ->
  (0 < fuel)%nat ->
  exists body,
    outcome (MtpDriver._readPtp fuel s) =
      Some (Ok (PtpHeader.type h, PtpHeader.code h, PtpHeader.transaction h,
                body)) /\
    len body = Z.min (PtpHeader.size h) (len d - 12) /\
    (len d = PtpHeader.size h -> body = skipn 12 d) /\
    (PtpHeader.size h + 12 <= len d ->
     body = firstn (Z.to_nat (PtpHeader.size h)) (skipn 12 d)).
Proof.
  intros Hin Hh Hs Hf.
  rewrite (readPtp_one fuel s d rest h Hin Hh Hs Hf).
  pose proof (PtpHeader_unpack_size_nonneg d h Hh) as H0.
  assert (H12 : 12 <= len d).
  { unfold PtpHeader.unpack, Struct.unpack in Hh.
    change (Struct.size PtpHeader.layout) with 12 in Hh.
    destruct (Z.ltb_spec (len d) 12); [discriminate | assumption]. }
  eexists. split; [reflexivity|].
  unfold slice. replace (12 + PtpHeader.size h - 12) with (PtpHeader.size h)
    by lia.
  change (Z.to_nat 12) with 12%nat.
  split; [|split].
  - unfold len in *. rewrite length_firstn, length_skipn. lia.
  - intro E. apply firstn_all2. unfold len in *. rewrite length_skipn. lia.
  - reflexivity.
Qed.

Lemma ptp_body_of_a_single_read_witness :
  exists body,
    outcome (MtpDriver._readPtp 1
               (device_of [Transfer (ptp_packet_bytes 3 0x2001 0 [] ++
                                     ptp_packet_bytes 3 0x2002 1 [])] [])) =
      Some (Ok (3, 0x2001, 0, body)) /\
    len body = 12.
Proof.
  destruct (ptp_body_of_a_single_read 1
              (device_of [Transfer (ptp_packet_bytes 3 0x2001 0 [] ++
                                    ptp_packet_bytes 3 0x2002 1 [])] [])
              (ptp_packet_bytes 3 0x2001 0 [] ++
               ptp_packet_bytes 3 0x2002 1 []) []
              (PtpHeader.mk 12 3 0x2001 0) eq_refl eq_refl)
    as (body & Hb & Hl & _); [simpl; lia | lia |].
  exists body. split; [exact Hb|]. exact Hl.
Defined.

(** ** The three PTP operations on a device that goes along, and on one that
    does not *)

Lemma join_dump32le_bytes (args : list Z) :
  Forall (fun arg => 0 <= arg < 2 ^ 32) args ->
  MtpDriver.join_dump32le args = Ok (flat_map (Struct.dumple 4) args).
Proof.
  induction 1 as [|arg args Ha _ IH]; cbn [MtpDriver.join_dump32le flat_map].
  - reflexivity.
  - unfold dump32le, Struct.pack_field. cbn [Struct.width].
    rewrite (proj2 (in_range_true 4 arg)) by (cbn; lia). now rewrite IH.
Qed.

Lemma len_flat_map_dumple (args : list Z) :
  len (flat_map (Struct.dumple 4) args) = 4 * len args.
Proof.
  unfold len. induction args as [|arg args IH]; cbn [flat_map List.length].
  - reflexivity.
  - rewrite length_app, length_dumple. lia.
Qed.

(** The command phase of a PTP operation, for arguments that fit: the
    counter moves to the next id and the Command packet, its header followed
    by the arguments as four little-endian bytes each, is written. *)
Lemma writeInitialCommand_fits code args s :
  0 <= code < 2 ^ 16 ->
  Forall (fun arg => 0 <= arg < 2 ^ 32) args ->
  12 + 4 * len args < 2 ^ 32 ->
  0 <= next_id s < 2 ^ 32 ->
  exists hc,
    PtpHeader.pack
      {| PtpHeader.size := 12 + 4 * len args;
         PtpHeader.type := 1;
         PtpHeader.code := code;
         PtpHeader.transaction := next_id s |} = Ok hc /\
    MtpDriver._writeInitialCommand code args s =
    (_ <- UsbDriver.write (hc ++ flat_map (Struct.dumple 4) args) ;; ret tt)
      (with_transaction s (next_id s)).
Proof.
  intros Hc Ha Hs Hid.
  destruct (PtpHeader_pack_valid
              {| PtpHeader.size := 12 + 4 * len args;
                 PtpHeader.type := 1;
                 PtpHeader.code := code;
                 PtpHeader.transaction := next_id s |}) as [hc Hhc].
  { unfold PtpHeader.valid.
    cbn [PtpHeader.size PtpHeader.type PtpHeader.code PtpHeader.transaction].
    pose proof (len_nonneg args). lia. }
  exists hc. split; [exact Hhc|].
  rewrite writeInitialCommand_run, (join_dump32le_bytes args Ha), bind_lift_ok.
  unfold MtpDriver._writePtp, MtpDriver.TYPE_COMMAND.
  change (Struct.size PtpHeader.layout) with 12.
  now rewrite len_flat_map_dumple, Hhc, bind_lift_ok.
Qed.

Lemma write_then_ret_ok (w : bytes) (s : driver) n out' :
  bulk_out (dev s) = Transfer n :: out' ->
  (_ <- UsbDriver.write w ;; ret tt) s =
  (Some (Ok tt), write_done s out', [Write (epOut s) w]).
Proof.
  intro H. now rewrite (bind_ok _ _ _ _ _ _ (write_transfer w s n out' H)).
Qed.

Lemma write_then_ret_stalled (w : bytes) (s : driver) out' :
  bulk_out (dev s) = USBErr :: out' ->
  (_ <- UsbDriver.write w ;; ret tt) s =
  (Some (Raise USBError), write_done s out', [Write (epOut s) w]).
Proof.
  intro H. now rewrite (bind_raise _ _ _ _ _ _ (write_stall w s out' H)).
Qed.

(** X16. sendReadCommand on a device that takes the Command packet and
    answers with a Data packet and a Response packet, each in one read:
    the call returns the code of the Response packet and the body of the
    Data packet.  Neither the code of the Data packet nor the transaction
    id of either reply is compared with the command's. *)
Theorem ptp_sendReadCommand_on_success (fuel : nat) (code : Z)
    (args : list Z) (s : driver) (n : Z) (out' : list (reply Z))
    (dpkt rpkt : bytes) (in' : list (reply bytes))
    (hd hr : PtpHeader.tuple) :
  0 <= code < 2 ^ 16 ->
  Forall (fun arg => 0 <= arg < 2 ^ 32) args ->
  12 + 4 * len args < 2 ^ 32 ->
  0 <= next_id s < 2 ^ 32 ->
  bulk_out (dev s) = Transfer n :: out' ->
  bulk_in (dev s) = Transfer dpkt :: Transfer rpkt :: in' ->
  PtpHeader.unpack dpkt = Ok hd ->
  PtpHeader.type hd = 2 ->
  PtpHeader.size hd <= 512 ->
  PtpHeader.unpack rpkt = Ok hr ->
  PtpHeader.type hr = 3 ->
  PtpHeader.size hr <= 512 ->
  (0 < fuel)%nat ->
  exists w,
    ptp_packet 1 (next_id s) w /\
    MtpDriver.sendReadCommand fuel code args s =
    (Some (Ok (PtpHeader.code hr, slice dpkt 12 (12 + PtpHeader.size hd))),
     read_done (write_done (with_transaction s (next_id s)) out') in',
     [Write (epOut s) w; Read (epIn s) 512; Read (epIn s) 512]).
Proof.
  intros Hc Ha Hs Hid Hout Hin Hd Hdt Hds Hr Hrt Hrs Hf.
  destruct (writeInitialCommand_fits code args s Hc Ha Hs Hid)
    as (hc & Hhc & Hrun).
  rewrite (write_then_ret_ok _ (with_transaction s (next_id s)) n out' Hout)
    in Hrun.
  exists (hc ++ flat_map (Struct.dumple 4) args). split.
  - destruct (PtpHeader_unpack_pack _ _ Hhc) as [_ U].
    eexists. split; [apply U|]. now split.
  - unfold MtpDriver.sendReadCommand. rewrite (bind_ok _ _ _ _ _ _ Hrun).
    unfold MtpDriver._readData.
    set (s1 := write_done (with_transaction s (next_id s)) out').
    pose proof (readPtp_one fuel s1 dpkt (Transfer rpkt :: in') hd
                  Hin Hd Hds Hf) as H1.
    pose proof (readPtp_one fuel (read_done s1 (Transfer rpkt :: in'))
                  rpkt in' hr eq_refl Hr Hrs Hf) as H2.
    erewrite (bind_ok (_ <- MtpDriver._readPtp fuel ;; _))
      by (rewrite (bind_ok _ _ _ _ _ _ H1), Hdt; reflexivity).
    unfold MtpDriver._readResponse.
    erewrite (bind_ok (_ <- MtpDriver._readPtp fuel ;; _))
      by (rewrite (bind_ok _ _ _ _ _ _ H2), Hrt; reflexivity).
    reflexivity.
Qed.

(** X17. sendWriteCommand on a device that takes both packets and answers
    with a Response packet: it writes the Command packet (header of type 1
    with the code and the next transaction id, then the arguments as four
    little-endian bytes each) and the Data packet (header of type 2 with the
    same code and id and the size 12 + len(data), then the data as it is),
    reads once and returns the code of the response. *)
Theorem ptp_sendWriteCommand_on_success (fuel : nat) (code : Z)
    (args : list Z) (data : bytes) (s : driver) (n m : Z)
    (out' : list (reply Z)) (rpkt : bytes) (in' : list (reply bytes))
    (hr : PtpHeader.tuple) :
  0 <= code < 2 ^ 16 ->
  Forall (fun arg => 0 <= arg < 2 ^ 32) args ->
  12 + 4 * len args < 2 ^ 32 ->
  12 + len data < 2 ^ 32 ->
  0 <= next_id s < 2 ^ 32 ->
  bulk_out (dev s) = Transfer n :: Transfer m :: out' ->
  bulk_in (dev s) = Transfer rpkt :: in' ->
  PtpHeader.unpack rpkt = Ok hr ->
  PtpHeader.type hr = 3 ->
  PtpHeader.size hr <= 512 ->
  (0 < fuel)%nat ->
  exists hc hdd,
    PtpHeader.unpack hc =
      Ok {| PtpHeader.size := 12 + 4 * len args; PtpHeader.type := 1;
            PtpHeader.code := code; PtpHeader.transaction := next_id s |} /\
    PtpHeader.unpack hdd =
      Ok {| PtpHeader.size := 12 + len data; PtpHeader.type := 2;
            PtpHeader.code := code; PtpHeader.transaction := next_id s |} /\
    len hc = 12 /\ len hdd = 12 /\
    MtpDriver.sendWriteCommand fuel code args data s =
    (Some (Ok (PtpHeader.code hr)),
     read_done (write_done (with_transaction s (next_id s)) out') in',
     [Write (epOut s) (hc ++ flat_map (Struct.dumple 4) args);
      Write (epOut s) (hdd ++ data); Read (epIn s) 512]).
Proof.
  intros Hc Ha Hs Hds Hid Hout Hin Hr Hrt Hrs Hf.
  destruct (writeInitialCommand_fits code args s Hc Ha Hs Hid)
    as (hc & Hhc & Hrun).
  rewrite (write_then_ret_ok _ (with_transaction s (next_id s)) n _ Hout)
    in Hrun.
  destruct (PtpHeader_pack_valid
              {| PtpHeader.size := 12 + len data;
                 PtpHeader.type := 2;
                 PtpHeader.code := code;
                 PtpHeader.transaction := next_id s |}) as [hdd Hhdd].
  { unfold PtpHeader.valid.
    cbn [PtpHeader.size PtpHeader.type PtpHeader.code PtpHeader.transaction].
    pose proof (len_nonneg data). lia. }
  destruct (PtpHeader_unpack_pack _ _ Hhc) as [Lc Uc].
  destruct (PtpHeader_unpack_pack _ _ Hhdd) as [Ld Ud].
  exists hc, hdd.
  split; [specialize (Uc []); now rewrite app_nil_r in Uc|].
  split; [specialize (Ud []); now rewrite app_nil_r in Ud|].
  split; [exact Lc|]. split; [exact Ld|].
  unfold MtpDriver.sendWriteCommand. rewrite (bind_ok _ _ _ _ _ _ Hrun).
  set (s1 := write_done (with_transaction s (next_id s))
               (Transfer m :: out')).
  rewrite (self_transaction_run _ s1 (next_id s) eq_refl).
  assert (Hdata : MtpDriver._writePtp MtpDriver.TYPE_DATA code (next_id s)
                    data s1 =
                  (Some (Ok tt), write_done s1 out',
                   [Write (epOut s) (hdd ++ data)])).
  { unfold MtpDriver._writePtp, MtpDriver.TYPE_DATA.
    change (Struct.size PtpHeader.layout) with 12.
    rewrite Hhdd, bind_lift_ok.
    apply (write_then_ret_ok _ s1 m out' eq_refl). }
  rewrite (bind_ok _ _ _ _ _ _ Hdata).
  unfold MtpDriver._readResponse.
  rewrite (bind_ok _ _ _ _ _ _
             (readPtp_one fuel (write_done s1 out') rpkt in' hr Hin Hr Hrs Hf)).
  rewrite Hrt. reflexivity.
Qed.

(** X18. When the device answers a read command with a packet that is not
    a Data packet, for instance directly with its Response packet,
    sendReadCommand raises 'Wrong response type' with that packet's type:
    the packet is consumed, its code is not returned, and no second read is
    made; the counter has moved on all the same. *)
Theorem ptp_sendReadCommand_without_data_raises (fuel : nat) (code : Z)
    (args : list Z) (s : driver) (n : Z) (out' : list (reply Z))
    (rpkt : bytes) (in' : list (reply bytes)) (hr : PtpHeader.tuple) :
  0 <= code < 2 ^ 16 ->
  Forall (fun arg => 0 <= arg < 2 ^ 32) args ->
  12 + 4 * len args < 2 ^ 32 ->
  0 <= next_id s < 2 ^ 32 ->
  bulk_out (dev s) = Transfer n :: out' ->
  bulk_in (dev s) = Transfer rpkt :: in' ->
  PtpHeader.unpack rpkt = Ok hr ->
  PtpHeader.type hr <> 2 ->
  PtpHeader.size hr <= 512 ->
  (0 < fuel)%nat ->
  exists w,
    MtpDriver.sendReadCommand fuel code args s =
    (Some (Raise (MtpDriver.wrong_response_type (PtpHeader.type hr))),
     read_done (write_done (with_transaction s (next_id s)) out') in',
     [Write (epOut s) w; Read (epIn s) 512]).
Proof.
  intros Hc Ha Hs Hid Hout Hin Hr Hrt Hrs Hf.
  destruct (writeInitialCommand_fits code args s Hc Ha Hs Hid)
    as (hc & Hhc & Hrun).
  rewrite (write_then_ret_ok _ (with_transaction s (next_id s)) n out' Hout)
    in Hrun.
  exists (hc ++ flat_map (Struct.dumple 4) args).
  unfold MtpDriver.sendReadCommand. rewrite (bind_ok _ _ _ _ _ _ Hrun).
  unfold MtpDriver._readData.
  set (s1 := write_done (with_transaction s (next_id s)) out').
  pose proof (readPtp_one fuel s1 rpkt in' hr Hin Hr Hrs Hf) as H1.
  erewrite (bind_raise (_ <- MtpDriver._readPtp fuel ;; _)).
  - reflexivity.
  - rewrite (bind_ok _ _ _ _ _ _ H1). cbv beta iota zeta.
    unfold MtpDriver.TYPE_DATA.
    destruct (Z.eqb_spec (PtpHeader.type hr) 2); [contradiction|].
    reflexivity.
Qed.

(** X19. A USB error on the write of the Command packet is raised by each
    of the three operations: nothing is read, sendWriteCommand does not
    write its Data packet, and the counter has moved to the next id. *)
Theorem ptp_command_write_error_is_raised (fuel : nat) (code : Z)
    (args : list Z) (data : bytes) (s : driver) (out' : list (reply Z)) :
  0 <= code < 2 ^ 16 ->
  Forall (fun arg => 0 <= arg < 2 ^ 32) args ->
  12 + 4 * len args < 2 ^ 32 ->
  0 <= next_id s < 2 ^ 32 ->
  bulk_out (dev s) = USBErr :: out' ->
  exists w,
    ptp_packet 1 (next_id s) w /\
    MtpDriver.sendCommand fuel code args s =
    (Some (Raise USBError), write_done (with_transaction s (next_id s)) out',
     [Write (epOut s) w]) /\
    MtpDriver.sendWriteCommand fuel code args data s =
    (Some (Raise USBError), write_done (with_transaction s (next_id s)) out',
     [Write (epOut s) w]) /\
    MtpDriver.sendReadCommand fuel code args s =
    (Some (Raise USBError), write_done (with_transaction s (next_id s)) out',
     [Write (epOut s) w]).
Proof.
  intros Hc Ha Hs Hid Hout.
  destruct (writeInitialCommand_fits code args s Hc Ha Hs Hid)
    as (hc & Hhc & Hrun).
  rewrite (write_then_ret_stalled _ (with_transaction s (next_id s)) out' Hout)
    in Hrun.
  exists (hc ++ flat_map (Struct.dumple 4) args). split; [|split; [|split]].
  - destruct (PtpHeader_unpack_pack _ _ Hhc) as [_ U].
    eexists. split; [apply U|]. now split.
  - unfold MtpDriver.sendCommand. now apply bind_raise.
  - unfold MtpDriver.sendWriteCommand. now apply bind_raise.
  - unfold MtpDriver.sendReadCommand. now apply bind_raise.
Qed.

Lemma ptp_sendReadCommand_on_success_witness :
  exists w,
    ptp_packet 1 0 w /\
    MtpDriver.sendReadCommand 1 0x1002 [1]
      (device_of [Transfer (ptp_packet_bytes 2 0x9999 7 [x07; x08]);
                  Transfer (ptp_packet_bytes 3 0x2001 5 [])]
         [Transfer 16]) =
    (Some (Ok (0x2001, [x07; x08])),
     {| dev := {| bulk_in := []; bulk_out := [] |};
        epIn := 0x81; epOut := 0x02; transaction := Some 0 |},
     [Write 0x02 w; Read 0x81 512; Read 0x81 512]).
Proof.
  apply (ptp_sendReadCommand_on_success 1 0x1002 [1]
           (device_of [Transfer (ptp_packet_bytes 2 0x9999 7 [x07; x08]);
                       Transfer (ptp_packet_bytes 3 0x2001 5 [])]
              [Transfer 16])
           16 [] (ptp_packet_bytes 2 0x9999 7 [x07; x08])
           (ptp_packet_bytes 3 0x2001 5 []) []
           (PtpHeader.mk 14 2 0x9999 7) (PtpHeader.mk 12 3 0x2001 5));
    first [reflexivity | cbn; lia | repeat constructor; cbn; lia].
Defined.

Lemma ptp_sendWriteCommand_on_success_witness :
  exists hc hdd,
    PtpHeader.unpack hc = Ok (PtpHeader.mk 16 1 0x100d 2) /\
    PtpHeader.unpack hdd = Ok (PtpHeader.mk 13 2 0x100d 2) /\
    len hc = 12 /\ len hdd = 12 /\
    MtpDriver.sendWriteCommand 1 0x100d [1] [xaa] session_after_two =
    (Some (Ok 0x2001),
     {| dev := {| bulk_in := []; bulk_out := [] |};
        epIn := 0x81; epOut := 0x02; transaction := Some 2 |},
     [Write 0x02 (hc ++ [x01; x00; x00; x00]); Write 0x02 (hdd ++ [xaa]);
      Read 0x81 512]).
Proof.
  apply (ptp_sendWriteCommand_on_success 1 0x100d [1] [xaa] session_after_two
           16 13 [] (ptp_packet_bytes 3 0x2001 2 []) []
           (PtpHeader.mk 12 3 0x2001 2));
    first [reflexivity | cbn; lia | repeat constructor; cbn; lia].
Defined.

Lemma ptp_sendReadCommand_without_data_raises_witness :
  exists w,
    MtpDriver.sendReadCommand 1 0x1002 []
      (device_of [Transfer (ptp_packet_bytes 3 0x2002 0 []);
                  Transfer (ptp_packet_bytes 3 0x2001 1 [])]
         [Transfer 12]) =
    (Some (Raise (Exception "Wrong response type: 0x3")),
     {| dev := {| bulk_in := [Transfer (ptp_packet_bytes 3 0x2001 1 [])];
                  bulk_out := [] |};
        epIn := 0x81; epOut := 0x02; transaction := Some 0 |},
     [Write 0x02 w; Read 0x81 512]).
Proof.
  apply (ptp_sendReadCommand_without_data_raises 1 0x1002 []
           (device_of [Transfer (ptp_packet_bytes 3 0x2002 0 []);
                       Transfer (ptp_packet_bytes 3 0x2001 1 [])]
              [Transfer 12])
           12 [] (ptp_packet_bytes 3 0x2002 0 [])
           [Transfer (ptp_packet_bytes 3 0x2001 1 [])]
           (PtpHeader.mk 12 3 0x2002 0));
    first [reflexivity | cbn; lia | constructor | discriminate].
Defined.

Lemma ptp_command_write_error_is_raised_witness :
  exists w,
    ptp_packet 1 2 w /\
    MtpDriver.sendCommand 1 0x1001 [5]
      {| dev := {| bulk_in := []; bulk_out := [USBErr] |};
         epIn := 0x81; epOut := 0x02; transaction := Some 1 |} =
    (Some (Raise USBError),
     {| dev := {| bulk_in := []; bulk_out := [] |};
        epIn := 0x81; epOut := 0x02; transaction := Some 2 |},
     [Write 0x02 w]) /\
    MtpDriver.sendWriteCommand 1 0x1001 [5] [xaa]
      {| dev := {| bulk_in := []; bulk_out := [USBErr] |};
         epIn := 0x81; epOut := 0x02; transaction := Some 1 |} =
    (Some (Raise USBError),
     {| dev := {| bulk_in := []; bulk_out := [] |};
        epIn := 0x81; epOut := 0x02; transaction := Some 2 |},
     [Write 0x02 w]) /\
    MtpDriver.sendReadCommand 1 0x1001 [5]
      {| dev := {| bulk_in := []; bulk_out := [USBErr] |};
         epIn := 0x81; epOut := 0x02; transaction := Some 1 |} =
    (Some (Raise USBError),
     {| dev := {| bulk_in := []; bulk_out := [] |};
        epIn := 0x81; epOut := 0x02; transaction := Some 2 |},
     [Write 0x02 w]).
Proof.
  apply (ptp_command_write_error_is_raised 1 0x1001 [5] [xaa]
           {| dev := {| bulk_in := []; bulk_out := [USBErr] |};
              epIn := 0x81; epOut := 0x02; transaction := Some 1 |} []);
    first [reflexivity | cbn; lia | repeat constructor; cbn; lia].
Defined.

(** ** A driver that has just been built *)

(** X20. The first operation of a driver that __init__ has just built uses
    transaction id 0: the counter, which the new driver does not have, is 0
    afterwards and every packet written carries 0.  All its calls are made
    on the endpoints found, the reads on the odd-address one and the writes
    on the even-address one. *)
Theorem first_operation_of_a_new_driver
    (interface : list UsbDriverSetup.Endpoint) (handle : device)
    (s : driver) (fuel : nat) (c : ptp_call) :
  UsbDriverSetup.__init__ interface handle = Ok s ->
  transaction (final (perform fuel c s)) = Some 0 /\
  carries 0 (packets_of c) (writes (trace (perform fuel c s))) /\
  Forall (on_endpoints (epIn s) (epOut s)) (trace (perform fuel c s)) /\
  Z.land (epIn s) 1 = 1 /\ Z.land (epOut s) 1 = 0.
Proof.
  intro Hinit.
  assert (H : transaction s = None /\
              Z.land (epIn s) 1 = 1 /\ Z.land (epOut s) 1 = 0).
  { unfold UsbDriverSetup.__init__ in Hinit.
    destruct (UsbDriverSetup._findEndpoint interface _
                UsbDriverSetup.USB_ENDPOINT_IN) as [i|e] eqn:Ei;
      [|discriminate].
    destruct (UsbDriverSetup._findEndpoint interface _
                UsbDriverSetup.USB_ENDPOINT_OUT) as [o|e] eqn:Eo;
      [|discriminate].
    injection Hinit as <-. cbn [transaction epIn epOut].
    apply findEndpoint_found in Ei as (? & ? & ? & _ & _ & Hi & ->).
    apply findEndpoint_found in Eo as (? & ? & ? & _ & _ & Ho & ->).
    apply matches_true in Hi as [_ Hi]. apply matches_true in Ho as [_ Ho].
    now repeat split. }
  destruct H as (H0 & Hi & Ho).
  destruct (perform_run fuel c s) as (Ht & Hc & _).
  assert (Hid : next_id s = 0) by (unfold next_id; now rewrite H0).
  rewrite Hid in *. split; [exact Ht|]. split; [exact Hc|].
  split; [|now split].
  assert (Hstay : stays_on_endpoints (perform fuel c)).
  { destruct c as [code args|code args data|code args]; unfold perform;
      (apply stays_bind; [|intro; apply (stays_pure (Some (Ok tt)))]).
    - unfold MtpDriver.sendCommand.
      apply stays_bind; [apply stays_writeInitialCommand | intro].
      apply stays_ptp_readResponse.
    - unfold MtpDriver.sendWriteCommand.
      apply stays_bind; [apply stays_writeInitialCommand | intro].
      stay; [apply stays_writePtp | apply stays_ptp_readResponse].
    - unfold MtpDriver.sendReadCommand.
      apply stays_bind; [apply stays_writeInitialCommand | intro].
      stay; [apply stays_ptp_readData | apply stays_ptp_readResponse]. }
  apply Hstay.
Qed.

Lemma first_operation_of_a_new_driver_witness :
  transaction
    (final (perform 1 (Command 0x1001 [5]) first_command_device)) = Some 0 /\
  carries 0 [MtpDriver.TYPE_COMMAND]
    (writes (trace (perform 1 (Command 0x1001 [5]) first_command_device))) /\
  Forall (on_endpoints 0x81 0x02)
    (trace (perform 1 (Command 0x1001 [5]) first_command_device)) /\
  Z.land 0x81 1 = 1 /\ Z.land 0x02 1 = 0.
Proof.
  exact (first_operation_of_a_new_driver camera_interface
           {| bulk_in := [Transfer (ptp_packet_bytes 3 0x2001 0 [])];
              bulk_out := [Transfer 16] |}
           first_command_device 1 (Command 0x1001 [5]) eq_refl).
Defined.

Lemma init_finds_two_different_endpoints_witness :
  UsbDriverSetup.__init__ camera_interface
    {| bulk_in := []; bulk_out := [] |} = Ok (device_of [] []) /\
  Z.land 0x81 1 = 1 /\ Z.land 0x02 1 = 0 /\ 0x81 <> 0x02.
Proof.
  split; [reflexivity|].
  destruct (proj1 (init_finds_two_different_endpoints camera_interface
                     {| bulk_in := []; bulk_out := [] |})
              (device_of [] []) eq_refl)
    as (_ & _ & Hi & Ho & Hne & _).
  now repeat split.
Defined.

(** ** A failed read still returns what was read *)

Section MscSensePath.
Context {SD : SenseData}.

(** requestSense on a device that takes the CBW, sends the sense data and
    then a good status block. *)
Lemma requestSense_good depth s n out' sense_data c2 in' r2 :
  bulk_out (dev s) = Transfer n :: out' ->
  bulk_in (dev s) = Transfer sense_data :: Transfer c2 :: in' ->
  MscCommandStatusWrapper.unpack c2 = Ok r2 ->
  MscCommandStatusWrapper.signature r2 = MscDriver.USBS ->
  MscCommandStatusWrapper.status r2 = 0 ->
  MscDriver.requestSense (S depth) s =
  (Some (parseMscSense (Some sense_data)),
   read_done (write_done s out') in',
   [Write (epOut s) request_sense_cbw; Read (epIn s) 18; Read (epIn s) 13]).
Proof.
  intros Hout Hin Hr2 Hsig Hst. rewrite requestSense_run. cbv zeta.
  rewrite (sendReadCommand_after_cbw _ _ _ _ _ _ _
             (writeCommand_ok _ _ _ _ _ s _ _ _ pack_request_sense Hout)).
  change (bulk_in (dev (write_done s out'))) with (bulk_in (dev s)).
  rewrite Hin. cbv zeta.
  now rewrite (readResponse_good depth true
                 (read_done (write_done s out') (Transfer c2 :: in'))
                 c2 in' r2 eq_refl Hr2 Hsig Hst).
Qed.

(** X21. When the data read of sendReadCommand goes through but the status
    block reports a failure, and failOnError is not set, the call fetches the
    sense data with one REQUEST SENSE and returns it together with the bytes
    that were read: the device sees the command's CBW, the data read, the
    status read, the CBW of REQUEST SENSE, the 18-byte read and a second
    status read, in this order. *)
Theorem msc_failed_read_returns_sense_and_data (depth : nat)
    (command : bytes) (size : Z) (s : driver) (n m : Z)
    (out' : list (reply Z)) (data c1 sense_data c2 : bytes)
    (in' : list (reply bytes)) (r1 r2 : MscCommandStatusWrapper.tuple)
    (sense : Sense) :
  (List.length command <= 16)%nat ->
  0 <= size < 2 ^ 32 ->
  bulk_out (dev s) = Transfer n :: Transfer m :: out' ->
  bulk_in (dev s) =
    Transfer data :: Transfer c1 :: Transfer sense_data :: Transfer c2 ::
    in' ->
  MscCommandStatusWrapper.unpack c1 = Ok r1 ->
  MscCommandStatusWrapper.signature r1 = MscDriver.USBS ->
  MscCommandStatusWrapper.status r1 <> 0 ->
  MscCommandStatusWrapper.unpack c2 = Ok r2 ->
  MscCommandStatusWrapper.signature r2 = MscDriver.USBS ->
  MscCommandStatusWrapper.status r2 = 0 ->
  parseMscSense (Some sense_data) = Ok sense ->
  exists cbw,
    MscDriver.sendReadCommand (S (S depth)) command size false s =
    (Some (Ok (sense, Some data)), read_done (write_done s out') in',
     [Write (epOut s) cbw; Read (epIn s) size; Read (epIn s) 13;
      Write (epOut s) request_sense_cbw; Read (epIn s) 18;
      Read (epIn s) 13]).
Proof.
  intros Hc Hs Hout Hin Hr1 Hsig1 Hst1 Hr2 Hsig2 Hst2 Hparse.
  destruct (public_cbw_decodes MscDriver.DIRECTION_READ command size)
    as (w & Hw & _);
    [unfold MscDriver.DIRECTION_READ; lia | exact Hc | exact Hs |].
  exists w. unfold MscDriver.sendReadCommand.
  rewrite (sendReadCommand_after_cbw _ _ _ _ _ _ _
             (writeCommand_ok _ _ _ _ _ s _ _ _ Hw Hout)).
  change (bulk_in (dev (write_done s (Transfer m :: out'))))
    with (bulk_in (dev s)).
  rewrite Hin. cbv zeta.
  set (s2 := read_done (write_done s (Transfer m :: out'))
               (Transfer c1 :: Transfer sense_data :: Transfer c2 :: in')).
  rewrite (readResponse_run (S depth) false s2 c1
             (Transfer sense_data :: Transfer c2 :: in') r1 eq_refl Hr1).
  apply bytes_eqb_true in Hsig1. apply Z.eqb_neq in Hst1.
  rewrite Hsig1, Hst1. cbn [negb]. cbv zeta.
  rewrite (requestSense_good depth
             (read_done s2 (Transfer sense_data :: Transfer c2 :: in'))
             m out' sense_data c2 in' r2 eq_refl eq_refl Hr2 Hsig2 Hst2).
  rewrite Hparse. reflexivity.
Qed.

End MscSensePath.

Lemma msc_failed_read_returns_sense_and_data_witness :
  exists cbw,
    @MscDriver.sendReadCommand TripleSense 2 ten_byte_command 4 false
      (device_of [Transfer [x0a; x0b]; Transfer (csw 1);
                  Transfer sense_buffer; Transfer (csw 0)]
         [Transfer 31; Transfer 31]) =
    (Some (Ok ((5, 0x24, 0), Some [x0a; x0b])), device_of [] [],
     [Write 0x02 cbw; Read 0x81 4; Read 0x81 13;
      Write 0x02 request_sense_cbw; Read 0x81 18; Read 0x81 13]).
Proof.
  apply (@msc_failed_read_returns_sense_and_data TripleSense 0
           ten_byte_command 4
           (device_of [Transfer [x0a; x0b]; Transfer (csw 1);
                       Transfer sense_buffer; Transfer (csw 0)]
              [Transfer 31; Transfer 31])
           31 31 [] [x0a; x0b] (csw 1) sense_buffer (csw 0) []
           (MscCommandStatusWrapper.mk MscDriver.USBS 0 0 1)
           (MscCommandStatusWrapper.mk MscDriver.USBS 0 0 0) (5, 0x24, 0));
    first [reflexivity | cbn; lia | discriminate].
Defined.
